(** * AP_Terrain, vehicle <-> GCS communication (libraries/AP_Terrain/TerrainGCS.cpp)

    A shallow embedding of the terrain request scheduler, the TERRAIN_DATA
    ingestion path and the TERRAIN_REPORT statistics, followed by the
    properties established about them.

    Conventions.
    - C integers are [Z] values; every conversion to a narrower unsigned type
      is written out with [wrap].
    - The object [AP_Terrain] is passed explicitly.  Messages handed to the
      MAVLink transport are collected in an output list.
    - Member functions defined in other files of the library ([find_grid],
      [calculate_grid_info], [schedule_disk_io], [update], [height_amsl]) and
      the float arithmetic are the fields of the class [Collaborators].
    - The build modelled is the regular one, TERRAIN_DEBUG being 0: the
      [#if TERRAIN_DEBUG] block of [handle_terrain_data] is compiled out. *)

From Stdlib Require Import ZArith Lia.
From stdpp Require Import base list.

Local Open Scope Z_scope.

(** ** Fixed-width unsigned integers *)

Definition wrap (w v : Z) : Z := v mod 2 ^ w.
Definition uint8 : Z -> Z := wrap 8.
Definition uint16 : Z -> Z := wrap 16.
Definition uint32 : Z -> Z := wrap 32.
Definition uint64 : Z -> Z := wrap 64.

(** [~v] on a [uint64_t]. *)
Definition not64 (v : Z) : Z := uint64 (Z.lnot v).

(** ** Constants of AP_Terrain.h *)

(** Modelled from the spec: TERRAIN_GRID_MAVLINK_SIZE is defined in
    AP_Terrain.h, which is not part of the sources at hand.  It is the side S
    of a sub-chunk; the source speaks of "4x4 grids". *)
Definition TERRAIN_GRID_MAVLINK_SIZE : Z := 4.

(** Modelled from the spec: TERRAIN_GRID_BLOCK_MUL_X (AP_Terrain.h, missing)
    is the number of sub-chunk rows of a tile.  A tile has 56 sub-chunks and
    its last cell is [height[27][31]], hence 7 rows of 8 sub-chunks. *)
Definition TERRAIN_GRID_BLOCK_MUL_X : Z := 7.

(** Modelled from the spec: TERRAIN_GRID_BLOCK_MUL_Y (AP_Terrain.h, missing)
    is the number of sub-chunks per row, "chunks_per_column" in
    [chunk_index = row_chunk * chunks_per_column + col_chunk]. *)
Definition TERRAIN_GRID_BLOCK_MUL_Y : Z := 8.

(** Modelled from the spec: TERRAIN_GRID_BLOCK_SIZE_X (AP_Terrain.h, missing),
    the number of rows W of the tile matrix. *)
Definition TERRAIN_GRID_BLOCK_SIZE_X : Z :=
  TERRAIN_GRID_MAVLINK_SIZE * TERRAIN_GRID_BLOCK_MUL_X.

(** Modelled from the spec: TERRAIN_GRID_BLOCK_SIZE_Y (AP_Terrain.h, missing),
    the number of columns H of the tile matrix. *)
Definition TERRAIN_GRID_BLOCK_SIZE_Y : Z :=
  TERRAIN_GRID_MAVLINK_SIZE * TERRAIN_GRID_BLOCK_MUL_Y.

(** Modelled from the spec: [bitmap_mask] (AP_Terrain.h, missing) is the
    "full mask", one bit per sub-chunk of a tile. *)
Definition bitmap_mask : Z :=
  uint64 (Z.shiftl 1 (TERRAIN_GRID_BLOCK_MUL_X * TERRAIN_GRID_BLOCK_MUL_Y)) - 1.

(** ** Data model *)

(** Modelled from the spec: [enum GridCacheState] (AP_Terrain.h, missing),
    in the order Invalid, DiskWait, Valid, Dirty. *)
Inductive GridCacheState : Type :=
| GRID_CACHE_INVALID
| GRID_CACHE_DISKWAIT
| GRID_CACHE_VALID
| GRID_CACHE_DIRTY.

Global Instance GridCacheState_eq_dec : EqDecision GridCacheState.
Proof. solve_decision. Defined.

(** The ordinal of a state, for the comparison [state >= GRID_CACHE_VALID]. *)
Definition state_ord (s : GridCacheState) : Z :=
  match s with
  | GRID_CACHE_INVALID => 0
  | GRID_CACHE_DISKWAIT => 1
  | GRID_CACHE_VALID => 2
  | GRID_CACHE_DIRTY => 3
  end.

(** [struct grid_block]: the fields this file reads or writes.  [height] is
    the matrix [int16_t height[28][32]], a list of rows. *)
Record grid_block : Type := mk_grid_block {
  lat : Z;
  lon : Z;
  spacing : Z;
  bitmap : Z;
  height : list (list Z)
}.

(** [struct grid_cache]. *)
Record grid_cache : Type := mk_grid_cache {
  grid : grid_block;
  state : GridCacheState
}.

(** [struct Location], the two fields used here. *)
Record Location : Type := mk_Location {
  loc_lat : Z;
  loc_lng : Z
}.

(** The members of [AP_Terrain] named in this file; [other] stands for the
    rest of the object (disk IO state, access bookkeeping), which only the
    collaborators touch.  [cache] is the table [cache[]]: its length stands
    for TERRAIN_GRID_BLOCK_CACHE_SIZE, so a loop over the table is a loop
    over this list. *)
Record AP_Terrain (Other : Type) : Type := mk_AP_Terrain {
  enable : Z;
  grid_spacing : Z;
  last_request_time_ms : Z;
  cache : list grid_cache;
  other : Other
}.
Global Arguments mk_AP_Terrain {Other}.
Global Arguments enable {Other}.
Global Arguments grid_spacing {Other}.
Global Arguments last_request_time_ms {Other}.
Global Arguments cache {Other}.
Global Arguments other {Other}.

(** [mavlink_terrain_data_t], decoded. *)
Record mavlink_terrain_data_t : Type := mk_terrain_data {
  td_lat : Z;
  td_lon : Z;
  td_grid_spacing : Z;
  td_gridbit : Z;
  td_data : list Z
}.

(** [mavlink_terrain_check_t], decoded. *)
Record mavlink_terrain_check_t : Type := mk_terrain_check {
  tc_lat : Z;
  tc_lon : Z
}.

(** An inbound [mavlink_message_t], by message id. *)
Inductive mavlink_message_t : Type :=
| MAVLINK_MSG_ID_TERRAIN_DATA (packet : mavlink_terrain_data_t)
| MAVLINK_MSG_ID_TERRAIN_CHECK (packet : mavlink_terrain_check_t)
| MAVLINK_MSG_ID_OTHER (msgid : Z).

(** What this file hands to the transport. *)
Inductive mavlink_out (F : Type) : Type :=
| TERRAIN_REQUEST (chan : Z) (rlat rlon rspacing rmask : Z)
| TERRAIN_REPORT (chan : Z) (rlat rlon rspacing : Z) (rheight : F)
    (rpending rloaded : Z).
Global Arguments TERRAIN_REQUEST {F}.
Global Arguments TERRAIN_REPORT {F}.

Definition is_request {F : Type} (m : mavlink_out F) : bool :=
  match m with
  | TERRAIN_REQUEST _ _ _ _ _ => true
  | TERRAIN_REPORT _ _ _ _ _ _ _ => false
  end.

(** What one call reads from the HAL and the vehicle.  [millis] is read at
    most twice in a call of [send_request]: at the pacing test, and in
    [request_missing] when a request goes out (the call returns right after). *)
Record Env : Type := mk_Env {
  millis_entry : Z;
  millis_issue : Z;
  get_position : option Location;
  comm_get_txspace : Z -> Z
}.

(** ** Bit counting *)

(** [__builtin_popcount] on a 32-bit [unsigned]. *)
Fixpoint count_bits (n : nat) (v : Z) : Z :=
  match n with
  | O => 0
  | S k => Z.b2z (Z.odd v) + count_bits k (Z.div2 v)
  end.

Definition builtin_popcount (v : Z) : Z := count_bits 32 v.

Definition bitcount64 (b : Z) : Z :=
  uint8 (builtin_popcount (uint32 (Z.land b 4294967295))
         + builtin_popcount (uint32 (Z.shiftr b 32))).

(** The number of set bits among the low [w] bits of [b], by position. *)
Definition popcount (w : nat) (b : Z) : Z :=
  Z.of_nat (length (filter (fun i : nat => Z.testbit b (Z.of_nat i) = true) (seq 0 w))).

(** ** Statistics for TERRAIN_REPORT *)

Definition get_statistics_step (acc : Z * Z) (c : grid_cache) : Z * Z :=
  let '(pending, loaded) := acc in
  if decide (state c = GRID_CACHE_INVALID) then (pending, loaded)
  else
    let maskbits := uint8 (TERRAIN_GRID_BLOCK_MUL_X * TERRAIN_GRID_BLOCK_MUL_Y) in
    if decide (state c = GRID_CACHE_DISKWAIT) then (uint16 (pending + maskbits), loaded)
    else
      let bitcount := bitcount64 (bitmap (grid c)) in
      (uint16 (pending + (maskbits - bitcount)), uint16 (loaded + bitcount)).

(** [get_statistics(pending, loaded)]; the result is [(pending, loaded)]. *)
Definition get_statistics (tbl : list grid_cache) : Z * Z :=
  foldl get_statistics_step (0, 0) tbl.

(** ** Collaborators *)

(** The parts of the library and of the platform that live outside this file.
    [Other] is the remainder of the [AP_Terrain] object, [F] the type [float]
    with the three operations used on it, [grid_info] the result of
    [calculate_grid_info].  [find_grid] returns the cache entry it refers to
    together with the object as it leaves it.  [height_amsl loc h] returns its
    boolean result and the content of the [height] argument afterwards.
    [TERRAIN_REPORT_TXSPACE] is MAVLINK_NUM_NON_PAYLOAD_BYTES +
    MAVLINK_MSG_ID_TERRAIN_REPORT_LEN. *)
Class Collaborators : Type := {
  Other : Type;
  F : Type;
  grid_info : Type;
  F_of_int : Z -> F;
  F_0_7 : F;
  F_mul : F -> F -> F;
  find_grid : grid_info -> AP_Terrain Other -> grid_cache * AP_Terrain Other;
  calculate_grid_info : AP_Terrain Other -> Location -> grid_info;
  location_offset : Location -> F -> F -> Location;
  schedule_disk_io : AP_Terrain Other -> AP_Terrain Other;
  update : AP_Terrain Other -> AP_Terrain Other;
  height_amsl : Location -> F -> AP_Terrain Other -> bool * F * AP_Terrain Other;
  TERRAIN_REPORT_TXSPACE : Z
}.

(** ** Updating the members of the object *)

Definition set_last_request_time_ms {O : Type} (v : Z) (t : AP_Terrain O) : AP_Terrain O :=
  mk_AP_Terrain (enable t) (grid_spacing t) v (cache t) (other t).

Definition set_cache {O : Type} (tbl : list grid_cache) (t : AP_Terrain O) : AP_Terrain O :=
  mk_AP_Terrain (enable t) (grid_spacing t) (last_request_time_ms t) tbl (other t).

(** ** Applying a TERRAIN_DATA packet to a cache entry *)

(** [packet.data[k]]. *)
Definition data_at (data : list Z) (k : Z) : Z := default 0 (data !! Z.to_nat k).

(** [grid.height[i][j] = v].  An index outside the matrix is undefined
    behaviour in C++; here such a write changes nothing. *)
Definition height_set (h : list (list Z)) (i j v : Z) : list (list Z) :=
  alter (fun row => <[Z.to_nat j := v]> row) (Z.to_nat i) h.

(** The two nested loops of [handle_terrain_data]. *)
Definition write_chunk (h : list (list Z)) (idx_x idx_y : Z) (data : list Z) : list (list Z) :=
  foldl (fun hx x =>
    foldl (fun hy y =>
      height_set hy (idx_x + x) (idx_y + y) (data_at data (x * TERRAIN_GRID_MAVLINK_SIZE + y)))
      hx (seqZ 0 TERRAIN_GRID_MAVLINK_SIZE))
    h (seqZ 0 TERRAIN_GRID_MAVLINK_SIZE).

(** The test of the lookup loop of [handle_terrain_data]. *)
Definition packet_matches (packet : mavlink_terrain_data_t) (c : grid_cache) : bool :=
  bool_decide (lat (grid c) = td_lat packet)
  && bool_decide (lon (grid c) = td_lon packet)
  && bool_decide (spacing (grid c) = td_grid_spacing packet)
  && bool_decide (td_gridbit packet < 56).

(** The value of [i] when the lookup loop ends: the index of the first
    matching entry, or the size of the table. *)
Fixpoint scan_cache (packet : mavlink_terrain_data_t) (tbl : list grid_cache) : nat :=
  match tbl with
  | [] => O
  | c :: rest => if packet_matches packet c then O else S (scan_cache packet rest)
  end.

Definition idx_x_of (packet : mavlink_terrain_data_t) : Z :=
  uint8 ((td_gridbit packet / TERRAIN_GRID_BLOCK_MUL_Y) * TERRAIN_GRID_MAVLINK_SIZE).

Definition idx_y_of (packet : mavlink_terrain_data_t) : Z :=
  uint8 ((td_gridbit packet mod TERRAIN_GRID_BLOCK_MUL_Y) * TERRAIN_GRID_MAVLINK_SIZE).

(** Modelled from the spec: ASSERT_RANGE is a macro of AP_Terrain.h, which is
    missing.  It is a debug-only assertion: in the build modelled it expands
    to nothing, and execution goes on with [k] whatever the value is. *)
Definition ASSERT_RANGE {A : Type} (v minv maxv : Z) (k : A) : A := k.

(** What [handle_terrain_data] does through the references [gcache] and
    [grid] once the entry is found. *)
Definition apply_terrain_data (packet : mavlink_terrain_data_t) (gcache : grid_cache) : grid_cache :=
  let g := grid gcache in
  let idx_x := idx_x_of packet in
  let idx_y := idx_y_of packet in
  ASSERT_RANGE idx_x 0 ((TERRAIN_GRID_BLOCK_MUL_X - 1) * TERRAIN_GRID_MAVLINK_SIZE)
  (ASSERT_RANGE idx_y 0 ((TERRAIN_GRID_BLOCK_MUL_Y - 1) * TERRAIN_GRID_MAVLINK_SIZE)
  (let h := write_chunk (height g) idx_x idx_y (td_data packet) in
   let b := uint64 (Z.lor (bitmap g) (uint64 (Z.shiftl 1 (td_gridbit packet)))) in
   mk_grid_cache (mk_grid_block (lat g) (lon g) (spacing g) b h) GRID_CACHE_DIRTY)).

(** ** The functions of TerrainGCS.cpp *)

Section Model.
Context `{C : Collaborators}.

Local Abbreviation T := (AP_Terrain Other).
Local Abbreviation Out := (list (mavlink_out F)).

(** A computation on the object that may send messages: the result, the
    object afterwards and the messages sent, in order. *)
Definition M (A : Type) : Type := T -> A * T * Out.

Definition ret {A : Type} (a : A) : M A := fun t => (a, t, []).

Definition bind {A B : Type} (m : M A) (k : A -> M B) : M B :=
  fun t =>
    let '(a, t1, o1) := m t in
    let '(b, t2, o2) := k a t1 in
    (b, t2, o1 ++ o2).

Definition gets {A : Type} (f : T -> A) : M A := fun t => (f t, t, []).
Definition modify (f : T -> T) : M unit := fun t => (tt, f t, []).
Definition send (m : mavlink_out F) : M unit := fun t => (tt, t, [m]).
Definition call {A : Type} (f : T -> A * T) : M A :=
  fun t => let '(a, t1) := f t in (a, t1, []).

Local Notation "x <- m ;; k" := (bind m (fun x => k))
  (at level 100, m at next level, right associativity).
Local Notation "m ;;; k" := (bind m (fun _ => k))
  (at level 100, right associativity).

(** A [for] loop over [xs] whose body may [return] from the enclosing
    function: the body answers [true] when it did, and the loop stops. *)
Fixpoint for_until {A : Type} (xs : list A) (body : A -> M bool) : M bool :=
  match xs with
  | [] => ret false
  | x :: rest => b <- body x ;; if b : bool then ret true else for_until rest body
  end.

(** [request_missing(chan, gcache)]; [now] is what [millis()] returns. *)
Definition request_missing (now chan : Z) (gcache : grid_cache) : M bool :=
  let g := grid gcache in
  if decide (state gcache = GRID_CACHE_DISKWAIT) then ret false
  else if decide (Z.land (bitmap g) bitmap_mask = bitmap_mask) then ret false
  else
    gs <- gets grid_spacing ;;
    send (TERRAIN_REQUEST chan (lat g) (lon g) (uint16 gs)
            (Z.land bitmap_mask (not64 (bitmap g)))) ;;;
    modify (set_last_request_time_ms now) ;;;
    ret true.

(** [request_missing(chan, info)]. *)
Definition request_missing_info (now chan : Z) (info : grid_info) : M bool :=
  gcache <- call (find_grid info) ;;
  request_missing now chan gcache.

(** [get_statistics] on the object. *)
Definition get_statistics_of (t : T) : Z * Z := get_statistics (cache t).

(** [send_terrain_report(chan, loc)]. *)
Definition send_terrain_report (env : Env) (chan : Z) (loc : Location) : M unit :=
  r <- call (fun t => let '(ok, h, t1) := height_amsl loc (F_of_int 0) t in ((ok, h), t1)) ;;
  gs <- gets grid_spacing ;;
  let spacing := if fst r then uint16 gs else 0 in
  st <- gets get_statistics_of ;;
  if decide (TERRAIN_REPORT_TXSPACE <= comm_get_txspace env chan)
  then send (TERRAIN_REPORT chan (loc_lat loc) (loc_lng loc) spacing (snd r) (fst st) (snd st))
  else ret tt.

(** One step of the inner loop of the "up to 9 grids" part of
    [send_request]. *)
Definition request_offset (env : Env) (chan : Z) (loc : Location) (x y : Z) : M bool :=
  gs <- gets grid_spacing ;;
  let loc2 :=
    location_offset loc
      (F_mul (F_mul (F_of_int (x * TERRAIN_GRID_BLOCK_SIZE_X)) F_0_7) (F_of_int gs))
      (F_mul (F_mul (F_of_int (y * TERRAIN_GRID_BLOCK_SIZE_Y)) F_0_7) (F_of_int gs)) in
  info2 <- gets (fun t => calculate_grid_info t loc2) ;;
  request_missing_info (millis_issue env) chan info2.

(** The two nested loops [for x = -1..1], [for y = -1..1]. *)
Definition request_larger_set (env : Env) (chan : Z) (loc : Location) : M bool :=
  for_until (seqZ (-1) 3) (fun x =>
    for_until (seqZ (-1) 3) (fun y => request_offset env chan loc x y)).

(** The loop over the cache blocks "that may have been setup by a
    TERRAIN_CHECK". *)
Definition request_cache_blocks (env : Env) (chan : Z) : M bool :=
  n <- gets (fun t => length (cache t)) ;;
  for_until (seq 0 n) (fun i =>
    oc <- gets (fun t => cache t !! i) ;;
    match oc with
    | Some c =>
        if decide (state_ord GRID_CACHE_VALID <= state_ord (state c))
        then request_missing (millis_issue env) chan c
        else ret false
    | None => ret false
    end).

(** [send_request(chan)], from the point where the position [loc] is known. *)
Definition send_request_at (env : Env) (chan : Z) (loc : Location) : M unit :=
  info <- gets (fun t => calculate_grid_info t loc) ;;
  b1 <- request_missing_info (millis_issue env) chan info ;;
  if b1 : bool then ret tt
  else
    b2 <- request_larger_set env chan loc ;;
    if b2 : bool then ret tt
    else
      b3 <- request_cache_blocks env chan ;;
      if b3 : bool then ret tt
      else
        b4 <- request_missing_info (millis_issue env) chan info ;;
        if b4 : bool then ret tt
        else send_terrain_report env chan loc.

(** [send_request(chan)]. *)
Definition send_request (env : Env) (chan : Z) : M unit :=
  en <- gets enable ;;
  if decide (en = 0) then ret tt
  else
    modify schedule_disk_io ;;;
    last <- gets last_request_time_ms ;;
    if decide (uint32 (millis_entry env - last) < 2000) then ret tt
    else
      match get_position env with
      | None => ret tt
      | Some loc => send_request_at env chan loc
      end.

(** [handle_terrain_check(chan, msg)]. *)
Definition handle_terrain_check (env : Env) (chan : Z) (packet : mavlink_terrain_check_t) : M unit :=
  send_terrain_report env chan (mk_Location (tc_lat packet) (tc_lon packet)).

(** [handle_terrain_data(msg)]. *)
Definition handle_terrain_data (packet : mavlink_terrain_data_t) : M unit :=
  tbl <- gets cache ;;
  let i := scan_cache packet tbl in
  if decide (i = length tbl) then ret tt
  else
    modify (fun t => set_cache (alter (apply_terrain_data packet) i (cache t)) t) ;;;
    modify update.

(** [handle_data(chan, msg)]. *)
Definition handle_data (env : Env) (chan : Z) (msg : mavlink_message_t) : M unit :=
  match msg with
  | MAVLINK_MSG_ID_TERRAIN_DATA packet => handle_terrain_data packet
  | MAVLINK_MSG_ID_TERRAIN_CHECK packet => handle_terrain_check env chan packet
  | MAVLINK_MSG_ID_OTHER _ => ret tt
  end.

(** The object after a computation, and the messages it sent. *)
Definition obj_after {A : Type} (r : A * T * Out) : T := snd (fst r).
Definition sent {A : Type} (r : A * T * Out) : Out := snd r.
Definition result {A : Type} (r : A * T * Out) : A := fst (fst r).

(** The number of TERRAIN_REQUEST messages in an output. *)
Definition requests (o : Out) : nat := length (filter (fun m => is_request m = true) o).

End Model.

(** ** Notions used to state the properties *)

(** What one cache entry adds to [(pending, loaded)] according to the
    specification of the status reporter. *)
Definition contribution (c : grid_cache) : Z * Z :=
  match state c with
  | GRID_CACHE_INVALID => (0, 0)
  | GRID_CACHE_DISKWAIT => (56, 0)
  | GRID_CACHE_VALID | GRID_CACHE_DIRTY =>
      (56 - popcount 64 (bitmap (grid c)), popcount 64 (bitmap (grid c)))
  end.

Definition sum_Z (l : list Z) : Z := foldr Z.add 0 l.

(** The cell [h[i][j]] of a matrix, if there is one. *)
Definition cell (h : list (list Z)) (i j : nat) : option Z :=
  row ← h !! i; row !! j.

(** A matrix with the dimensions of [height]. *)
Definition matrix_wf (h : list (list Z)) : Prop :=
  length h = Z.to_nat TERRAIN_GRID_BLOCK_SIZE_X
  /\ Forall (fun row => length row = Z.to_nat TERRAIN_GRID_BLOCK_SIZE_Y) h.

(** A sequence of writes [h[i][j] = v], applied from left to right. *)
Definition apply_writes (h : list (list Z)) (ws : list (Z * Z * Z)) : list (list Z) :=
  foldl (fun hh w => height_set hh (fst (fst w)) (snd (fst w)) (snd w)) h ws.

(** The value last written to the cell [(i, j)] by [ws], if any. *)
Fixpoint last_write (ws : list (Z * Z * Z)) (i j : nat) : option Z :=
  match ws with
  | [] => None
  | w :: rest =>
      match last_write rest i j with
      | Some v => Some v
      | None =>
          if decide (Z.to_nat (fst (fst w)) = i /\ Z.to_nat (snd (fst w)) = j)
          then Some (snd w) else None
      end
  end.

(** The sixteen writes of the two nested loops, in execution order. *)
Definition chunk_writes (idx_x idx_y : Z) (data : list Z) : list (Z * Z * Z) :=
  x ← seqZ 0 TERRAIN_GRID_MAVLINK_SIZE;
  y ← seqZ 0 TERRAIN_GRID_MAVLINK_SIZE;
  [(idx_x + x, idx_y + y, data_at data (x * TERRAIN_GRID_MAVLINK_SIZE + y))].

(** The bit of a payload's chunk index, and the union over a sequence of
    payloads. *)
Definition chunk_bit (packet : mavlink_terrain_data_t) : Z := Z.shiftl 1 (td_gridbit packet).

Definition union_bits (ps : list mavlink_terrain_data_t) : Z :=
  foldr (fun p acc => Z.lor (chunk_bit p) acc) 0 ps.

(** The offsets of the 3x3 grid in the order of the two nested loops, and the
    eight of them the specification names (the centre left out). *)
Definition grid_3x3 : list (Z * Z) :=
  [(-1, -1); (-1, 0); (-1, 1); (0, -1); (0, 0); (0, 1); (1, -1); (1, 0); (1, 1)].

Definition neighbours_8 : list (Z * Z) :=
  [(-1, -1); (-1, 0); (-1, 1); (0, -1); (0, 1); (1, -1); (1, 0); (1, 1)].

(** The address of the tile held by a cache entry. *)
Definition address (c : grid_cache) : Z * Z * Z :=
  (lat (grid c), lon (grid c), spacing (grid c)).

(** The tile of an entry after a packet has been applied to it. *)
Definition grid_after (packet : mavlink_terrain_data_t) (g : grid_block) : grid_block :=
  grid (apply_terrain_data packet (mk_grid_cache g GRID_CACHE_INVALID)).

Section Notions.
Context `{C : Collaborators}.

(** The object at the point where [handle_terrain_data] calls [update()],
    for a packet that found its entry. *)
Definition ingested (packet : mavlink_terrain_data_t) (t : AP_Terrain Other) : AP_Terrain Other :=
  set_cache (alter (apply_terrain_data packet) (scan_cache packet (cache t)) (cache t)) t.

(** The fan-out step as the specification words it: the eight neighbours,
    the centre excluded, until the first issuance. *)
Definition request_neighbours_spec (env : Env) (chan : Z) (loc : Location) : M bool :=
  for_until neighbours_8 (fun xy => request_offset env chan loc (fst xy) (snd xy)).

(** Delivering a sequence of payloads, first to last. *)
Definition deliver (ps : list mavlink_terrain_data_t) (t : AP_Terrain Other) : AP_Terrain Other :=
  foldl (fun tt p => obj_after (handle_terrain_data p tt)) t ps.

(** The bitmap of the cache entry [i]. *)
Definition bitmap_at (i : nat) (t : AP_Terrain Other) : option Z :=
  (fun c => bitmap (grid c)) <$> cache t !! i.

(** A step that either answers [false] having sent nothing, or answers [true]
    having sent exactly one request and set the pacing timestamp to [now]. *)
Definition issues_or_silent (now : Z) (m : M bool) : Prop :=
  forall t,
    (result (m t) = false -> sent (m t) = [])
    /\ (result (m t) = true ->
        requests (sent (m t)) = 1%nat /\ last_request_time_ms (obj_after (m t)) = now).

(** A computation that sends at most one request, and sets the pacing
    timestamp to [now] when it sends one. *)
Definition paced (now : Z) (m : M unit) : Prop :=
  forall t,
    (requests (sent (m t)) <= 1)%nat
    /\ (requests (sent (m t)) = 1%nat -> last_request_time_ms (obj_after (m t)) = now).

(** A collaborator that leaves the content of every tile alone. *)
Definition keeps_grids (f : AP_Terrain Other -> AP_Terrain Other) : Prop :=
  forall t, grid <$> cache (f t) = grid <$> cache t.

(** A collaborator that leaves the pacing timestamp alone. *)
Definition keeps_pacing (f : AP_Terrain Other -> AP_Terrain Other) : Prop :=
  forall t, last_request_time_ms (f t) = last_request_time_ms t.

End Notions.

(** ** A concrete set of collaborators *)

(** Floats are integers counted in tenths, a tile address is the pair of
    coordinates of the location, and [find_grid] records every lookup in the
    [other] part of the object; the hooks do nothing. *)
Definition sample_find_grid (info : Z * Z) (t : AP_Terrain (list (Z * Z)))
  : grid_cache * AP_Terrain (list (Z * Z)) :=
  let t1 := mk_AP_Terrain (enable t) (grid_spacing t) (last_request_time_ms t)
              (cache t) (other t ++ [info]) in
  match find (fun c => bool_decide (lat (grid c) = fst info /\ lon (grid c) = snd info)) (cache t) with
  | Some c => (c, t1)
  | None =>
      (mk_grid_cache (mk_grid_block (fst info) (snd info) (grid_spacing t) 0 [])
         GRID_CACHE_DISKWAIT, t1)
  end.

Definition sample : Collaborators := {|
  Other := list (Z * Z);
  F := Z;
  grid_info := Z * Z;
  F_of_int := fun z => 10 * z;
  F_0_7 := 7;
  F_mul := fun a b => a * b / 10;
  find_grid := sample_find_grid;
  calculate_grid_info := fun _ loc => (loc_lat loc, loc_lng loc);
  location_offset := fun loc dn de => mk_Location (loc_lat loc + dn) (loc_lng loc + de);
  schedule_disk_io := fun t => t;
  update := fun t => t;
  height_amsl := fun _ h t => (false, h, t);
  TERRAIN_REPORT_TXSPACE := 30
|}.

Definition blank_height : list (list Z) := replicate 28 (replicate 32 0).

Definition sample_entry (la lo sp bm : Z) (st : GridCacheState) : grid_cache :=
  mk_grid_cache (mk_grid_block la lo sp bm blank_height) st.

Definition sample_obj (en last : Z) (tbl : list grid_cache) : AP_Terrain (list (Z * Z)) :=
  mk_AP_Terrain en 100 last tbl [].

Definition sample_env (t_entry t_issue : Z) : Env :=
  mk_Env t_entry t_issue (Some (mk_Location 1000 2000)) (fun _ => 64).

Definition sample_packet (bit : Z) : mavlink_terrain_data_t :=
  mk_terrain_data 1000 2000 100 bit
    [101; 102; 103; 104; 105; 106; 107; 108; 109; 110; 111; 112; 113; 114; 115; 116].

(** A packet with samples outside the range 1..20000. *)
Definition corrupt_packet (bit : Z) : mavlink_terrain_data_t :=
  mk_terrain_data 1000 2000 100 bit
    [0; -1; 20001; 32767; -32768; 106; 107; 108; 109; 110; 111; 112; 113; 114; 115; 30000].

(** ** Notions for the further properties *)

(** The address a TERRAIN_DATA packet names. *)
Definition packet_address (packet : mavlink_terrain_data_t) : Z * Z * Z :=
  (td_lat packet, td_lon packet, td_grid_spacing packet).

(** A bitmap with no bit outside the full mask. *)
Definition within_mask (b : Z) : Prop := Z.land b bitmap_mask = b.

(** An entry the loop over the cache blocks sends a request for. *)
Definition requestable (c : grid_cache) : bool :=
  bool_decide (state_ord GRID_CACHE_VALID <= state_ord (state c))
  && negb (bool_decide (Z.land (bitmap (grid c)) bitmap_mask = bitmap_mask)).

(** The number of entries that are not Invalid. *)
Definition tracked (tbl : list grid_cache) : Z :=
  Z.of_nat (length (filter (fun c => state c <> GRID_CACHE_INVALID) tbl)).

(** Two objects with the same table, enable flag and grid spacing. *)
Definition same_tiles {O : Type} (t t' : AP_Terrain O) : Prop :=
  cache t' = cache t /\ enable t' = enable t /\ grid_spacing t' = grid_spacing t.

(** The tile of an entry after a sequence of packets has been applied. *)
Definition grid_after_all (ps : list mavlink_terrain_data_t) (g : grid_block) : grid_block :=
  foldl (fun gg p => grid_after p gg) g ps.

Section FurtherNotions.
Context `{C : Collaborators}.

(** A computation whose start object, end object and output are always
    related by [R]. *)
Definition tracks {A : Type} (R : AP_Terrain Other -> AP_Terrain Other -> list (mavlink_out F) -> Prop)
  (m : M A) : Prop :=
  forall t, R t (obj_after (m t)) (sent (m t)).

(** A step that answers [false] having sent nothing, or [true] having sent a
    single message, a request. *)
Definition one_or_none (m : M bool) : Prop :=
  forall t,
    (result (m t) = false -> sent (m t) = [])
    /\ (result (m t) = true -> exists r, sent (m t) = [r] /\ is_request r = true).

(** A computation that sends one message at most. *)
Definition single_message (m : M unit) : Prop :=
  forall t, (length (sent (m t)) <= 1)%nat.

(** A step that, started in an object satisfying [Inv], answers [false],
    sends nothing and ends in an object satisfying [Inv]. *)
Definition quiet_under (Inv : AP_Terrain Other -> Prop) (m : M bool) : Prop :=
  forall t, Inv t -> result (m t) = false /\ sent (m t) = [] /\ Inv (obj_after (m t)).

(** An entry [request_missing] has nothing to do for. *)
Definition nothing_to_request (c : grid_cache) : Prop :=
  state c = GRID_CACHE_DISKWAIT \/ Z.land (bitmap (grid c)) bitmap_mask = bitmap_mask.

End FurtherNotions.

(** * Properties *)

(** ** Fixed-width arithmetic and bits *)

Lemma wrap_small (w v : Z) : 0 <= v < 2 ^ w -> wrap w v = v.
Proof. intros Hv. unfold wrap. apply Z.mod_small. exact Hv. Qed.

Lemma wrap_range (w v : Z) : 0 <= w -> 0 <= wrap w v < 2 ^ w.
Proof. intros Hw. unfold wrap. apply Z.mod_pos_bound. apply Z.pow_pos_nonneg; lia. Qed.

Lemma wrap_testbit (w v i : Z) :
  0 <= w -> Z.testbit (wrap w v) i = (i <? w) && Z.testbit v i.
Proof.
  intros Hw. unfold wrap. destruct (Z.ltb_spec i w) as [Hlt | Hge]; simpl.
  - destruct (Z.lt_trichotomy i 0) as [Hi | Hi].
    + rewrite !Z.testbit_neg_r by lia. reflexivity.
    + apply Z.mod_pow2_bits_low. lia.
  - apply Z.mod_pow2_bits_high. lia.
Qed.


(** The same arithmetic modulo [2 ^ w] on both sides of a subtraction. *)
Lemma wrap_sub_wrap (w a b : Z) : wrap w (wrap w a - wrap w b) = wrap w (a - b).
Proof. unfold wrap. rewrite <- Zminus_mod. reflexivity. Qed.

Lemma wrap_add_l (w a b : Z) : wrap w (wrap w a + b) = wrap w (a + b).
Proof. unfold wrap. rewrite Zplus_mod_idemp_l. reflexivity. Qed.

Lemma count_bits_shift (n s : nat) (v : Z) :
  Z.of_nat (length (filter (fun i : nat => Z.testbit v (Z.of_nat i) = true) (seq s n)))
  = count_bits n (Z.shiftr v (Z.of_nat s)).
Proof.
  revert s. induction n as [| n IH]; intros s; [reflexivity |].
  cbn [seq count_bits]. rewrite filter_cons.
  assert (Hodd : Z.odd (Z.shiftr v (Z.of_nat s)) = Z.testbit v (Z.of_nat s)).
  { rewrite <- Z.bit0_odd, Z.shiftr_spec by lia. reflexivity. }
  assert (Hdiv : Z.div2 (Z.shiftr v (Z.of_nat s)) = Z.shiftr v (Z.of_nat (S s))).
  { rewrite Z.div2_spec, Z.shiftr_shiftr by lia. f_equal. lia. }
  rewrite Hodd, Hdiv, <- IH.
  destruct (decide (Z.testbit v (Z.of_nat s) = true)) as [Hb | Hb].
  - rewrite Hb. cbn [length Z.b2z]. lia.
  - apply not_true_is_false in Hb. rewrite Hb. cbn [Z.b2z]. lia.
Qed.

Lemma count_bits_popcount (n : nat) (v : Z) : count_bits n v = popcount n v.
Proof. unfold popcount. rewrite count_bits_shift. rewrite Z.shiftr_0_r. reflexivity. Qed.

Lemma count_bits_low (n : nat) (v w : Z) :
  (forall i, 0 <= i < Z.of_nat n -> Z.testbit v i = Z.testbit w i) ->
  count_bits n v = count_bits n w.
Proof.
  revert v w. induction n as [| n IH]; intros v w Hvw; [reflexivity |].
  cbn [count_bits]. rewrite <- !Z.bit0_odd, (Hvw 0) by lia. f_equal.
  apply IH. intros i Hi. rewrite !Z.div2_spec, !Z.shiftr_spec by lia.
  apply Hvw. lia.
Qed.

Lemma count_bits_range (n : nat) (v : Z) : 0 <= count_bits n v <= Z.of_nat n.
Proof.
  revert v. induction n as [| n IH]; intros v; cbn [count_bits]; [lia |].
  specialize (IH (Z.div2 v)). destruct (Z.odd v); cbn [Z.b2z]; lia.
Qed.

Lemma popcount_split (a b : nat) (v : Z) :
  popcount (a + b) v = popcount a v + popcount b (Z.shiftr v (Z.of_nat a)).
Proof.
  unfold popcount at 1. rewrite seq_app, filter_app, length_app, Nat2Z.inj_add.
  rewrite (count_bits_shift b (0 + a) v), count_bits_popcount. reflexivity.
Qed.

Lemma bitcount64_halves (b : Z) :
  bitcount64 b = count_bits 32 b + count_bits 32 (Z.shiftr b 32).
Proof.
  unfold bitcount64, builtin_popcount.
  assert (Hlo : count_bits 32 (uint32 (Z.land b 4294967295)) = count_bits 32 b).
  { apply count_bits_low. intros i Hi. unfold uint32. rewrite wrap_testbit by lia.
    change 4294967295 with (Z.ones 32). rewrite Z.land_spec, Z.testbit_ones by lia.
    destruct (Z.ltb_spec i 32), (Z.leb_spec 0 i); try lia.
    simpl. rewrite andb_true_r. reflexivity. }
  assert (Hhi : count_bits 32 (uint32 (Z.shiftr b 32)) = count_bits 32 (Z.shiftr b 32)).
  { apply count_bits_low. intros i Hi. unfold uint32. rewrite wrap_testbit by lia.
    destruct (Z.ltb_spec i 32); [reflexivity | lia]. }
  rewrite Hlo, Hhi. unfold uint8. apply wrap_small.
  pose proof (count_bits_range 32 b). pose proof (count_bits_range 32 (Z.shiftr b 32)).
  lia.
Qed.

Lemma bitcount64_is_popcount (b : Z) : bitcount64 b = popcount 64 b.
Proof.
  rewrite bitcount64_halves. change 64%nat with (32 + 32)%nat.
  rewrite popcount_split, !count_bits_popcount. reflexivity.
Qed.

Lemma popcount_range (w : nat) (b : Z) : 0 <= popcount w b <= Z.of_nat w.
Proof. rewrite <- count_bits_popcount. apply count_bits_range. Qed.

(** C9. For every 64-bit value [b], and indeed for every integer read on its
    64 low bits, [bitcount64 b] is the number of positions below 64 at which
    [b] has a set bit; that number is the sum of the counts of the low and of
    the high 32-bit half. *)
Theorem bitcount64_counts_all_64_bits (b : Z) :
  bitcount64 b = popcount 64 b
  /\ popcount 64 b = popcount 32 b + popcount 32 (Z.shiftr b 32)
  /\ 0 <= bitcount64 b <= 64.
Proof.
  split; [apply bitcount64_is_popcount |]. split.
  - change 64%nat with (32 + 32)%nat. apply popcount_split.
  - rewrite bitcount64_is_popcount. pose proof (popcount_range 64 b). lia.
Qed.

(** ** Statistics *)

Lemma get_statistics_step_contribution (p l : Z) (c : grid_cache) :
  0 <= p < 2 ^ 16 -> 0 <= l < 2 ^ 16 ->
  get_statistics_step (p, l) c
  = (uint16 (p + fst (contribution c)), uint16 (l + snd (contribution c))).
Proof.
  intros Hp Hl. unfold get_statistics_step, contribution, uint16.
  rewrite bitcount64_is_popcount.
  change (uint8 (TERRAIN_GRID_BLOCK_MUL_X * TERRAIN_GRID_BLOCK_MUL_Y)) with 56.
  destruct (state c); simpl;
    rewrite ?Z.add_0_r, ?(wrap_small 16 p), ?(wrap_small 16 l) by lia; reflexivity.
Qed.

Lemma get_statistics_fold (tbl : list grid_cache) (p l : Z) :
  0 <= p < 2 ^ 16 -> 0 <= l < 2 ^ 16 ->
  foldl get_statistics_step (p, l) tbl
  = (uint16 (p + sum_Z (fst ∘ contribution <$> tbl)),
     uint16 (l + sum_Z (snd ∘ contribution <$> tbl))).
Proof.
  revert p l. induction tbl as [| c tbl IH]; intros p l Hp Hl.
  - simpl. unfold uint16. rewrite !Z.add_0_r, !wrap_small by lia. reflexivity.
  - cbn [foldl fmap list_fmap sum_Z foldr compose].
    rewrite get_statistics_step_contribution by assumption.
    rewrite IH by (apply wrap_range; lia).
    unfold uint16. rewrite !wrap_add_l, !Z.add_assoc. reflexivity.
Qed.

Lemma get_statistics_wraps (tbl : list grid_cache) :
  get_statistics tbl
  = (uint16 (sum_Z (fst ∘ contribution <$> tbl)), uint16 (sum_Z (snd ∘ contribution <$> tbl))).
Proof. unfold get_statistics. rewrite get_statistics_fold by lia. reflexivity. Qed.

Lemma contribution_bounds (tbl : list grid_cache) :
  Forall (fun c => popcount 64 (bitmap (grid c)) <= 56) tbl ->
  0 <= sum_Z (fst ∘ contribution <$> tbl) <= 56 * Z.of_nat (length tbl)
  /\ 0 <= sum_Z (snd ∘ contribution <$> tbl) <= 56 * Z.of_nat (length tbl).
Proof.
  induction 1 as [| c tbl Hc _ IH]; [simpl; lia |].
  cbn [fmap list_fmap sum_Z foldr compose length]. fold (sum_Z (fst ∘ contribution <$> tbl)).
  fold (sum_Z (snd ∘ contribution <$> tbl)).
  set (sp := sum_Z (fst ∘ contribution <$> tbl)) in *.
  set (sl := sum_Z (snd ∘ contribution <$> tbl)) in *.
  pose proof (popcount_range 64 (bitmap (grid c))).
  unfold contribution. destruct (state c); simpl; lia.
Qed.

Lemma contribution_invalid (tbl : list grid_cache) :
  Forall (fun c => state c = GRID_CACHE_INVALID) tbl ->
  sum_Z (fst ∘ contribution <$> tbl) = 0 /\ sum_Z (snd ∘ contribution <$> tbl) = 0.
Proof.
  induction 1 as [| c tbl Hc _ IH]; [split; reflexivity |].
  cbn [fmap list_fmap sum_Z foldr compose]. fold (sum_Z (fst ∘ contribution <$> tbl)).
  fold (sum_Z (snd ∘ contribution <$> tbl)).
  destruct IH as [-> ->]. unfold contribution. rewrite Hc. split; reflexivity.
Qed.

Lemma sum_Z_app (l k : list Z) : sum_Z (l ++ k) = sum_Z l + sum_Z k.
Proof. induction l as [| x l IH]; cbn [app sum_Z foldr]; [reflexivity |]. fold (sum_Z (l ++ k)). fold (sum_Z l). lia. Qed.

(** C8. [get_statistics] adds up, over the cache table, nothing for an Invalid
    entry, 56 pending for a DiskWait entry, and for a Valid or Dirty entry
    the bit count of its bitmap as loaded and 56 minus that count as pending.
    The two 16-bit counters hold these sums exactly as long as the table has
    at most 1170 entries whose bitmaps have at most 56 bits set (and hold them
    modulo 2^16 in any case).  An all-Invalid table gives (0, 0); one Dirty
    tile with 10 bits set among Invalid entries gives pending 46, loaded 10. *)
Theorem get_statistics_sums_contributions (tbl : list grid_cache) :
  get_statistics tbl
  = (uint16 (sum_Z (fst ∘ contribution <$> tbl)), uint16 (sum_Z (snd ∘ contribution <$> tbl)))
  /\ (56 * Z.of_nat (length tbl) < 2 ^ 16 ->
      Forall (fun c => popcount 64 (bitmap (grid c)) <= 56) tbl ->
      get_statistics tbl
      = (sum_Z (fst ∘ contribution <$> tbl), sum_Z (snd ∘ contribution <$> tbl)))
  /\ (Forall (fun c => state c = GRID_CACHE_INVALID) tbl -> get_statistics tbl = (0, 0))
  /\ (forall pre c post,
        tbl = pre ++ c :: post ->
        Forall (fun c => state c = GRID_CACHE_INVALID) pre ->
        Forall (fun c => state c = GRID_CACHE_INVALID) post ->
        state c = GRID_CACHE_DIRTY ->
        popcount 64 (bitmap (grid c)) = 10 ->
        get_statistics tbl = (46, 10)).
Proof.
  split; [apply get_statistics_wraps |]. split; [| split].
  - intros Hlen Hall. rewrite get_statistics_wraps.
    destruct (contribution_bounds tbl Hall) as [Hp Hl].
    unfold uint16. rewrite !wrap_small by lia. reflexivity.
  - intros Hall. rewrite get_statistics_wraps.
    destruct (contribution_invalid tbl Hall) as [-> ->]. reflexivity.
  - intros pre c post -> Hpre Hpost Hst Hbits. rewrite get_statistics_wraps.
    rewrite !fmap_app, !sum_Z_app. cbn [fmap list_fmap sum_Z foldr compose].
    fold (sum_Z (fst ∘ contribution <$> post)). fold (sum_Z (snd ∘ contribution <$> post)).
    destruct (contribution_invalid pre Hpre) as [-> ->].
    destruct (contribution_invalid post Hpost) as [-> ->].
    unfold contribution. rewrite Hst, Hbits. reflexivity.
Qed.

Lemma get_statistics_sums_contributions_witness :
  get_statistics
    [sample_entry 1 2 100 0 GRID_CACHE_INVALID;
     sample_entry 3 4 100 1023 GRID_CACHE_DIRTY;
     sample_entry 5 6 100 0 GRID_CACHE_INVALID] = (46, 10)
  /\ get_statistics
       [sample_entry 1 2 100 7 GRID_CACHE_VALID; sample_entry 3 4 100 0 GRID_CACHE_DISKWAIT]
     = (109, 3)
  /\ get_statistics [sample_entry 1 2 100 0 GRID_CACHE_INVALID] = (0, 0).
Proof.
  split; [| split].
  - apply (proj2 (proj2 (proj2 (get_statistics_sums_contributions _)))
             [sample_entry 1 2 100 0 GRID_CACHE_INVALID]
             (sample_entry 3 4 100 1023 GRID_CACHE_DIRTY)
             [sample_entry 5 6 100 0 GRID_CACHE_INVALID]).
    + reflexivity.
    + repeat constructor.
    + repeat constructor.
    + reflexivity.
    + reflexivity.
  - apply (proj1 (proj2 (get_statistics_sums_contributions
             [sample_entry 1 2 100 7 GRID_CACHE_VALID; sample_entry 3 4 100 0 GRID_CACHE_DISKWAIT]))).
    + simpl. lia.
    + repeat constructor; vm_compute; discriminate.
  - apply (proj1 (proj2 (proj2 (get_statistics_sums_contributions _)))).
    repeat constructor.
Defined.

(** ** The tile matrix *)

Lemma cell_height_set (h : list (list Z)) (i j v : Z) (i' j' : nat) :
  cell (height_set h i j v) i' j'
  = if decide (Z.to_nat i = i' /\ Z.to_nat j = j')
    then _ ← cell h i' j'; Some v
    else cell h i' j'.
Proof.
  unfold cell, height_set. rewrite list_lookup_alter.
  destruct (decide (Z.to_nat i = i')) as [<- | Hi].
  - destruct (h !! Z.to_nat i) as [row |]; simpl.
    + rewrite list_lookup_insert.
      destruct (decide (Z.to_nat j = j')) as [<- | Hj].
      * destruct (decide (Z.to_nat j < length row)%nat) as [Hlt | Hge].
        -- destruct (lookup_lt_is_Some_2 row _ Hlt) as [old ->].
           rewrite !decide_True by tauto. reflexivity.
        -- rewrite (lookup_ge_None_2 row (Z.to_nat j)) by lia.
           rewrite decide_False by tauto. rewrite decide_True by tauto. reflexivity.
      * rewrite !decide_False by tauto. reflexivity.
    + destruct (decide _); reflexivity.
  - rewrite decide_False by tauto. reflexivity.
Qed.

Lemma length_height_set (h : list (list Z)) (i j v : Z) :
  length (height_set h i j v) = length h.
Proof. unfold height_set. apply length_alter. Qed.

Lemma length_apply_writes (ws : list (Z * Z * Z)) (h : list (list Z)) :
  length (apply_writes h ws) = length h.
Proof.
  revert h. induction ws as [| w ws IH]; intros h; [reflexivity |].
  unfold apply_writes in *. cbn [foldl]. rewrite IH. apply length_height_set.
Qed.

Lemma cell_apply_writes (ws : list (Z * Z * Z)) (h : list (list Z)) (i j : nat) :
  cell (apply_writes h ws) i j
  = match last_write ws i j with
    | Some v => _ ← cell h i j; Some v
    | None => cell h i j
    end.
Proof.
  revert h. induction ws as [| w ws IH]; intros h; [reflexivity |].
  unfold apply_writes in *. cbn [foldl last_write]. rewrite IH, cell_height_set.
  destruct (last_write ws i j) as [v |];
    destruct (decide _); destruct (cell h i j); reflexivity.
Qed.

Lemma matrix_ext (h1 h2 : list (list Z)) :
  length h1 = length h2 ->
  (forall i j, cell h1 i j = cell h2 i j) ->
  h1 = h2.
Proof.
  intros Hlen Hcell. apply list_eq. intros i.
  destruct (h1 !! i) as [r1 |] eqn:E1; destruct (h2 !! i) as [r2 |] eqn:E2.
  - f_equal. apply list_eq. intros j. specialize (Hcell i j).
    unfold cell in Hcell. rewrite E1, E2 in Hcell. exact Hcell.
  - apply lookup_lt_Some in E1. apply lookup_ge_None in E2. lia.
  - apply lookup_ge_None in E1. apply lookup_lt_Some in E2. lia.
  - reflexivity.
Qed.

Lemma cell_wf (h : list (list Z)) (i j : nat) :
  matrix_wf h ->
  (i < Z.to_nat TERRAIN_GRID_BLOCK_SIZE_X)%nat ->
  (j < Z.to_nat TERRAIN_GRID_BLOCK_SIZE_Y)%nat ->
  is_Some (cell h i j).
Proof.
  intros [Hlen Hrows] Hi Hj. unfold cell.
  destruct (lookup_lt_is_Some_2 h i) as [row Hrow]; [lia |].
  rewrite Hrow. simpl. apply lookup_lt_is_Some_2.
  rewrite Forall_lookup in Hrows. rewrite (Hrows i row Hrow). exact Hj.
Qed.

Lemma write_chunk_writes (h : list (list Z)) (idx_x idx_y : Z) (data : list Z) :
  write_chunk h idx_x idx_y data = apply_writes h (chunk_writes idx_x idx_y data).
Proof. reflexivity. Qed.

Lemma write_chunk_idem (h : list (list Z)) (idx_x idx_y : Z) (data : list Z) :
  write_chunk (write_chunk h idx_x idx_y data) idx_x idx_y data
  = write_chunk h idx_x idx_y data.
Proof.
  rewrite !write_chunk_writes. apply matrix_ext.
  - rewrite !length_apply_writes. reflexivity.
  - intros i j. rewrite !cell_apply_writes.
    destruct (last_write _ i j); destruct (cell h i j); reflexivity.
Qed.

(** Which cell the chunk loops leave with which sample. *)
Lemma last_write_chunk (idx_x idx_y : Z) (data : list Z) (i j : nat) :
  0 <= idx_x -> 0 <= idx_y ->
  last_write (chunk_writes idx_x idx_y data) i j
  = if decide (idx_x <= Z.of_nat i < idx_x + 4 /\ idx_y <= Z.of_nat j < idx_y + 4)
    then Some (data_at data ((Z.of_nat i - idx_x) * 4 + (Z.of_nat j - idx_y)))
    else None.
Proof.
  intros Hx Hy.
  assert (Hws : chunk_writes idx_x idx_y data
    = [(idx_x + 0, idx_y + 0, data_at data 0); (idx_x + 0, idx_y + 1, data_at data 1);
       (idx_x + 0, idx_y + 2, data_at data 2); (idx_x + 0, idx_y + 3, data_at data 3);
       (idx_x + 1, idx_y + 0, data_at data 4); (idx_x + 1, idx_y + 1, data_at data 5);
       (idx_x + 1, idx_y + 2, data_at data 6); (idx_x + 1, idx_y + 3, data_at data 7);
       (idx_x + 2, idx_y + 0, data_at data 8); (idx_x + 2, idx_y + 1, data_at data 9);
       (idx_x + 2, idx_y + 2, data_at data 10); (idx_x + 2, idx_y + 3, data_at data 11);
       (idx_x + 3, idx_y + 0, data_at data 12); (idx_x + 3, idx_y + 1, data_at data 13);
       (idx_x + 3, idx_y + 2, data_at data 14); (idx_x + 3, idx_y + 3, data_at data 15)])
    by reflexivity.
  rewrite Hws. clear Hws.
  cbn [last_write fst snd].
  destruct (decide (idx_x <= Z.of_nat i < idx_x + 4 /\ idx_y <= Z.of_nat j < idx_y + 4))
    as [[Hi Hj] | Hout].
  - assert (Hdx : Z.of_nat i - idx_x = 0 \/ Z.of_nat i - idx_x = 1
                  \/ Z.of_nat i - idx_x = 2 \/ Z.of_nat i - idx_x = 3) by lia.
    assert (Hdy : Z.of_nat j - idx_y = 0 \/ Z.of_nat j - idx_y = 1
                  \/ Z.of_nat j - idx_y = 2 \/ Z.of_nat j - idx_y = 3) by lia.
    destruct Hdx as [Hdx | [Hdx | [Hdx | Hdx]]];
      destruct Hdy as [Hdy | [Hdy | [Hdy | Hdy]]];
      rewrite Hdx, Hdy; clear Hi Hj;
      repeat first [rewrite decide_True by lia | rewrite decide_False by lia];
      reflexivity.
  - repeat rewrite decide_False by lia. reflexivity.
Qed.

(** ** Ingestion of TERRAIN_DATA *)

Lemma scan_cache_le (p : mavlink_terrain_data_t) (tbl : list grid_cache) :
  (scan_cache p tbl <= length tbl)%nat.
Proof.
  induction tbl as [| c tbl IH]; simpl; [lia |].
  destruct (packet_matches p c); simpl; lia.
Qed.

Lemma scan_cache_found (p : mavlink_terrain_data_t) (tbl : list grid_cache) (c : grid_cache) :
  tbl !! scan_cache p tbl = Some c -> packet_matches p c = true.
Proof.
  induction tbl as [| c0 tbl IH]; simpl; [discriminate |].
  destruct (packet_matches p c0) eqn:E; simpl.
  - intros [= <-]. exact E.
  - exact IH.
Qed.

Lemma scan_cache_gridbit (p : mavlink_terrain_data_t) (tbl : list grid_cache) :
  56 <= td_gridbit p -> scan_cache p tbl = length tbl.
Proof.
  intros Hbit. induction tbl as [| c tbl IH]; simpl; [reflexivity |].
  unfold packet_matches. rewrite (bool_decide_eq_false_2 (td_gridbit p < 56)) by lia.
  rewrite andb_false_r. rewrite IH. reflexivity.
Qed.

Lemma packet_matches_spec (p : mavlink_terrain_data_t) (c : grid_cache) :
  packet_matches p c = true
  <-> address c = (td_lat p, td_lon p, td_grid_spacing p) /\ td_gridbit p < 56.
Proof.
  unfold packet_matches, address.
  rewrite !andb_true_iff, !bool_decide_eq_true. split.
  - intros [[[-> ->] ->] Hb]. split; [reflexivity | exact Hb].
  - intros [[= -> -> ->] Hb]. tauto.
Qed.

Lemma packet_matches_address (p : mavlink_terrain_data_t) (c1 c2 : grid_cache) :
  address c1 = address c2 -> packet_matches p c1 = packet_matches p c2.
Proof.
  unfold address, packet_matches. intros [= -> -> ->]. reflexivity.
Qed.

Lemma scan_cache_address (p : mavlink_terrain_data_t) (tbl1 tbl2 : list grid_cache) :
  address <$> tbl1 = address <$> tbl2 -> scan_cache p tbl1 = scan_cache p tbl2.
Proof.
  revert tbl2. induction tbl1 as [| c1 tbl1 IH]; intros [| c2 tbl2]; simpl;
    try discriminate; [reflexivity |].
  intros Heq. apply (f_equal head) in Heq as Hc. apply (f_equal tail) in Heq as Htl.
  simpl in Hc, Htl. assert (Hc' : address c1 = address c2) by congruence. clear Hc.
  rename Hc' into Hc.
  rewrite (packet_matches_address p c1 c2 Hc).
  destruct (packet_matches p c2); [reflexivity |]. f_equal. apply IH. exact Htl.
Qed.


Lemma idx_bounds (p : mavlink_terrain_data_t) :
  0 <= td_gridbit p < 56 ->
  idx_x_of p = td_gridbit p / 8 * 4 /\ idx_y_of p = td_gridbit p mod 8 * 4
  /\ 0 <= idx_x_of p <= 24 /\ 0 <= idx_y_of p <= 28.
Proof.
  intros Hb. unfold idx_x_of, idx_y_of, uint8.
  change TERRAIN_GRID_BLOCK_MUL_Y with 8. change TERRAIN_GRID_MAVLINK_SIZE with 4.
  assert (0 <= td_gridbit p / 8 <= 6) by (Z.div_mod_to_equations; lia).
  assert (0 <= td_gridbit p mod 8 <= 7) by (Z.div_mod_to_equations; lia).
  rewrite !wrap_small by (change (2 ^ 8) with 256; lia). lia.
Qed.

(** The bit set by a packet. *)
Lemma ingested_bit (b g : Z) :
  0 <= g < 64 ->
  Z.testbit (uint64 (Z.lor b (uint64 (Z.shiftl 1 g)))) g = true.
Proof.
  intros Hg. unfold uint64. rewrite wrap_testbit, Z.lor_spec, wrap_testbit by lia.
  rewrite Z.shiftl_spec, Z.sub_diag by lia.
  destruct (Z.ltb_spec g 64); [| lia]. simpl. apply orb_true_r.
Qed.

Lemma ingested_bitmap_lor (b g : Z) :
  0 <= b < 2 ^ 64 -> 0 <= g < 64 ->
  uint64 (Z.lor b (uint64 (Z.shiftl 1 g))) = Z.lor b (Z.shiftl 1 g)
  /\ 0 <= Z.lor b (Z.shiftl 1 g) < 2 ^ 64.
Proof.
  intros Hb Hg.
  assert (Heq : uint64 (Z.lor b (uint64 (Z.shiftl 1 g))) = Z.lor b (Z.shiftl 1 g)).
  { apply Z.bits_inj'. intros i Hi. unfold uint64.
    rewrite wrap_testbit, !Z.lor_spec, wrap_testbit by lia.
    destruct (Z.ltb_spec i 64) as [Hlt | Hge]; simpl; [reflexivity |].
    rewrite <- (wrap_small 64 b Hb) at 1. rewrite wrap_testbit by lia.
    destruct (Z.ltb_spec i 64); [lia |]. simpl.
    rewrite Z.shiftl_spec by lia. symmetry.
    change 1 with (2 ^ 0). apply Z.pow2_bits_false. lia. }
  split; [exact Heq |]. rewrite <- Heq. apply wrap_range. lia.
Qed.

Lemma ingested_bitmap_idem (b g : Z) :
  uint64 (Z.lor (uint64 (Z.lor b (uint64 (Z.shiftl 1 g)))) (uint64 (Z.shiftl 1 g)))
  = uint64 (Z.lor b (uint64 (Z.shiftl 1 g))).
Proof.
  apply Z.bits_inj'. intros i Hi. unfold uint64.
  rewrite !wrap_testbit, !Z.lor_spec, !wrap_testbit, !Z.lor_spec, !wrap_testbit by lia.
  destruct (i <? 64); destruct (Z.testbit b i); destruct (Z.testbit (Z.shiftl 1 g) i);
    reflexivity.
Qed.

Lemma apply_terrain_data_idem (p : mavlink_terrain_data_t) (c : grid_cache) :
  apply_terrain_data p (apply_terrain_data p c) = apply_terrain_data p c.
Proof.
  unfold apply_terrain_data, ASSERT_RANGE. cbn [grid lat lon spacing bitmap height].
  rewrite write_chunk_idem, ingested_bitmap_idem. reflexivity.
Qed.

Lemma chunk_writes_in_bounds (idx_x idx_y : Z) (data : list Z) (w : Z * Z * Z) :
  0 <= idx_x <= 24 -> 0 <= idx_y <= 28 ->
  w ∈ chunk_writes idx_x idx_y data ->
  0 <= fst (fst w) < TERRAIN_GRID_BLOCK_SIZE_X /\ 0 <= snd (fst w) < TERRAIN_GRID_BLOCK_SIZE_Y.
Proof.
  intros Hx Hy. unfold chunk_writes.
  rewrite list_elem_of_bind. intros (x & Hw & Hxin).
  rewrite list_elem_of_bind in Hw. destruct Hw as (y & Hw & Hyin).
  rewrite list_elem_of_singleton in Hw. subst w.
  rewrite elem_of_seqZ in Hxin, Hyin. cbn [fst snd].
  change TERRAIN_GRID_MAVLINK_SIZE with 4 in *.
  change TERRAIN_GRID_BLOCK_SIZE_X with 28. change TERRAIN_GRID_BLOCK_SIZE_Y with 32. lia.
Qed.

Section Ingestion.
Context `{C : Collaborators}.

Lemma handle_terrain_data_eq (p : mavlink_terrain_data_t) (t : AP_Terrain Other) :
  handle_terrain_data p t
  = if decide (scan_cache p (cache t) = length (cache t))
    then (tt, t, [])
    else (tt, update (ingested p t), []).
Proof.
  unfold handle_terrain_data, ingested, bind, gets, modify, ret.
  destruct (decide _); reflexivity.
Qed.

Lemma handle_terrain_data_found (p : mavlink_terrain_data_t) (t : AP_Terrain Other) (c : grid_cache) :
  cache t !! scan_cache p (cache t) = Some c ->
  handle_terrain_data p t = (tt, update (ingested p t), [])
  /\ cache (ingested p t) !! scan_cache p (cache t) = Some (apply_terrain_data p c)
  /\ (forall j, j <> scan_cache p (cache t) -> cache (ingested p t) !! j = cache t !! j).
Proof.
  intros Hc. rewrite handle_terrain_data_eq.
  apply lookup_lt_Some in Hc as Hlt. rewrite decide_False by lia.
  split; [reflexivity |]. unfold ingested. cbn [cache set_cache]. split.
  - rewrite list_lookup_alter_eq, Hc. reflexivity.
  - intros j Hj. apply list_lookup_alter_ne. congruence.
Qed.

Lemma handle_terrain_data_discard (p : mavlink_terrain_data_t) (t : AP_Terrain Other) :
  scan_cache p (cache t) = length (cache t) -> handle_terrain_data p t = (tt, t, []).
Proof. intros Hn. rewrite handle_terrain_data_eq, decide_True by exact Hn. reflexivity. Qed.

(** C1. A payload whose chunk index is 56 or more (the index is a [uint8_t],
    so this is every value outside [0, 56)) is discarded: the object, hence
    every tile's bitmap, matrix and state, is returned as it was and nothing
    is sent.  For a chunk index in [0, 56) the offsets [idx_x], [idx_y] satisfy
    the two range assertions, and each of the sixteen writes of the loops
    lands inside the 28 x 32 matrix and reads inside the 16 samples. *)
Theorem bad_chunk_index_discarded_and_writes_in_bounds
  (packet : mavlink_terrain_data_t) (t : AP_Terrain Other) :
  (56 <= td_gridbit packet -> handle_terrain_data packet t = (tt, t, []))
  /\ (0 <= td_gridbit packet < 56 ->
      0 <= idx_x_of packet <= (TERRAIN_GRID_BLOCK_MUL_X - 1) * TERRAIN_GRID_MAVLINK_SIZE
      /\ 0 <= idx_y_of packet <= (TERRAIN_GRID_BLOCK_MUL_Y - 1) * TERRAIN_GRID_MAVLINK_SIZE
      /\ (forall x y,
            0 <= x < TERRAIN_GRID_MAVLINK_SIZE -> 0 <= y < TERRAIN_GRID_MAVLINK_SIZE ->
            0 <= idx_x_of packet + x < TERRAIN_GRID_BLOCK_SIZE_X
            /\ 0 <= idx_y_of packet + y < TERRAIN_GRID_BLOCK_SIZE_Y
            /\ 0 <= x * TERRAIN_GRID_MAVLINK_SIZE + y < 16)
      /\ (forall h w,
            w ∈ chunk_writes (idx_x_of packet) (idx_y_of packet) (td_data packet) ->
            write_chunk h (idx_x_of packet) (idx_y_of packet) (td_data packet)
            = apply_writes h (chunk_writes (idx_x_of packet) (idx_y_of packet) (td_data packet))
            /\ 0 <= fst (fst w) < TERRAIN_GRID_BLOCK_SIZE_X
            /\ 0 <= snd (fst w) < TERRAIN_GRID_BLOCK_SIZE_Y)).
Proof.
  split.
  - intros Hbit. apply handle_terrain_data_discard. apply scan_cache_gridbit. exact Hbit.
  - intros Hbit. destruct (idx_bounds packet Hbit) as (_ & _ & Hx & Hy).
    change TERRAIN_GRID_MAVLINK_SIZE with 4. change TERRAIN_GRID_BLOCK_MUL_X with 7.
    change TERRAIN_GRID_BLOCK_MUL_Y with 8. change TERRAIN_GRID_BLOCK_SIZE_X with 28.
    change TERRAIN_GRID_BLOCK_SIZE_Y with 32.
    split; [lia |]. split; [lia |]. split.
    + intros x y Hxr Hyr. lia.
    + intros h w Hw. split; [apply write_chunk_writes |].
      apply (chunk_writes_in_bounds _ _ _ w Hx Hy Hw).
Qed.

(** C2, as the code has it.  A payload that finds its entry (address equal,
    chunk index below 56) sets the state of that entry to Dirty whatever the
    state was and whether or not the bit was already set, and leaves every
    other entry as it was, before the housekeeping hook [update] runs; a
    payload that finds no entry changes nothing. *)
Theorem ingestion_sets_entry_dirty
  (packet : mavlink_terrain_data_t) (t : AP_Terrain Other) :
  (scan_cache packet (cache t) = length (cache t) ->
   handle_terrain_data packet t = (tt, t, []))
  /\ (forall c,
        cache t !! scan_cache packet (cache t) = Some c ->
        handle_terrain_data packet t = (tt, update (ingested packet t), [])
        /\ state <$> cache (ingested packet t) !! scan_cache packet (cache t)
           = Some GRID_CACHE_DIRTY
        /\ (forall j, j <> scan_cache packet (cache t) ->
              cache (ingested packet t) !! j = cache t !! j)).
Proof.
  split; [apply handle_terrain_data_discard |].
  intros c Hc. destruct (handle_terrain_data_found packet t c Hc) as (Heq & Hi & Hj).
  split; [exact Heq |]. split; [| exact Hj]. rewrite Hi. reflexivity.
Qed.

(** C10. For a payload that finds its entry, every one of the 4 x 4 samples
    is in the matrix afterwards at its cell, exactly as received, the bit of
    the chunk is set and the entry is Dirty.  No hypothesis bounds the
    samples: values outside 1..20000 are stored like any other. *)
Theorem samples_stored_verbatim
  (packet : mavlink_terrain_data_t) (t : AP_Terrain Other) (c : grid_cache) :
  cache t !! scan_cache packet (cache t) = Some c ->
  0 <= td_gridbit packet ->
  matrix_wf (height (grid c)) ->
  exists c',
    handle_terrain_data packet t = (tt, update (ingested packet t), [])
    /\ cache (ingested packet t) !! scan_cache packet (cache t) = Some c'
    /\ (forall x y,
          0 <= x < TERRAIN_GRID_MAVLINK_SIZE -> 0 <= y < TERRAIN_GRID_MAVLINK_SIZE ->
          cell (height (grid c')) (Z.to_nat (idx_x_of packet + x)) (Z.to_nat (idx_y_of packet + y))
          = Some (data_at (td_data packet) (x * TERRAIN_GRID_MAVLINK_SIZE + y)))
    /\ (forall i j,
          ~ (idx_x_of packet <= Z.of_nat i < idx_x_of packet + TERRAIN_GRID_MAVLINK_SIZE
             /\ idx_y_of packet <= Z.of_nat j < idx_y_of packet + TERRAIN_GRID_MAVLINK_SIZE) ->
          cell (height (grid c')) i j = cell (height (grid c)) i j)
    /\ Z.testbit (bitmap (grid c')) (td_gridbit packet) = true
    /\ state c' = GRID_CACHE_DIRTY.
Proof.
  intros Hc Hbit0 Hwf.
  destruct (handle_terrain_data_found packet t c Hc) as (Heq & Hi & _).
  assert (Hbit : 0 <= td_gridbit packet < 56).
  { apply scan_cache_found in Hc. apply packet_matches_spec in Hc. lia. }
  destruct (idx_bounds packet Hbit) as (_ & _ & Hx & Hy).
  exists (apply_terrain_data packet c). split; [exact Heq |]. split; [exact Hi |].
  unfold apply_terrain_data, ASSERT_RANGE. cbn [grid height bitmap state].
  change TERRAIN_GRID_MAVLINK_SIZE with 4.
  split; [| split; [| split]].
  - intros x y Hxr Hyr. rewrite write_chunk_writes, cell_apply_writes.
    rewrite last_write_chunk by lia. rewrite decide_True by lia.
    destruct (cell_wf (height (grid c)) (Z.to_nat (idx_x_of packet + x))
                (Z.to_nat (idx_y_of packet + y)) Hwf) as [old ->].
    + change TERRAIN_GRID_BLOCK_SIZE_X with 28. lia.
    + change TERRAIN_GRID_BLOCK_SIZE_Y with 32. lia.
    + simpl. do 2 f_equal. lia.
  - intros i j Hout. rewrite write_chunk_writes, cell_apply_writes.
    rewrite last_write_chunk by lia. rewrite decide_False by exact Hout. reflexivity.
  - apply ingested_bit. lia.
  - reflexivity.
Qed.

End Ingestion.

(** ** Sequences of payloads *)

Lemma union_bits_perm (ps ps' : list mavlink_terrain_data_t) :
  ps ≡ₚ ps' -> union_bits ps = union_bits ps'.
Proof.
  induction 1 as [| p l l' _ IH | p q l | l1 l2 l3 _ IH1 _ IH2]; cbn [union_bits foldr].
  - reflexivity.
  - fold (union_bits l). fold (union_bits l'). rewrite IH. reflexivity.
  - fold (union_bits l). rewrite !Z.lor_assoc, (Z.lor_comm (chunk_bit q)). reflexivity.
  - congruence.
Qed.

Lemma grid_apply_terrain_data (p : mavlink_terrain_data_t) (c : grid_cache) :
  grid (apply_terrain_data p c) = grid_after p (grid c).
Proof. destruct c. reflexivity. Qed.

Lemma grid_after_idem (p : mavlink_terrain_data_t) (g : grid_block) :
  grid_after p (grid_after p g) = grid_after p g.
Proof.
  unfold grid_after, apply_terrain_data, ASSERT_RANGE.
  cbn [grid lat lon spacing bitmap height].
  rewrite write_chunk_idem, ingested_bitmap_idem. reflexivity.
Qed.

Lemma address_of_grids (tbl1 tbl2 : list grid_cache) :
  grid <$> tbl1 = grid <$> tbl2 -> address <$> tbl1 = address <$> tbl2.
Proof.
  intros Heq.
  change address with ((fun g => (lat g, lon g, spacing g)) ∘ grid).
  rewrite !list_fmap_compose, Heq. reflexivity.
Qed.

Lemma fmap_grid_alter (p : mavlink_terrain_data_t) (i : nat) (tbl : list grid_cache) :
  grid <$> alter (apply_terrain_data p) i tbl = alter (grid_after p) i (grid <$> tbl).
Proof.
  apply list_fmap_alter. apply Forall_forall. intros c _. apply grid_apply_terrain_data.
Qed.

Lemma address_alter (p : mavlink_terrain_data_t) (i : nat) (tbl : list grid_cache) :
  address <$> alter (apply_terrain_data p) i tbl = address <$> tbl.
Proof.
  rewrite (list_fmap_alter address (apply_terrain_data p) id).
  - apply list_alter_id. reflexivity.
  - apply Forall_forall. intros c _. reflexivity.
Qed.

Section Sequences.
Context `{C : Collaborators}.
Hypothesis update_keeps_grids : keeps_grids update.

Lemma grids_after_packet (p : mavlink_terrain_data_t) (t : AP_Terrain Other) :
  grid <$> cache (obj_after (handle_terrain_data p t))
  = if decide (scan_cache p (cache t) = length (cache t))
    then grid <$> cache t
    else alter (grid_after p) (scan_cache p (cache t)) (grid <$> cache t).
Proof.
  rewrite handle_terrain_data_eq. destruct (decide _) as [Hn | Hn]; [reflexivity |].
  unfold obj_after. cbn [fst snd]. rewrite update_keeps_grids.
  unfold ingested. cbn [cache set_cache]. apply fmap_grid_alter.
Qed.

Lemma addresses_after_packet (p : mavlink_terrain_data_t) (t : AP_Terrain Other) :
  address <$> cache (obj_after (handle_terrain_data p t)) = address <$> cache t.
Proof.
  rewrite handle_terrain_data_eq. destruct (decide _) as [Hn | Hn]; [reflexivity |].
  unfold obj_after. cbn [fst snd].
  rewrite (address_of_grids _ _ (update_keeps_grids (ingested p t))).
  unfold ingested. cbn [cache set_cache]. apply address_alter.
Qed.

Lemma deliver_twice (p : mavlink_terrain_data_t) (t : AP_Terrain Other) :
  grid <$> cache (deliver [p; p] t) = grid <$> cache (deliver [p] t).
Proof.
  unfold deliver. cbn [foldl].
  rewrite (grids_after_packet p (obj_after (handle_terrain_data p t))).
  rewrite (scan_cache_address p _ _ (addresses_after_packet p t)).
  assert (Hlen : length (cache (obj_after (handle_terrain_data p t))) = length (cache t)).
  { rewrite <- (length_fmap address), addresses_after_packet, length_fmap. reflexivity. }
  rewrite Hlen. destruct (decide _) as [Hn | Hn]; [reflexivity |].
  rewrite grids_after_packet, decide_False by exact Hn.
  rewrite list_alter_alter_eq. apply list_alter_ext; [| reflexivity].
  intros g _. apply grid_after_idem.
Qed.

Lemma bitmap_after_packet (p : mavlink_terrain_data_t) (t : AP_Terrain Other) (c : grid_cache) :
  cache t !! scan_cache p (cache t) = Some c ->
  0 <= bitmap (grid c) < 2 ^ 64 ->
  0 <= td_gridbit p ->
  exists c1,
    cache (obj_after (handle_terrain_data p t)) !! scan_cache p (cache t) = Some c1
    /\ bitmap (grid c1) = Z.lor (bitmap (grid c)) (chunk_bit p)
    /\ 0 <= bitmap (grid c1) < 2 ^ 64.
Proof.
  intros Hc Hb Hg.
  assert (Hbit : td_gridbit p < 56).
  { apply scan_cache_found in Hc. apply packet_matches_spec in Hc. lia. }
  pose proof (grids_after_packet p t) as Hgr.
  apply lookup_lt_Some in Hc as Hlt. rewrite decide_False in Hgr by lia.
  apply (f_equal (fun l => l !! scan_cache p (cache t))) in Hgr.
  rewrite list_lookup_fmap, list_lookup_alter_eq, list_lookup_fmap, Hc in Hgr.
  destruct (cache (obj_after (handle_terrain_data p t)) !! scan_cache p (cache t))
    as [c1 |]; [| discriminate].
  exists c1. split; [reflexivity |]. simpl in Hgr. injection Hgr as ->.
  unfold grid_after, apply_terrain_data, ASSERT_RANGE, chunk_bit. cbn [grid bitmap].
  destruct (ingested_bitmap_lor (bitmap (grid c)) (td_gridbit p)) as [Heq Hr]; [lia | lia |].
  rewrite Heq. split; [reflexivity | exact Hr].
Qed.

Lemma deliver_bitmap (ps : list mavlink_terrain_data_t) (t : AP_Terrain Other)
  (i : nat) (c0 : grid_cache) :
  cache t !! i = Some c0 ->
  0 <= bitmap (grid c0) < 2 ^ 64 ->
  Forall (fun p => scan_cache p (cache t) = i /\ 0 <= td_gridbit p) ps ->
  bitmap_at i (deliver ps t) = Some (Z.lor (bitmap (grid c0)) (union_bits ps)).
Proof.
  revert t c0. induction ps as [| p ps IH]; intros t c0 Hc Hb Hall.
  - unfold bitmap_at, deliver. cbn [foldl union_bits foldr]. rewrite Hc, Z.lor_0_r. reflexivity.
  - apply Forall_cons in Hall as [[Hi Hg] Hall]. subst i.
    destruct (bitmap_after_packet p t c0 Hc Hb Hg) as (c1 & Hc1 & Hb1 & Hr1).
    unfold deliver. cbn [foldl]. fold (deliver ps (obj_after (handle_terrain_data p t))).
    rewrite (IH _ c1 Hc1 Hr1).
    + cbn [union_bits foldr]. fold (union_bits ps). rewrite Hb1, Z.lor_assoc. reflexivity.
    + eapply Forall_impl; [exact Hall |]. intros q [Hq Hgq]. split; [| exact Hgq].
      rewrite <- Hq. apply scan_cache_address. apply addresses_after_packet.
Qed.

(** C7. Payloads that all find the same entry (same address, chunk index in
    [0, 56)), delivered in any order to a tile whose content the housekeeping
    hook leaves alone, end with the bitmap being the union of the bitmap
    before and of the bits of their chunk indices: so any two orders of
    delivery give the same bitmap.  Delivering a payload a second time right
    after the first changes neither the bitmap nor the matrix of any tile. *)
Theorem ingestion_bitmap_union_any_order
  (t : AP_Terrain Other) (i : nat) (c0 : grid_cache) (ps : list mavlink_terrain_data_t) :
  cache t !! i = Some c0 ->
  0 <= bitmap (grid c0) < 2 ^ 64 ->
  Forall (fun p => scan_cache p (cache t) = i /\ 0 <= td_gridbit p) ps ->
  bitmap_at i (deliver ps t) = Some (Z.lor (bitmap (grid c0)) (union_bits ps))
  /\ (bitmap (grid c0) = 0 -> bitmap_at i (deliver ps t) = Some (union_bits ps))
  /\ (forall ps', ps' ≡ₚ ps -> bitmap_at i (deliver ps' t) = bitmap_at i (deliver ps t))
  /\ (forall p, grid <$> cache (deliver [p; p] t) = grid <$> cache (deliver [p] t)).
Proof.
  intros Hc Hb Hall.
  pose proof (deliver_bitmap ps t i c0 Hc Hb Hall) as Hps.
  split; [exact Hps |]. split; [| split].
  - intros Hz. rewrite Hps, Hz, Z.lor_0_l. reflexivity.
  - intros ps' Hperm. rewrite Hps.
    rewrite (deliver_bitmap ps' t i c0 Hc Hb).
    + rewrite (union_bits_perm ps' ps Hperm). reflexivity.
    + rewrite Hperm. exact Hall.
  - intros p. apply deliver_twice.
Qed.

End Sequences.

(** ** Requests *)

Section Scheduler.
Context `{C : Collaborators}.

Lemma run_bind {A B : Type} (m : M A) (k : A -> M B) (t : AP_Terrain Other) :
  bind m k t
  = (result (k (result (m t)) (obj_after (m t))),
     obj_after (k (result (m t)) (obj_after (m t))),
     sent (m t) ++ sent (k (result (m t)) (obj_after (m t)))).
Proof.
  unfold bind, result, obj_after, sent.
  destruct (m t) as [[a t1] o1]. cbn [fst snd].
  destruct (k a t1) as [[b t2] o2]. reflexivity.
Qed.

Lemma run_eta {A : Type} (r : A * AP_Terrain Other * list (mavlink_out F)) :
  r = (result r, obj_after r, sent r).
Proof. destruct r as [[a t] o]. reflexivity. Qed.


Lemma request_missing_eq (now chan : Z) (c : grid_cache) (t : AP_Terrain Other) :
  request_missing now chan c t
  = if decide (state c = GRID_CACHE_DISKWAIT) then (false, t, [])
    else if decide (Z.land (bitmap (grid c)) bitmap_mask = bitmap_mask) then (false, t, [])
    else (true, set_last_request_time_ms now t,
          [TERRAIN_REQUEST chan (lat (grid c)) (lon (grid c)) (uint16 (grid_spacing t))
             (Z.land bitmap_mask (not64 (bitmap (grid c))))]).
Proof.
  unfold request_missing. destruct (decide _); [reflexivity |].
  destruct (decide _); reflexivity.
Qed.

Lemma missing_mask_bits (b k : Z) :
  0 <= k ->
  Z.testbit (Z.land bitmap_mask (not64 b)) k = (k <? 56) && negb (Z.testbit b k).
Proof.
  intros Hk. change bitmap_mask with (Z.ones 56). unfold not64, uint64.
  rewrite Z.land_spec, Z.testbit_ones, wrap_testbit, Z.lnot_spec by lia.
  destruct (Z.leb_spec 0 k); [| lia].
  destruct (Z.ltb_spec k 56); destruct (Z.ltb_spec k 64); try lia; reflexivity.
Qed.

(** C5, as the code has it.  [request_missing] answers "nothing to do",
    sending nothing and leaving the object as it is, exactly when the entry
    is in DiskWait or its bitmap covers the full mask.  Otherwise it sends
    one request that carries the latitude and longitude of the entry, the
    configured grid spacing of the subsystem (not the spacing stored in the
    entry) and the mask of the missing chunks, sets the pacing timestamp to
    the current time and answers "request sent".  An entry whose bitmap is
    the full mask gets "nothing to do" at every call. *)
Theorem request_missing_sends_missing_mask
  (now chan : Z) (c : grid_cache) (t : AP_Terrain Other) :
  (state c = GRID_CACHE_DISKWAIT \/ Z.land (bitmap (grid c)) bitmap_mask = bitmap_mask ->
   request_missing now chan c t = (false, t, []))
  /\ (~ (state c = GRID_CACHE_DISKWAIT \/ Z.land (bitmap (grid c)) bitmap_mask = bitmap_mask) ->
      request_missing now chan c t
      = (true, set_last_request_time_ms now t,
         [TERRAIN_REQUEST chan (lat (grid c)) (lon (grid c)) (uint16 (grid_spacing t))
            (Z.land bitmap_mask (not64 (bitmap (grid c))))])
      /\ last_request_time_ms (obj_after (request_missing now chan c t)) = now)
  /\ (result (request_missing now chan c t) = false
      <-> state c = GRID_CACHE_DISKWAIT \/ Z.land (bitmap (grid c)) bitmap_mask = bitmap_mask)
  /\ (bitmap (grid c) = bitmap_mask ->
      forall now' chan' t', request_missing now' chan' c t' = (false, t', []))
  /\ (forall k, 0 <= k ->
        Z.testbit (Z.land bitmap_mask (not64 (bitmap (grid c)))) k
        = (k <? 56) && negb (Z.testbit (bitmap (grid c)) k)).
Proof.
  split; [| split; [| split; [| split]]].
  - intros Hs. rewrite request_missing_eq.
    destruct (decide _); [reflexivity |]. destruct (decide _); [reflexivity | tauto].
  - intros Hs. rewrite request_missing_eq.
    rewrite decide_False by tauto. rewrite decide_False by tauto. split; reflexivity.
  - rewrite request_missing_eq.
    destruct (decide _) as [Hd | Hd]; [simpl; tauto |].
    destruct (decide _) as [Hf | Hf]; [simpl; tauto |].
    simpl. split; [discriminate | tauto].
  - intros Hfull now' chan' t'. rewrite request_missing_eq.
    destruct (decide _); [reflexivity |]. rewrite decide_True; [reflexivity |].
    rewrite Hfull. apply Z.land_diag.
  - intros k Hk. apply missing_mask_bits. exact Hk.
Qed.

(** *** Loops that stop at the first request *)

Lemma for_until_cons {A : Type} (x : A) (rest : list A) (body : A -> M bool)
  (t : AP_Terrain Other) :
  for_until (x :: rest) body t
  = if result (body x t)
    then (true, obj_after (body x t), sent (body x t))
    else (result (for_until rest body (obj_after (body x t))),
          obj_after (for_until rest body (obj_after (body x t))),
          sent (body x t) ++ sent (for_until rest body (obj_after (body x t)))).
Proof.
  cbn [for_until]. rewrite run_bind.
  destruct (result (body x t)); [| reflexivity].
  unfold ret, result, obj_after, sent. cbn [fst snd]. rewrite app_nil_r. reflexivity.
Qed.

Lemma for_until_app {A : Type} (l1 l2 : list A) (body : A -> M bool) (t : AP_Terrain Other) :
  for_until (l1 ++ l2) body t
  = if result (for_until l1 body t)
    then for_until l1 body t
    else (result (for_until l2 body (obj_after (for_until l1 body t))),
          obj_after (for_until l2 body (obj_after (for_until l1 body t))),
          sent (for_until l1 body t) ++ sent (for_until l2 body (obj_after (for_until l1 body t)))).
Proof.
  revert t. induction l1 as [| x l1 IH]; intros t.
  - cbn [app for_until ret result obj_after sent fst snd]. apply run_eta.
  - cbn [app]. rewrite !for_until_cons.
    destruct (result (body x t)) eqn:Eb; [reflexivity |].
    rewrite IH. cbn [result obj_after sent fst snd].
    destruct (result (for_until l1 body (obj_after (body x t)))) eqn:El.
    + rewrite (run_eta (for_until l1 body (obj_after (body x t)))) at 1.
      rewrite El. cbn [result obj_after sent fst snd]. reflexivity.
    + cbn [result obj_after sent fst snd]. rewrite app_assoc. reflexivity.
Qed.

Lemma for_until_fmap {A B : Type} (f : A -> B) (l : list A) (body : B -> M bool)
  (t : AP_Terrain Other) :
  for_until (f <$> l) body t = for_until l (fun a => body (f a)) t.
Proof.
  revert t. induction l as [| a l IH]; intros t; [reflexivity |].
  cbn [fmap list_fmap]. rewrite !for_until_cons.
  destruct (result (body (f a) t)); [reflexivity |]. rewrite !IH. reflexivity.
Qed.

Lemma for_until_nested {A B : Type} (xs : list A) (ys : list B) (body : A -> B -> M bool)
  (t : AP_Terrain Other) :
  for_until xs (fun x => for_until ys (body x)) t
  = for_until (x ← xs; pair x <$> ys) (fun xy => body (fst xy) (snd xy)) t.
Proof.
  revert t. induction xs as [| x xs IH]; intros t; [reflexivity |].
  cbn [mbind list_bind]. rewrite for_until_cons, for_until_app, for_until_fmap.
  cbn [fst snd].
  change (fun a : B => body x a) with (body x).
  destruct (result (for_until ys (body x) t)) eqn:Ey.
  - rewrite (run_eta (for_until ys (body x) t)) at 3. rewrite Ey. reflexivity.
  - rewrite <- IH. reflexivity.
Qed.

Lemma for_until_stops {A : Type} (pre post : list A) (x : A) (body : A -> M bool)
  (t t1 t2 : AP_Terrain Other) (o1 o2 : list (mavlink_out F)) :
  for_until pre body t = (false, t1, o1) ->
  body x t1 = (true, t2, o2) ->
  for_until (pre ++ x :: post) body t = (true, t2, o1 ++ o2).
Proof.
  intros Hpre Hx. rewrite for_until_app, Hpre. cbn [result obj_after sent fst snd].
  rewrite for_until_cons, Hx. reflexivity.
Qed.

Lemma request_offset_eq (env : Env) (chan : Z) (loc : Location) (x y : Z) (t : AP_Terrain Other) :
  request_offset env chan loc x y t
  = request_missing_info (millis_issue env) chan
      (calculate_grid_info t
         (location_offset loc
            (F_mul (F_mul (F_of_int (x * TERRAIN_GRID_BLOCK_SIZE_X)) F_0_7)
               (F_of_int (grid_spacing t)))
            (F_mul (F_mul (F_of_int (y * TERRAIN_GRID_BLOCK_SIZE_Y)) F_0_7)
               (F_of_int (grid_spacing t))))) t.
Proof.
  unfold request_offset. rewrite !run_bind.
  cbn [gets result obj_after sent fst snd app]. symmetry. apply run_eta.
Qed.

Lemma request_larger_set_eq (env : Env) (chan : Z) (loc : Location) (t : AP_Terrain Other) :
  request_larger_set env chan loc t
  = for_until grid_3x3 (fun xy => request_offset env chan loc (fst xy) (snd xy)) t.
Proof. unfold request_larger_set. rewrite for_until_nested. reflexivity. Qed.

Lemma send_request_at_eq (env : Env) (chan : Z) (loc : Location) (t : AP_Terrain Other)
  (t1 : AP_Terrain Other) (o1 : list (mavlink_out F)) :
  request_missing_info (millis_issue env) chan (calculate_grid_info t loc) t = (false, t1, o1) ->
  send_request_at env chan loc t
  = let r :=
      bind (request_larger_set env chan loc) (fun b2 : bool =>
        if b2 then ret tt
        else bind (request_cache_blocks env chan) (fun b3 : bool =>
          if b3 then ret tt
          else bind (request_missing_info (millis_issue env) chan (calculate_grid_info t loc))
                 (fun b4 : bool => if b4 then ret tt else send_terrain_report env chan loc))) t1
    in (result r, obj_after r, o1 ++ sent r).
Proof.
  intros H1. unfold send_request_at.
  rewrite run_bind. cbn [gets result obj_after sent fst snd app].
  rewrite run_bind, H1. cbn [result obj_after sent fst snd]. reflexivity.
Qed.

Lemma send_request_eq (env : Env) (chan : Z) (t : AP_Terrain Other) :
  send_request env chan t
  = if decide (enable t = 0) then (tt, t, [])
    else if decide (uint32 (millis_entry env - last_request_time_ms (schedule_disk_io t)) < 2000)
    then (tt, schedule_disk_io t, [])
    else match get_position env with
         | None => (tt, schedule_disk_io t, [])
         | Some loc => send_request_at env chan loc (schedule_disk_io t)
         end.
Proof.
  unfold send_request. rewrite run_bind. cbn [gets result obj_after sent fst snd app].
  destruct (decide (enable t = 0)); [reflexivity |].
  rewrite run_bind. cbn [modify result obj_after sent fst snd app].
  rewrite run_bind. cbn [gets result obj_after sent fst snd app].
  destruct (decide _); [reflexivity |].
  destruct (get_position env); [| reflexivity].
  symmetry. apply run_eta.
Qed.

(** C3, as the code has it.  The fan-out step attempts [request_missing] for
    all nine offsets of the 3x3 grid, the centre (0, 0) included, in the
    order of the two nested loops (x outermost, y fastest), each at the
    location offset by x * 28 * 0.7 * spacing to the north and
    y * 32 * 0.7 * spacing to the east, and stops at the first attempt that
    issues a request.  In [send_request] it runs once the attempt for the
    current position has issued nothing. *)
Theorem larger_set_tries_all_nine_offsets
  (env : Env) (chan : Z) (loc : Location) (t : AP_Terrain Other) :
  request_larger_set env chan loc t
  = for_until grid_3x3 (fun xy => request_offset env chan loc (fst xy) (snd xy)) t
  /\ (forall x y t0,
        request_offset env chan loc x y t0
        = request_missing_info (millis_issue env) chan
            (calculate_grid_info t0
               (location_offset loc
                  (F_mul (F_mul (F_of_int (x * TERRAIN_GRID_BLOCK_SIZE_X)) F_0_7)
                     (F_of_int (grid_spacing t0)))
                  (F_mul (F_mul (F_of_int (y * TERRAIN_GRID_BLOCK_SIZE_Y)) F_0_7)
                     (F_of_int (grid_spacing t0))))) t0)
  /\ (forall pre xy post t1 o1 t2 o2,
        grid_3x3 = pre ++ xy :: post ->
        for_until pre (fun xy => request_offset env chan loc (fst xy) (snd xy)) t = (false, t1, o1) ->
        request_offset env chan loc (fst xy) (snd xy) t1 = (true, t2, o2) ->
        request_larger_set env chan loc t = (true, t2, o1 ++ o2))
  /\ (forall t0 o0 t2 o2,
        enable t0 <> 0 ->
        ~ uint32 (millis_entry env - last_request_time_ms (schedule_disk_io t0)) < 2000 ->
        get_position env = Some loc ->
        request_missing_info (millis_issue env) chan
          (calculate_grid_info (schedule_disk_io t0) loc) (schedule_disk_io t0) = (false, t, o0) ->
        request_larger_set env chan loc t = (true, t2, o2) ->
        send_request env chan t0 = (tt, t2, o0 ++ o2)).
Proof.
  split; [apply request_larger_set_eq |]. split; [| split].
  - intros x y t0. apply request_offset_eq.
  - intros pre xy post t1 o1 t2 o2 Hsplit Hpre Hxy.
    rewrite request_larger_set_eq, Hsplit. eapply for_until_stops; eassumption.
  - intros t0 o0 t2 o2 Hen Hpace Hpos H1 H2.
    rewrite send_request_eq. rewrite decide_False by exact Hen.
    rewrite decide_False by exact Hpace. rewrite Hpos.
    rewrite (send_request_at_eq env chan loc _ t o0 H1). cbv zeta.
    rewrite run_bind, H2. unfold ret. cbn [result obj_after sent fst snd].
    rewrite app_nil_r. reflexivity.
Qed.

(** *** At most one request per call *)

Lemma ios_ret_false (now : Z) : issues_or_silent now (ret false).
Proof. intros t. split; [reflexivity | discriminate]. Qed.

Lemma ios_request_missing (now chan : Z) (c : grid_cache) :
  issues_or_silent now (request_missing now chan c).
Proof.
  intros t. rewrite request_missing_eq.
  destruct (decide _); [split; [reflexivity | discriminate] |].
  destruct (decide _); [split; [reflexivity | discriminate] |].
  split; [discriminate |]. intros _. split; reflexivity.
Qed.

Lemma ios_bind_gets {A : Type} (now : Z) (f : AP_Terrain Other -> A) (k : A -> M bool) :
  (forall a, issues_or_silent now (k a)) -> issues_or_silent now (bind (gets f) k).
Proof.
  intros Hk t. rewrite run_bind. cbn [gets result obj_after sent fst snd app].
  apply Hk.
Qed.

Lemma ios_bind_call {A : Type} (now : Z) (f : AP_Terrain Other -> A * AP_Terrain Other)
  (k : A -> M bool) :
  (forall a, issues_or_silent now (k a)) -> issues_or_silent now (bind (call f) k).
Proof.
  intros Hk t. rewrite run_bind. unfold call. destruct (f t) as [a t1].
  cbn [result obj_after sent fst snd app]. apply Hk.
Qed.

Lemma ios_for_until {A : Type} (now : Z) (xs : list A) (body : A -> M bool) :
  (forall x, issues_or_silent now (body x)) -> issues_or_silent now (for_until xs body).
Proof.
  intros Hb. induction xs as [| x xs IH]; [apply ios_ret_false |].
  intros t. rewrite for_until_cons. destruct (Hb x t) as [Hf Ht].
  destruct (result (body x t)) eqn:Eb; cbn [result obj_after sent fst snd].
  - split; [discriminate | intros _; apply Ht; reflexivity].
  - rewrite (Hf eq_refl). cbn [app]. apply IH.
Qed.

Lemma ios_request_missing_info (now chan : Z) (info : grid_info) :
  issues_or_silent now (request_missing_info now chan info).
Proof. apply ios_bind_call. intros c. apply ios_request_missing. Qed.

Lemma ios_request_offset (env : Env) (chan : Z) (loc : Location) (x y : Z) :
  issues_or_silent (millis_issue env) (request_offset env chan loc x y).
Proof.
  apply ios_bind_gets. intros gs. apply ios_bind_gets. intros info.
  apply ios_request_missing_info.
Qed.

Lemma ios_request_larger_set (env : Env) (chan : Z) (loc : Location) :
  issues_or_silent (millis_issue env) (request_larger_set env chan loc).
Proof.
  apply ios_for_until. intros x. apply ios_for_until. intros y. apply ios_request_offset.
Qed.

Lemma ios_request_cache_blocks (env : Env) (chan : Z) :
  issues_or_silent (millis_issue env) (request_cache_blocks env chan).
Proof.
  apply ios_bind_gets. intros n. apply ios_for_until. intros i.
  apply ios_bind_gets. intros [c |]; [| apply ios_ret_false].
  destruct (decide _); [apply ios_request_missing | apply ios_ret_false].
Qed.

Lemma paced_ret (now : Z) : paced now (ret tt).
Proof. intros t. cbn. split; [lia | discriminate]. Qed.

Lemma paced_or_else (now : Z) (m : M bool) (k : M unit) :
  issues_or_silent now m -> paced now k ->
  paced now (bind m (fun b : bool => if b then ret tt else k)).
Proof.
  intros Hm Hk t. rewrite run_bind. destruct (Hm t) as [Hf Ht].
  destruct (result (m t)) eqn:Eb; cbn [ret result obj_after sent fst snd].
  - destruct (Ht eq_refl) as [Hone Hlast]. rewrite app_nil_r, Hone.
    split; [lia | intros _; exact Hlast].
  - rewrite (Hf eq_refl). cbn [app]. apply Hk.
Qed.

Lemma paced_bind_gets {A : Type} (now : Z) (f : AP_Terrain Other -> A) (k : A -> M unit) :
  (forall a, paced now (k a)) -> paced now (bind (gets f) k).
Proof.
  intros Hk t. rewrite run_bind. cbn [gets result obj_after sent fst snd app].
  apply Hk.
Qed.

Lemma sent_call {A : Type} (f : AP_Terrain Other -> A * AP_Terrain Other) (t : AP_Terrain Other) :
  sent (call f t) = [].
Proof. unfold call. destruct (f t). reflexivity. Qed.

Lemma send_terrain_report_sent (env : Env) (chan : Z) (loc : Location) (t : AP_Terrain Other) :
  requests (sent (send_terrain_report env chan loc t)) = 0%nat
  /\ (TERRAIN_REPORT_TXSPACE <= comm_get_txspace env chan ->
      exists m, sent (send_terrain_report env chan loc t) = [m] /\ is_request m = false)
  /\ (~ TERRAIN_REPORT_TXSPACE <= comm_get_txspace env chan ->
      sent (send_terrain_report env chan loc t) = []).
Proof.
  unfold send_terrain_report. rewrite run_bind, sent_call. cbn [app].
  rewrite run_bind. cbn [gets result obj_after sent fst snd app].
  rewrite run_bind. cbn [gets result obj_after sent fst snd app].
  destruct (decide _) as [Hsp | Hsp].
  - cbn [send sent snd]. split; [reflexivity |]. split; [| tauto].
    intros _. eexists. split; reflexivity.
  - cbn [ret sent snd]. split; [reflexivity |]. split; [tauto | reflexivity].
Qed.

Lemma paced_send_terrain_report (now : Z) (env : Env) (chan : Z) (loc : Location) :
  paced now (send_terrain_report env chan loc).
Proof.
  intros t. destruct (send_terrain_report_sent env chan loc t) as [-> _].
  split; [lia | discriminate].
Qed.

Lemma paced_send_request_at (env : Env) (chan : Z) (loc : Location) :
  paced (millis_issue env) (send_request_at env chan loc).
Proof.
  unfold send_request_at. apply paced_bind_gets. intros info.
  apply paced_or_else; [apply ios_request_missing_info |].
  apply paced_or_else; [apply ios_request_larger_set |].
  apply paced_or_else; [apply ios_request_cache_blocks |].
  apply paced_or_else; [apply ios_request_missing_info |].
  apply paced_send_terrain_report.
Qed.

Lemma paced_send_request (env : Env) (chan : Z) :
  paced (millis_issue env) (send_request env chan).
Proof.
  intros t. rewrite send_request_eq.
  destruct (decide _); [apply (paced_ret _ t) |].
  destruct (decide _); [apply (paced_ret _ (schedule_disk_io t)) |].
  destruct (get_position env) as [loc |]; [| apply (paced_ret _ (schedule_disk_io t))].
  apply paced_send_request_at.
Qed.

Lemma send_request_current_tile (env : Env) (chan : Z) (t t1 : AP_Terrain Other)
  (loc : Location) (c : grid_cache) :
  enable t <> 0 ->
  ~ uint32 (millis_entry env - last_request_time_ms (schedule_disk_io t)) < 2000 ->
  get_position env = Some loc ->
  find_grid (calculate_grid_info (schedule_disk_io t) loc) (schedule_disk_io t) = (c, t1) ->
  state c <> GRID_CACHE_DISKWAIT ->
  Z.land (bitmap (grid c)) bitmap_mask <> bitmap_mask ->
  send_request env chan t
  = (tt, set_last_request_time_ms (millis_issue env) t1,
     [TERRAIN_REQUEST chan (lat (grid c)) (lon (grid c)) (uint16 (grid_spacing t1))
        (Z.land bitmap_mask (not64 (bitmap (grid c))))]).
Proof.
  intros Hen Hpace Hpos Hfind Hst Hbm.
  rewrite send_request_eq. rewrite decide_False by exact Hen.
  rewrite decide_False by exact Hpace. rewrite Hpos.
  assert (Hrm : request_missing_info (millis_issue env) chan
                  (calculate_grid_info (schedule_disk_io t) loc) (schedule_disk_io t)
                = (true, set_last_request_time_ms (millis_issue env) t1,
                   [TERRAIN_REQUEST chan (lat (grid c)) (lon (grid c)) (uint16 (grid_spacing t1))
                      (Z.land bitmap_mask (not64 (bitmap (grid c))))])).
  { unfold request_missing_info. rewrite run_bind. unfold call. rewrite Hfind.
    cbn [result obj_after sent fst snd app].
    rewrite request_missing_eq. rewrite decide_False by exact Hst.
    rewrite decide_False by exact Hbm. reflexivity. }
  unfold send_request_at. rewrite run_bind. cbn [gets result obj_after sent fst snd app].
  rewrite run_bind, Hrm. cbn [ret result obj_after sent fst snd app]. reflexivity.
Qed.

(** C4, as the code has it.  With the subsystem disabled, [send_request]
    does nothing: no request, no report, the object unchanged.  The handling
    of inbound messages does not look at the enable flag: a TERRAIN_DATA
    payload that finds an entry is applied to it as usual (one that finds
    none is dropped), and a TERRAIN_CHECK is answered with a report when the
    transport has room. *)
Theorem disabled_scheduler_idle_inbound_not_gated
  (env : Env) (chan : Z) (t : AP_Terrain Other) :
  enable t = 0 ->
  send_request env chan t = (tt, t, [])
  /\ (forall packet,
        scan_cache packet (cache t) = length (cache t) ->
        handle_data env chan (MAVLINK_MSG_ID_TERRAIN_DATA packet) t = (tt, t, []))
  /\ (forall packet c,
        cache t !! scan_cache packet (cache t) = Some c ->
        handle_data env chan (MAVLINK_MSG_ID_TERRAIN_DATA packet) t
        = (tt, update (ingested packet t), [])
        /\ cache (ingested packet t) !! scan_cache packet (cache t)
           = Some (apply_terrain_data packet c)
        /\ enable (ingested packet t) = 0)
  /\ (forall packet,
        TERRAIN_REPORT_TXSPACE <= comm_get_txspace env chan ->
        exists m,
          sent (handle_data env chan (MAVLINK_MSG_ID_TERRAIN_CHECK packet) t) = [m]
          /\ is_request m = false).
Proof.
  intros Hen. split; [| split; [| split]].
  - rewrite send_request_eq, decide_True by exact Hen. reflexivity.
  - intros packet Hn. cbn [handle_data]. apply handle_terrain_data_discard. exact Hn.
  - intros packet c Hc. cbn [handle_data].
    destruct (handle_terrain_data_found packet t c Hc) as (Heq & Hi & _).
    split; [exact Heq |]. split; [exact Hi | exact Hen].
  - intros packet Hsp. cbn [handle_data]. unfold handle_terrain_check.
    apply send_terrain_report_sent. exact Hsp.
Qed.

(** C6.  With a disk hook that leaves the pacing timestamp alone:
    a call of [send_request] made less than 2000 ms (on the 32-bit
    millisecond clock) after the last issuance sends nothing and leaves the
    object as the disk hook left it, so nothing is kept for later; any call
    sends at most one request and then records the time of issuance; two
    calls less than 2000 ms apart, whatever happens to the rest of the object
    in between, send at most one request together; and a call at least
    2000 ms after the last issuance, with the position known and the current
    tile incomplete and not waiting for the disk, sends one request. *)
Theorem requests_at_least_2000_ms_apart
  (env1 env2 : Env) (chan1 chan2 : Z) (t mid : AP_Terrain Other) (T0 T1 T2 : Z) :
  keeps_pacing schedule_disk_io ->
  (enable t <> 0 ->
   uint32 (millis_entry env1 - last_request_time_ms t) < 2000 ->
   send_request env1 chan1 t = (tt, schedule_disk_io t, []))
  /\ (requests (sent (send_request env1 chan1 t)) <= 1)%nat
  /\ (requests (sent (send_request env1 chan1 t)) = 1%nat ->
      last_request_time_ms (obj_after (send_request env1 chan1 t)) = millis_issue env1)
  /\ (millis_entry env1 = uint32 T0 -> millis_issue env1 = uint32 T1 ->
      millis_entry env2 = uint32 T2 ->
      T0 <= T1 <= T2 -> T2 - T0 < 2000 ->
      last_request_time_ms mid = last_request_time_ms (obj_after (send_request env1 chan1 t)) ->
      (requests (sent (send_request env1 chan1 t))
       + requests (sent (send_request env2 chan2 mid)) <= 1)%nat)
  /\ (forall loc c t1,
        enable t <> 0 ->
        2000 <= uint32 (millis_entry env1 - last_request_time_ms t) ->
        get_position env1 = Some loc ->
        find_grid (calculate_grid_info (schedule_disk_io t) loc) (schedule_disk_io t) = (c, t1) ->
        state c <> GRID_CACHE_DISKWAIT ->
        Z.land (bitmap (grid c)) bitmap_mask <> bitmap_mask ->
        requests (sent (send_request env1 chan1 t)) = 1%nat
        /\ last_request_time_ms (obj_after (send_request env1 chan1 t)) = millis_issue env1).
Proof.
  intros Hio. destruct (paced_send_request env1 chan1 t) as [Hle Hlast].
  split; [| split; [exact Hle | split; [exact Hlast | split]]].
  - intros Hen Hpace. rewrite send_request_eq, decide_False by exact Hen.
    rewrite Hio, decide_True by exact Hpace. reflexivity.
  - intros HT0 HT1 HT2 Hord Hclose Hmid.
    destruct (decide (requests (sent (send_request env1 chan1 t)) = 1%nat)) as [Hone | Hnone].
    + specialize (Hlast Hone).
      assert (Hskip : sent (send_request env2 chan2 mid) = []).
      { rewrite send_request_eq. destruct (decide (enable mid = 0)); [reflexivity |].
        rewrite decide_True; [reflexivity |].
        rewrite Hio, Hmid, Hlast, HT1, HT2. unfold uint32.
        rewrite wrap_sub_wrap, wrap_small; [lia |]. change (2 ^ 32) with 4294967296. lia. }
      rewrite Hskip, Hone. cbn. lia.
    + destruct (paced_send_request env2 chan2 mid) as [Hle2 _]. lia.
  - intros loc c t1 Hen Hpace Hpos Hfind Hst Hbm.
    rewrite (send_request_current_tile env1 chan1 t t1 loc c); try assumption.
    + split; reflexivity.
    + rewrite Hio. lia.
Qed.

End Scheduler.

(** ** The properties on concrete inputs *)

Lemma sample_update_keeps_grids : keeps_grids (C := sample) (update (Collaborators := sample)).
Proof. intros t. reflexivity. Defined.

Lemma sample_disk_io_keeps_pacing :
  keeps_pacing (C := sample) (schedule_disk_io (Collaborators := sample)).
Proof. intros t. reflexivity. Defined.

Lemma blank_height_wf : matrix_wf blank_height.
Proof. split; [reflexivity |]. vm_compute. repeat constructor. Defined.

Lemma bad_chunk_index_discarded_and_writes_in_bounds_witness :
  handle_terrain_data (C := sample) (sample_packet 200)
    (sample_obj 1 0 [sample_entry 1000 2000 100 0 GRID_CACHE_VALID])
  = (tt, sample_obj 1 0 [sample_entry 1000 2000 100 0 GRID_CACHE_VALID], [])
  /\ 0 <= idx_x_of (sample_packet 55) + 3 < 28
  /\ 0 <= idx_y_of (sample_packet 55) + 3 < 32.
Proof.
  split.
  - apply (proj1 (bad_chunk_index_discarded_and_writes_in_bounds (C := sample)
                    (sample_packet 200) _)).
    simpl. lia.
  - destruct (proj2 (bad_chunk_index_discarded_and_writes_in_bounds (C := sample)
                       (sample_packet 55) (sample_obj 1 0 [])))
      as (_ & _ & Hpos & _); [simpl; lia |].
    destruct (Hpos 3 3) as (Hx & Hy & _); [vm_compute; split; congruence ..|].
    split; [exact Hx | exact Hy].
Defined.

Lemma ingestion_sets_entry_dirty_witness :
  state <$> cache (ingested (C := sample) (sample_packet 9)
                     (sample_obj 1 0 [sample_entry 1000 2000 100 0 GRID_CACHE_VALID])) !! 0%nat
  = Some GRID_CACHE_DIRTY.
Proof.
  apply (proj2 (ingestion_sets_entry_dirty (C := sample) (sample_packet 9)
                  (sample_obj 1 0 [sample_entry 1000 2000 100 0 GRID_CACHE_VALID]))
           (sample_entry 1000 2000 100 0 GRID_CACHE_VALID)).
  reflexivity.
Defined.

(** C2 fails as stated: a DiskWait entry is taken out of DiskWait by
    ingestion, and a Valid entry becomes Dirty although the bit of the chunk
    was set already and the bitmap does not change. *)
Lemma ingestion_state_change_counterexample :
  (state <$> cache (sample_obj 1 0 [sample_entry 1000 2000 100 0 GRID_CACHE_DISKWAIT]) !! 0%nat
   = Some GRID_CACHE_DISKWAIT
   /\ state <$> cache (obj_after (handle_terrain_data (C := sample) (sample_packet 9)
                  (sample_obj 1 0 [sample_entry 1000 2000 100 0 GRID_CACHE_DISKWAIT]))) !! 0%nat
      = Some GRID_CACHE_DIRTY)
  /\ (bitmap_at (C := sample) 0
        (sample_obj 1 0 [sample_entry 1000 2000 100 512 GRID_CACHE_VALID]) = Some 512
      /\ bitmap_at (C := sample) 0
           (obj_after (handle_terrain_data (C := sample) (sample_packet 9)
              (sample_obj 1 0 [sample_entry 1000 2000 100 512 GRID_CACHE_VALID]))) = Some 512
      /\ state <$> cache (obj_after (handle_terrain_data (C := sample) (sample_packet 9)
                  (sample_obj 1 0 [sample_entry 1000 2000 100 512 GRID_CACHE_VALID]))) !! 0%nat
         = Some GRID_CACHE_DIRTY).
Proof. vm_compute. repeat split. Qed.

Lemma samples_stored_verbatim_witness :
  exists c',
    cache (ingested (C := sample) (corrupt_packet 9)
             (sample_obj 1 0 [sample_entry 1000 2000 100 0 GRID_CACHE_VALID])) !! 0%nat = Some c'
    /\ cell (height (grid c')) 4 4 = Some 0
    /\ cell (height (grid c')) 4 6 = Some 20001
    /\ cell (height (grid c')) 5 4 = Some (-32768)
    /\ cell (height (grid c')) 7 7 = Some 30000
    /\ Z.testbit (bitmap (grid c')) 9 = true.
Proof.
  destruct (samples_stored_verbatim (C := sample) (corrupt_packet 9)
              (sample_obj 1 0 [sample_entry 1000 2000 100 0 GRID_CACHE_VALID])
              (sample_entry 1000 2000 100 0 GRID_CACHE_VALID))
    as (c' & _ & Hc & Hcells & _ & Hbit & _).
  - reflexivity.
  - simpl. lia.
  - exact blank_height_wf.
  - exists c'. split; [exact Hc |].
    split; [apply (Hcells 0 0); vm_compute; split; congruence |].
    split; [apply (Hcells 0 2); vm_compute; split; congruence |].
    split; [apply (Hcells 1 0); vm_compute; split; congruence |].
    split; [apply (Hcells 3 3); vm_compute; split; congruence |].
    exact Hbit.
Defined.

Lemma ingestion_bitmap_union_any_order_witness :
  bitmap_at (C := sample) 1
    (deliver (C := sample) [sample_packet 3; corrupt_packet 9; sample_packet 3]
       (sample_obj 1 0 [sample_entry 5 6 100 0 GRID_CACHE_VALID;
                        sample_entry 1000 2000 100 1 GRID_CACHE_VALID]))
  = Some 521
  /\ bitmap_at (C := sample) 1
       (deliver (C := sample) [corrupt_packet 9; sample_packet 3; sample_packet 3]
          (sample_obj 1 0 [sample_entry 5 6 100 0 GRID_CACHE_VALID;
                           sample_entry 1000 2000 100 1 GRID_CACHE_VALID]))
     = bitmap_at (C := sample) 1
         (deliver (C := sample) [sample_packet 3; corrupt_packet 9; sample_packet 3]
            (sample_obj 1 0 [sample_entry 5 6 100 0 GRID_CACHE_VALID;
                             sample_entry 1000 2000 100 1 GRID_CACHE_VALID])).
Proof.
  destruct (ingestion_bitmap_union_any_order (C := sample) sample_update_keeps_grids
              (sample_obj 1 0 [sample_entry 5 6 100 0 GRID_CACHE_VALID;
                               sample_entry 1000 2000 100 1 GRID_CACHE_VALID])
              1 (sample_entry 1000 2000 100 1 GRID_CACHE_VALID)
              [sample_packet 3; corrupt_packet 9; sample_packet 3])
    as (Hunion & _ & Hperm & _).
  - reflexivity.
  - simpl. lia.
  - repeat (constructor; [split; [reflexivity | simpl; lia] |]). constructor.
  - split; [exact Hunion |]. apply Hperm. apply perm_swap.
Defined.

Lemma request_missing_sends_missing_mask_witness :
  request_missing (C := sample) 7000 0 (sample_entry 1000 2000 100 7 GRID_CACHE_VALID)
    (sample_obj 1 0 [])
  = (true, sample_obj 1 7000 [], [TERRAIN_REQUEST 0 1000 2000 100 72057594037927928])
  /\ request_missing (C := sample) 7000 0 (sample_entry 1000 2000 100 7 GRID_CACHE_DISKWAIT)
       (sample_obj 1 0 [])
     = (false, sample_obj 1 0 [], [])
  /\ request_missing (C := sample) 7000 0
       (sample_entry 1000 2000 100 72057594037927935 GRID_CACHE_DIRTY) (sample_obj 1 0 [])
     = (false, sample_obj 1 0 [], []).
Proof.
  split; [| split].
  - apply (proj1 (proj2 (request_missing_sends_missing_mask (C := sample) 7000 0
                           (sample_entry 1000 2000 100 7 GRID_CACHE_VALID) (sample_obj 1 0 [])))).
    intros [H | H]; [discriminate H | vm_compute in H; discriminate H].
  - apply (proj1 (request_missing_sends_missing_mask (C := sample) 7000 0
                    (sample_entry 1000 2000 100 7 GRID_CACHE_DISKWAIT) (sample_obj 1 0 []))).
    left. reflexivity.
  - apply (proj1 (proj2 (proj2 (proj2 (request_missing_sends_missing_mask (C := sample) 0 0
                    (sample_entry 1000 2000 100 72057594037927935 GRID_CACHE_DIRTY)
                    (sample_obj 1 0 [])))))).
    reflexivity.
Defined.

(** C5 fails as stated: the request carries the configured grid spacing, 100
    here, and not the spacing 50 of the address of the entry. *)
Lemma request_spacing_counterexample :
  address (sample_entry 1000 2000 50 0 GRID_CACHE_VALID) = (1000, 2000, 50)
  /\ grid_spacing (sample_obj 1 0 []) = 100
  /\ sent (request_missing (C := sample) 7000 0 (sample_entry 1000 2000 50 0 GRID_CACHE_VALID)
             (sample_obj 1 0 []))
     = [TERRAIN_REQUEST 0 1000 2000 100 72057594037927935].
Proof. vm_compute. repeat split. Qed.

Lemma larger_set_tries_all_nine_offsets_witness :
  request_larger_set (C := sample) (sample_env 5000 5001) 0 (mk_Location 1000 2000)
    (sample_obj 1 0 [sample_entry 1000 24400 100 0 GRID_CACHE_VALID])
  = (true,
     mk_AP_Terrain 1 100 5001 [sample_entry 1000 24400 100 0 GRID_CACHE_VALID]
       [(-18600, -20400); (-18600, 2000); (-18600, 24400); (1000, -20400); (1000, 2000);
        (1000, 24400)],
     [] ++ [TERRAIN_REQUEST 0 1000 24400 100 72057594037927935]).
Proof.
  apply (proj1 (proj2 (proj2 (larger_set_tries_all_nine_offsets (C := sample)
           (sample_env 5000 5001) 0 (mk_Location 1000 2000)
           (sample_obj 1 0 [sample_entry 1000 24400 100 0 GRID_CACHE_VALID]))))
           [(-1, -1); (-1, 0); (-1, 1); (0, -1); (0, 0)] (0, 1) [(1, -1); (1, 0); (1, 1)]
           (mk_AP_Terrain 1 100 0 [sample_entry 1000 24400 100 0 GRID_CACHE_VALID]
              [(-18600, -20400); (-18600, 2000); (-18600, 24400); (1000, -20400); (1000, 2000)])
           []).
  - reflexivity.
  - vm_compute. reflexivity.
  - vm_compute. reflexivity.
Defined.

(** C3 fails as stated: with nothing to request, the fan-out looks up nine
    tiles, the fifth being the tile of the current position itself, where the
    eight neighbours of the specification give eight lookups. *)
Lemma fan_out_centre_counterexample :
  other (obj_after (request_larger_set (C := sample) (sample_env 5000 5001) 0
                      (mk_Location 1000 2000) (sample_obj 1 0 [])))
  = [(-18600, -20400); (-18600, 2000); (-18600, 24400); (1000, -20400); (1000, 2000);
     (1000, 24400); (20600, -20400); (20600, 2000); (20600, 24400)]
  /\ other (obj_after (request_neighbours_spec (C := sample) (sample_env 5000 5001) 0
                         (mk_Location 1000 2000) (sample_obj 1 0 [])))
     = [(-18600, -20400); (-18600, 2000); (-18600, 24400); (1000, -20400);
        (1000, 24400); (20600, -20400); (20600, 2000); (20600, 24400)]
  /\ request_larger_set (C := sample) (sample_env 5000 5001) 0 (mk_Location 1000 2000)
       (sample_obj 1 0 [])
     <> request_neighbours_spec (C := sample) (sample_env 5000 5001) 0 (mk_Location 1000 2000)
          (sample_obj 1 0 []).
Proof.
  split; [vm_compute; reflexivity |]. split; [vm_compute; reflexivity |].
  intros H. apply (f_equal (fun r => length (other (obj_after (C := sample) r)))) in H.
  vm_compute in H. discriminate H.
Qed.

Lemma disabled_scheduler_idle_inbound_not_gated_witness :
  send_request (C := sample) (sample_env 5000 5001) 0
    (sample_obj 0 0 [sample_entry 1000 2000 100 0 GRID_CACHE_VALID])
  = (tt, sample_obj 0 0 [sample_entry 1000 2000 100 0 GRID_CACHE_VALID], []).
Proof.
  apply (proj1 (disabled_scheduler_idle_inbound_not_gated (C := sample) (sample_env 5000 5001) 0
                  (sample_obj 0 0 [sample_entry 1000 2000 100 0 GRID_CACHE_VALID]) eq_refl)).
Defined.

(** C4 fails as stated: with the subsystem disabled, a TERRAIN_DATA message
    still sets a bit of the bitmap and marks the entry Dirty, and a
    TERRAIN_CHECK message is still answered with a report. *)
Lemma disabled_ingestion_counterexample :
  enable (sample_obj 0 0 [sample_entry 1000 2000 100 0 GRID_CACHE_VALID]) = 0
  /\ bitmap_at (C := sample) 0
       (obj_after (handle_data (C := sample) (sample_env 5000 5001) 0
          (MAVLINK_MSG_ID_TERRAIN_DATA (sample_packet 9))
          (sample_obj 0 0 [sample_entry 1000 2000 100 0 GRID_CACHE_VALID]))) = Some 512
  /\ state <$> cache (obj_after (handle_data (C := sample) (sample_env 5000 5001) 0
          (MAVLINK_MSG_ID_TERRAIN_DATA (sample_packet 9))
          (sample_obj 0 0 [sample_entry 1000 2000 100 0 GRID_CACHE_VALID]))) !! 0%nat
     = Some GRID_CACHE_DIRTY
  /\ sent (handle_data (C := sample) (sample_env 5000 5001) 0
             (MAVLINK_MSG_ID_TERRAIN_CHECK (mk_terrain_check 1000 2000))
             (sample_obj 0 0 [sample_entry 1000 2000 100 0 GRID_CACHE_VALID]))
     = [TERRAIN_REPORT 0 1000 2000 0 0 56 0].
Proof. vm_compute. repeat split. Qed.

Lemma requests_at_least_2000_ms_apart_witness :
  (requests (sent (send_request (C := sample) (sample_env 5000 5001) 0
                     (sample_obj 1 0 [sample_entry 1000 2000 100 0 GRID_CACHE_VALID])))
   + requests (sent (send_request (C := sample) (sample_env 6000 6001) 0
                       (obj_after (send_request (C := sample) (sample_env 5000 5001) 0
                          (sample_obj 1 0 [sample_entry 1000 2000 100 0 GRID_CACHE_VALID])))))
   <= 1)%nat
  /\ requests (sent (send_request (C := sample) (sample_env 5000 5001) 0
                       (sample_obj 1 0 [sample_entry 1000 2000 100 0 GRID_CACHE_VALID]))) = 1%nat
  /\ requests (sent (send_request (C := sample) (sample_env 7001 7002) 0
                       (obj_after (send_request (C := sample) (sample_env 5000 5001) 0
                          (sample_obj 1 0 [sample_entry 1000 2000 100 0 GRID_CACHE_VALID])))))
     = 1%nat.
Proof.
  split; [| split].
  - apply (proj1 (proj2 (proj2 (proj2 (requests_at_least_2000_ms_apart (C := sample)
             (sample_env 5000 5001) (sample_env 6000 6001) 0 0
             (sample_obj 1 0 [sample_entry 1000 2000 100 0 GRID_CACHE_VALID])
             (obj_after (send_request (C := sample) (sample_env 5000 5001) 0
                (sample_obj 1 0 [sample_entry 1000 2000 100 0 GRID_CACHE_VALID])))
             5000 5001 6000 sample_disk_io_keeps_pacing))))).
    + reflexivity.
    + reflexivity.
    + reflexivity.
    + lia.
    + lia.
    + reflexivity.
  - eapply (proj2 (proj2 (proj2 (proj2 (requests_at_least_2000_ms_apart (C := sample)
             (sample_env 5000 5001) (sample_env 6000 6001) 0 0
             (sample_obj 1 0 [sample_entry 1000 2000 100 0 GRID_CACHE_VALID])
             (sample_obj 1 0 []) 5000 5001 6000 sample_disk_io_keeps_pacing))))).
    + simpl. lia.
    + vm_compute. discriminate.
    + reflexivity.
    + reflexivity.
    + discriminate.
    + vm_compute. discriminate.
  - eapply (proj2 (proj2 (proj2 (proj2 (requests_at_least_2000_ms_apart (C := sample)
             (sample_env 7001 7002) (sample_env 6000 6001) 0 0
             (obj_after (send_request (C := sample) (sample_env 5000 5001) 0
                (sample_obj 1 0 [sample_entry 1000 2000 100 0 GRID_CACHE_VALID])))
             (sample_obj 1 0 []) 5000 5001 6000 sample_disk_io_keeps_pacing))))).
    + vm_compute. discriminate.
    + vm_compute. discriminate.
    + reflexivity.
    + reflexivity.
    + discriminate.
    + vm_compute. discriminate.
Defined.

(** * Further properties of the scheduler *)

Section SchedulerFrames.
Context `{C : Collaborators}.

(** *** One message per call *)

Lemma oon_ret_false : one_or_none (ret false).
Proof. intros t. split; [reflexivity | discriminate]. Qed.

Lemma oon_request_missing (now chan : Z) (c : grid_cache) :
  one_or_none (request_missing now chan c).
Proof.
  intros t. rewrite request_missing_eq.
  destruct (decide _); [split; [reflexivity | discriminate] |].
  destruct (decide _); [split; [reflexivity | discriminate] |].
  split; [discriminate |]. intros _. eexists. split; reflexivity.
Qed.

Lemma oon_bind_gets {A : Type} (f : AP_Terrain Other -> A) (k : A -> M bool) :
  (forall a, one_or_none (k a)) -> one_or_none (bind (gets f) k).
Proof.
  intros Hk t. rewrite run_bind. cbn [gets result obj_after sent fst snd app]. apply Hk.
Qed.

Lemma oon_bind_call {A : Type} (f : AP_Terrain Other -> A * AP_Terrain Other) (k : A -> M bool) :
  (forall a, one_or_none (k a)) -> one_or_none (bind (call f) k).
Proof.
  intros Hk t. rewrite run_bind. unfold call. destruct (f t) as [a t1].
  cbn [result obj_after sent fst snd app]. apply Hk.
Qed.

Lemma oon_for_until {A : Type} (xs : list A) (body : A -> M bool) :
  (forall x, one_or_none (body x)) -> one_or_none (for_until xs body).
Proof.
  intros Hb. induction xs as [| x xs IH]; [apply oon_ret_false |].
  intros t. rewrite for_until_cons. destruct (Hb x t) as [Hf Ht].
  destruct (result (body x t)) eqn:Eb; cbn [result obj_after sent fst snd].
  - split; [discriminate | intros _; apply Ht; reflexivity].
  - rewrite (Hf eq_refl). cbn [app]. apply IH.
Qed.

Lemma oon_request_missing_info (now chan : Z) (info : grid_info) :
  one_or_none (request_missing_info now chan info).
Proof. apply oon_bind_call. intros c. apply oon_request_missing. Qed.

Lemma oon_request_larger_set (env : Env) (chan : Z) (loc : Location) :
  one_or_none (request_larger_set env chan loc).
Proof.
  apply oon_for_until. intros x. apply oon_for_until. intros y.
  apply oon_bind_gets. intros gs. apply oon_bind_gets. intros info.
  apply oon_request_missing_info.
Qed.

Lemma oon_request_cache_blocks (env : Env) (chan : Z) :
  one_or_none (request_cache_blocks env chan).
Proof.
  apply oon_bind_gets. intros n. apply oon_for_until. intros i.
  apply oon_bind_gets. intros [c |]; [| apply oon_ret_false].
  destruct (decide _); [apply oon_request_missing | apply oon_ret_false].
Qed.

Lemma single_or_else (m : M bool) (k : M unit) :
  one_or_none m -> single_message k ->
  single_message (bind m (fun b : bool => if b then ret tt else k)).
Proof.
  intros Hm Hk t. rewrite run_bind. destruct (Hm t) as [Hf Ht].
  destruct (result (m t)) eqn:Eb; cbn [ret result obj_after sent fst snd].
  - destruct (Ht eq_refl) as (r & -> & _). cbn. lia.
  - rewrite (Hf eq_refl). cbn [app]. apply Hk.
Qed.

Lemma report_or_nothing (env : Env) (chan : Z) (loc : Location) (t : AP_Terrain Other) :
  sent (send_terrain_report env chan loc t) = []
  \/ exists r, sent (send_terrain_report env chan loc t) = [r] /\ is_request r = false.
Proof.
  destruct (send_terrain_report_sent env chan loc t) as (_ & Hroom & Hfull).
  destruct (decide (TERRAIN_REPORT_TXSPACE <= comm_get_txspace env chan)) as [Hd | Hd].
  - right. apply Hroom. exact Hd.
  - left. apply Hfull. exact Hd.
Qed.

Lemma single_send_request_at (env : Env) (chan : Z) (loc : Location) :
  single_message (send_request_at env chan loc).
Proof.
  unfold send_request_at. intros t. rewrite run_bind.
  cbn [gets result obj_after sent fst snd app].
  apply single_or_else; [apply oon_request_missing_info |].
  apply single_or_else; [apply oon_request_larger_set |].
  apply single_or_else; [apply oon_request_cache_blocks |].
  apply single_or_else; [apply oon_request_missing_info |].
  intros t'. destruct (report_or_nothing env chan loc t') as [-> | (r & -> & _)]; cbn; lia.
Qed.

(** X1. A call of [send_request] hands at most one message to the transport,
    so a request and a report never leave in the same call; with the position
    unknown it sends nothing at all. *)
Theorem send_request_sends_one_message_at_most (env : Env) (chan : Z) (t : AP_Terrain Other) :
  (length (sent (send_request env chan t)) <= 1)%nat
  /\ (forall m1 m2, sent (send_request env chan t) = [m1; m2] -> False)
  /\ (requests (sent (send_request env chan t)) = 1%nat ->
      exists r, sent (send_request env chan t) = [r] /\ is_request r = true)
  /\ (get_position env = None -> sent (send_request env chan t) = []).
Proof.
  assert (Hlen : (length (sent (send_request env chan t)) <= 1)%nat).
  { rewrite send_request_eq.
    destruct (decide _); [cbn; lia |]. destruct (decide _); [cbn; lia |].
    destruct (get_position env) as [loc |]; [| cbn; lia].
    apply single_send_request_at. }
  split; [exact Hlen |]. split; [| split].
  - intros m1 m2 Heq. rewrite Heq in Hlen. cbn in Hlen. lia.
  - intros Hone. destruct (sent (send_request env chan t)) as [| r [| r2 rest]].
    + discriminate Hone.
    + exists r. split; [reflexivity |]. unfold requests in Hone.
      rewrite filter_cons in Hone. destruct (decide (is_request r = true)); [assumption |].
      discriminate Hone.
    + cbn in Hlen. lia.
  - intros Hpos. rewrite send_request_eq, Hpos.
    destruct (decide _); [reflexivity |]. destruct (decide _); reflexivity.
Qed.

End SchedulerFrames.

(** *** What a call leaves alone *)

Section Tracks.
Context `{C : Collaborators}.
Variable R : AP_Terrain Other -> AP_Terrain Other -> list (mavlink_out F) -> Prop.
Hypothesis R_refl : forall t, R t t [].
Hypothesis R_trans : forall t t1 t2 o1 o2, R t t1 o1 -> R t1 t2 o2 -> R t t2 (o1 ++ o2).

Lemma tracks_ret {A : Type} (a : A) : tracks R (ret a).
Proof. intros t. apply R_refl. Qed.

Lemma tracks_gets {A : Type} (f : AP_Terrain Other -> A) : tracks R (gets f).
Proof. intros t. apply R_refl. Qed.

Lemma tracks_bind {A B : Type} (m : M A) (k : A -> M B) :
  tracks R m -> (forall a, tracks R (k a)) -> tracks R (bind m k).
Proof.
  intros Hm Hk t. rewrite run_bind. cbn [obj_after sent fst snd].
  eapply R_trans; [apply Hm | apply Hk].
Qed.

Lemma tracks_for_until {A : Type} (xs : list A) (body : A -> M bool) :
  (forall x, tracks R (body x)) -> tracks R (for_until xs body).
Proof.
  intros Hb. induction xs as [| x xs IH]; [apply tracks_ret |].
  cbn [for_until]. apply tracks_bind; [apply Hb |].
  intros [|]; [apply tracks_ret | exact IH].
Qed.

Hypothesis R_find : forall info t, R t (snd (find_grid info t)) [].
Hypothesis R_disk : forall t, R t (schedule_disk_io t) [].
Hypothesis R_height : forall loc h t, R t (snd (height_amsl loc h t)) [].
Hypothesis R_issue :
  forall now t m, is_request m = true -> R t (set_last_request_time_ms now t) [m].
Hypothesis R_report : forall t m, is_request m = false -> R t t [m].

Lemma tracks_request_missing (now chan : Z) (c : grid_cache) :
  tracks R (request_missing now chan c).
Proof.
  intros t. rewrite request_missing_eq.
  destruct (decide _); [apply R_refl |]. destruct (decide _); [apply R_refl |].
  cbn [obj_after sent fst snd]. apply R_issue. reflexivity.
Qed.

Lemma tracks_request_missing_info (now chan : Z) (info : grid_info) :
  tracks R (request_missing_info now chan info).
Proof.
  apply tracks_bind; [| intros c; apply tracks_request_missing].
  intros t. unfold call. pose proof (R_find info t) as Hf.
  destruct (find_grid info t) as [c t1]. exact Hf.
Qed.

Lemma tracks_request_larger_set (env : Env) (chan : Z) (loc : Location) :
  tracks R (request_larger_set env chan loc).
Proof.
  apply tracks_for_until. intros x. apply tracks_for_until. intros y.
  apply tracks_bind; [apply tracks_gets |]. intros gs.
  apply tracks_bind; [apply tracks_gets |]. intros info.
  apply tracks_request_missing_info.
Qed.

Lemma tracks_request_cache_blocks (env : Env) (chan : Z) :
  tracks R (request_cache_blocks env chan).
Proof.
  apply tracks_bind; [apply tracks_gets |]. intros n.
  apply tracks_for_until. intros i.
  apply tracks_bind; [apply tracks_gets |]. intros [c |]; [| apply tracks_ret].
  destruct (decide _); [apply tracks_request_missing | apply tracks_ret].
Qed.

Lemma tracks_send_terrain_report (env : Env) (chan : Z) (loc : Location) :
  tracks R (send_terrain_report env chan loc).
Proof.
  apply tracks_bind.
  - intros t. unfold call. pose proof (R_height loc (F_of_int 0) t) as Hh.
    destruct (height_amsl loc (F_of_int 0) t) as [[ok h] t1]. exact Hh.
  - intros r. apply tracks_bind; [apply tracks_gets |]. intros gs.
    apply tracks_bind; [apply tracks_gets |]. intros st.
    destruct (decide _); [| apply tracks_ret].
    intros t. apply R_report. reflexivity.
Qed.

Lemma tracks_send_request (env : Env) (chan : Z) : tracks R (send_request env chan).
Proof.
  apply tracks_bind; [apply tracks_gets |]. intros en.
  destruct (decide _); [apply tracks_ret |].
  apply tracks_bind; [intros t; apply R_disk |]. intros _.
  apply tracks_bind; [apply tracks_gets |]. intros last.
  destruct (decide _); [apply tracks_ret |].
  destruct (get_position env) as [loc |]; [| apply tracks_ret].
  apply tracks_bind; [apply tracks_gets |]. intros info.
  apply tracks_bind; [apply tracks_request_missing_info |].
  intros [|]; [apply tracks_ret |].
  apply tracks_bind; [apply tracks_request_larger_set |].
  intros [|]; [apply tracks_ret |].
  apply tracks_bind; [apply tracks_request_cache_blocks |].
  intros [|]; [apply tracks_ret |].
  apply tracks_bind; [apply tracks_request_missing_info |].
  intros [|]; [apply tracks_ret |].
  apply tracks_send_terrain_report.
Qed.

End Tracks.

Section SchedulerFrameProperties.
Context `{C : Collaborators}.

Lemma requests_app_zero (o1 o2 : list (mavlink_out F)) :
  requests (o1 ++ o2) = 0%nat -> requests o1 = 0%nat /\ requests o2 = 0%nat.
Proof. unfold requests. rewrite filter_app, length_app. lia. Qed.

(** X2. [send_request] writes no cache entry, nor the enable flag, nor the
    grid spacing: when the collaborators it calls leave them alone, they are
    after the call what they were before it, whether or not a request or a
    report went out. *)
Theorem send_request_writes_no_tile (env : Env) (chan : Z) (t : AP_Terrain Other) :
  (forall info t0, same_tiles t0 (snd (find_grid info t0))) ->
  (forall t0, same_tiles t0 (schedule_disk_io t0)) ->
  (forall loc h t0, same_tiles t0 (snd (height_amsl loc h t0))) ->
  same_tiles t (obj_after (send_request env chan t)).
Proof.
  intros Hfind Hdisk Hheight.
  apply (tracks_send_request (fun t0 t1 _ => same_tiles t0 t1)).
  - intros t0. repeat split.
  - intros t0 t1 t2 _ _ (Hc1 & He1 & Hg1) (Hc2 & He2 & Hg2).
    repeat split; congruence.
  - exact Hfind.
  - exact Hdisk.
  - exact Hheight.
  - intros now t0 m _. repeat split.
  - intros t0 m _. repeat split.
Qed.

(** X3. The pacing timestamp moves only when a request goes out: with
    collaborators that leave it alone, a call of [send_request] that sends no
    request leaves [last_request_time_ms] as it was, and the handling of an
    inbound message always does. *)
Theorem timestamp_moves_only_on_issue
  (env : Env) (chan : Z) (msg : mavlink_message_t) (t : AP_Terrain Other) :
  (forall info t0, last_request_time_ms (snd (find_grid info t0)) = last_request_time_ms t0) ->
  (forall t0, last_request_time_ms (schedule_disk_io t0) = last_request_time_ms t0) ->
  (forall loc h t0, last_request_time_ms (snd (height_amsl loc h t0)) = last_request_time_ms t0) ->
  (forall t0, last_request_time_ms (update t0) = last_request_time_ms t0) ->
  (requests (sent (send_request env chan t)) = 0%nat ->
   last_request_time_ms (obj_after (send_request env chan t)) = last_request_time_ms t)
  /\ last_request_time_ms (obj_after (handle_data env chan msg t)) = last_request_time_ms t.
Proof.
  intros Hfind Hdisk Hheight Hupd. split.
  - apply (tracks_send_request
             (fun t0 t1 o => requests o = 0%nat -> last_request_time_ms t1 = last_request_time_ms t0)).
    + intros t0 _. reflexivity.
    + intros t0 t1 t2 o1 o2 H1 H2 Hz. apply requests_app_zero in Hz as [Hz1 Hz2].
      rewrite (H2 Hz2). apply H1. exact Hz1.
    + intros info t0 _. apply Hfind.
    + intros t0 _. apply Hdisk.
    + intros loc h t0 _. apply Hheight.
    + intros now t0 m Hm Hz. unfold requests in Hz. rewrite filter_cons in Hz.
      rewrite decide_True in Hz by exact Hm. discriminate Hz.
    + intros t0 m _ _. reflexivity.
  - destruct msg as [p | p | id]; cbn [handle_data].
    + rewrite handle_terrain_data_eq. destruct (decide _); [reflexivity |].
      cbn [obj_after fst snd]. rewrite Hupd. reflexivity.
    + unfold handle_terrain_check.
      apply (tracks_send_terrain_report
               (fun t0 t1 _ => last_request_time_ms t1 = last_request_time_ms t0)).
      * intros t0. reflexivity.
      * intros t0 t1 t2 _ _ H1 H2. congruence.
      * intros loc h t0. apply Hheight.
      * intros t0 m _. reflexivity.
    + reflexivity.
Qed.

(** X13. The handling of an inbound message never sends a request and sends
    one message at most: a TERRAIN_DATA message is never answered, a message
    of another kind than TERRAIN_DATA and TERRAIN_CHECK is ignored, and the
    report answering a TERRAIN_CHECK is dropped when the transport has no
    room for it. *)
Theorem inbound_handling_sends_no_request
  (env : Env) (chan : Z) (msg : mavlink_message_t) (t : AP_Terrain Other) :
  requests (sent (handle_data env chan msg t)) = 0%nat
  /\ (length (sent (handle_data env chan msg t)) <= 1)%nat
  /\ (forall p, msg = MAVLINK_MSG_ID_TERRAIN_DATA p -> sent (handle_data env chan msg t) = [])
  /\ (forall id, msg = MAVLINK_MSG_ID_OTHER id -> handle_data env chan msg t = (tt, t, []))
  /\ (forall p, msg = MAVLINK_MSG_ID_TERRAIN_CHECK p ->
        ~ TERRAIN_REPORT_TXSPACE <= comm_get_txspace env chan ->
        sent (handle_data env chan msg t) = []).
Proof.
  assert (Hdata : forall p, sent (handle_terrain_data p t) = []).
  { intros p. rewrite handle_terrain_data_eq. destruct (decide _); reflexivity. }
  destruct msg as [p | p | id]; cbn [handle_data].
  - rewrite Hdata. repeat split; try (cbn; lia); try discriminate; reflexivity.
  - unfold handle_terrain_check.
    destruct (send_terrain_report_sent env chan (mk_Location (tc_lat p) (tc_lon p)) t)
      as (Hreq & _ & Hfull).
    split; [exact Hreq |]. split.
    + destruct (report_or_nothing env chan (mk_Location (tc_lat p) (tc_lon p)) t)
        as [-> | (r & -> & _)]; cbn; lia.
    + split; [discriminate |]. split; [discriminate |].
      intros p' [= <-] Hroom. apply Hfull. exact Hroom.
  - repeat split; try (cbn; lia); try discriminate; reflexivity.
Qed.

End SchedulerFrameProperties.

(** * Further properties of the requests *)

Section RequestProperties.
Context `{C : Collaborators}.

Lemma requestable_spec (c : grid_cache) :
  requestable c = true
  <-> (state c = GRID_CACHE_VALID \/ state c = GRID_CACHE_DIRTY)
      /\ Z.land (bitmap (grid c)) bitmap_mask <> bitmap_mask.
Proof.
  unfold requestable. rewrite andb_true_iff, negb_true_iff, bool_decide_eq_true,
    bool_decide_eq_false.
  destruct (state c); simpl; split; intros [H1 H2]; split; try assumption; try lia;
    try (left; reflexivity); try (right; reflexivity);
    destruct H1 as [H1 | H1]; discriminate H1.
Qed.

Lemma cache_block_step (env : Env) (chan : Z) (t : AP_Terrain Other) (i : nat) (c : grid_cache) :
  cache t !! i = Some c ->
  bind (gets (fun t0 : AP_Terrain Other => cache t0 !! i))
    (fun oc => match oc with
               | Some c0 =>
                   if decide (state_ord GRID_CACHE_VALID <= state_ord (state c0))
                   then request_missing (millis_issue env) chan c0
                   else ret false
               | None => ret false
               end) t
  = if requestable c
    then (true, set_last_request_time_ms (millis_issue env) t,
          [TERRAIN_REQUEST chan (lat (grid c)) (lon (grid c)) (uint16 (grid_spacing t))
             (Z.land bitmap_mask (not64 (bitmap (grid c))))])
    else (false, t, []).
Proof.
  intros Hc. rewrite run_bind. cbn [gets result obj_after sent fst snd app]. rewrite Hc.
  unfold requestable. destruct (decide (state_ord GRID_CACHE_VALID <= state_ord (state c))) as [Ho | Ho].
  - rewrite (bool_decide_eq_true_2 _ Ho). cbn [andb].
    rewrite request_missing_eq.
    rewrite decide_False by (intros Hd; rewrite Hd in Ho; simpl in Ho; lia).
    destruct (decide (Z.land (bitmap (grid c)) bitmap_mask = bitmap_mask)) as [Hf | Hf].
    + rewrite (bool_decide_eq_true_2 _ Hf). reflexivity.
    + rewrite (bool_decide_eq_false_2 _ Hf). reflexivity.
  - rewrite (bool_decide_eq_false_2 _ Ho). reflexivity.
Qed.

Lemma cache_blocks_from (env : Env) (chan : Z) (t : AP_Terrain Other) (m k : nat) :
  (k + m)%nat = length (cache t) ->
  for_until (seq k m)
    (fun i =>
       bind (gets (fun t0 : AP_Terrain Other => cache t0 !! i))
         (fun oc => match oc with
                    | Some c0 =>
                        if decide (state_ord GRID_CACHE_VALID <= state_ord (state c0))
                        then request_missing (millis_issue env) chan c0
                        else ret false
                    | None => ret false
                    end)) t
  = match find requestable (drop k (cache t)) with
    | Some c =>
        (true, set_last_request_time_ms (millis_issue env) t,
         [TERRAIN_REQUEST chan (lat (grid c)) (lon (grid c)) (uint16 (grid_spacing t))
            (Z.land bitmap_mask (not64 (bitmap (grid c))))])
    | None => (false, t, [])
    end.
Proof.
  revert k. induction m as [| m IH]; intros k Hlen.
  - rewrite drop_ge by lia. reflexivity.
  - destruct (lookup_lt_is_Some_2 (cache t) k) as [c Hc]; [lia |].
    rewrite (drop_S _ _ _ Hc). cbn [seq find]. rewrite for_until_cons.
    rewrite (cache_block_step env chan t k c Hc).
    destruct (requestable c); cbn [result obj_after sent fst snd app]; [reflexivity |].
    rewrite IH by lia. destruct (find requestable (drop (S k) (cache t))); reflexivity.
Qed.

(** X4. The loop over the cache blocks sends a request for the first entry,
    in table order, that is Valid or Dirty and whose bitmap does not cover
    the full mask, and stops there; Invalid and DiskWait entries and complete
    tiles are passed over, and when no entry qualifies nothing is sent and the
    object is left as it was. *)
Theorem cache_scan_requests_first_incomplete_active_entry
  (env : Env) (chan : Z) (t : AP_Terrain Other) :
  request_cache_blocks env chan t
  = match find requestable (cache t) with
    | Some c =>
        (true, set_last_request_time_ms (millis_issue env) t,
         [TERRAIN_REQUEST chan (lat (grid c)) (lon (grid c)) (uint16 (grid_spacing t))
            (Z.land bitmap_mask (not64 (bitmap (grid c))))])
    | None => (false, t, [])
    end
  /\ (forall c, find requestable (cache t) = Some c ->
        (state c = GRID_CACHE_VALID \/ state c = GRID_CACHE_DIRTY)
        /\ Z.land (bitmap (grid c)) bitmap_mask <> bitmap_mask)
  /\ (Forall (fun c => state c = GRID_CACHE_INVALID \/ state c = GRID_CACHE_DISKWAIT
                       \/ Z.land (bitmap (grid c)) bitmap_mask = bitmap_mask) (cache t) ->
      request_cache_blocks env chan t = (false, t, [])).
Proof.
  assert (Heq : request_cache_blocks env chan t
                = match find requestable (cache t) with
                  | Some c =>
                      (true, set_last_request_time_ms (millis_issue env) t,
                       [TERRAIN_REQUEST chan (lat (grid c)) (lon (grid c)) (uint16 (grid_spacing t))
                          (Z.land bitmap_mask (not64 (bitmap (grid c))))])
                  | None => (false, t, [])
                  end).
  { unfold request_cache_blocks. rewrite run_bind.
    cbn [gets result obj_after sent fst snd app].
    rewrite (cache_blocks_from env chan t (length (cache t)) 0) by reflexivity.
    change (drop 0 (cache t)) with (cache t).
    destruct (find requestable (cache t)); reflexivity. }
  split; [exact Heq |]. split.
  - intros c Hfind. apply find_some in Hfind as [_ Hreq]. apply requestable_spec. exact Hreq.
  - intros Hall. rewrite Heq.
    destruct (find requestable (cache t)) as [c |] eqn:Hfind; [| reflexivity].
    apply find_some in Hfind as [Hin Hreq]. apply requestable_spec in Hreq as [Hst Hbm].
    rewrite Forall_forall in Hall. apply list_elem_of_In in Hin.
    destruct (Hall c Hin) as [Hs | [Hs | Hs]]; [| | contradiction];
      destruct Hst as [Hst | Hst]; congruence.
Qed.

Lemma missing_mask_props (b : Z) :
  Z.land b bitmap_mask <> bitmap_mask ->
  Z.land bitmap_mask (not64 b) <> 0
  /\ Z.land (Z.land bitmap_mask (not64 b)) bitmap_mask = Z.land bitmap_mask (not64 b)
  /\ Z.land (Z.land bitmap_mask (not64 b)) b = 0
  /\ Z.lor (Z.land bitmap_mask (not64 b)) (Z.land b bitmap_mask) = bitmap_mask.
Proof.
  intros Hinc.
  assert (Hmask : forall k, 0 <= k -> Z.testbit bitmap_mask k = (k <? 56)).
  { intros k Hk. change bitmap_mask with (Z.ones 56). rewrite Z.testbit_ones by lia.
    destruct (Z.leb_spec 0 k); [reflexivity | lia]. }
  pose proof (missing_mask_bits b) as Hm.
  set (m := Z.land bitmap_mask (not64 b)) in *.
  split; [| split; [| split]].
  - intros Hz. apply Hinc. apply Z.bits_inj'. intros k Hk.
    specialize (Hm k Hk). rewrite Hz, Z.bits_0 in Hm.
    rewrite Z.land_spec, Hmask by exact Hk.
    destruct (k <? 56); destruct (Z.testbit b k); simpl in *; congruence.
  - apply Z.bits_inj'. intros k Hk.
    rewrite Z.land_spec, Hm, Hmask by exact Hk.
    destruct (k <? 56); destruct (Z.testbit b k); reflexivity.
  - apply Z.bits_inj'. intros k Hk.
    rewrite Z.land_spec, Hm, Z.bits_0 by exact Hk.
    destruct (k <? 56); destruct (Z.testbit b k); reflexivity.
  - apply Z.bits_inj'. intros k Hk.
    rewrite Z.lor_spec, Z.land_spec, Hm, Hmask by exact Hk.
    destruct (k <? 56); destruct (Z.testbit b k); reflexivity.
Qed.

(** X5. A request never carries an empty mask: whenever [request_missing]
    sends, the mask it sends is non-zero, lies within the full mask, shares
    no bit with the bitmap of the entry, and together with the bitmap covers
    the full mask. *)
Theorem request_mask_is_exactly_the_missing_chunks
  (now chan : Z) (c : grid_cache) (t : AP_Terrain Other) :
  result (request_missing now chan c t) = true ->
  exists mask,
    sent (request_missing now chan c t)
    = [TERRAIN_REQUEST chan (lat (grid c)) (lon (grid c)) (uint16 (grid_spacing t)) mask]
    /\ mask <> 0
    /\ within_mask mask
    /\ Z.land mask (bitmap (grid c)) = 0
    /\ Z.lor mask (Z.land (bitmap (grid c)) bitmap_mask) = bitmap_mask.
Proof.
  rewrite request_missing_eq.
  destruct (decide _); [discriminate |]. destruct (decide _) as [| Hinc]; [discriminate |].
  intros _. exists (Z.land bitmap_mask (not64 (bitmap (grid c)))).
  destruct (missing_mask_props _ Hinc) as (H0 & Hw & Hd & Hc).
  split; [reflexivity |]. repeat split; assumption.
Qed.

End RequestProperties.

(** * Further properties of the bitmap and of the statistics *)

Lemma popcount_ext (w : nat) (a b : Z) :
  (forall i, 0 <= i < Z.of_nat w -> Z.testbit a i = Z.testbit b i) ->
  popcount w a = popcount w b.
Proof. intros H. rewrite <- !count_bits_popcount. apply count_bits_low. exact H. Qed.

Lemma filter_agrees (P Q : nat -> Prop) `{!forall i, Decision (P i)} `{!forall i, Decision (Q i)}
  (l : list nat) :
  (forall i, i ∈ l -> (Q i <-> P i)) -> filter Q l = filter P l.
Proof.
  induction l as [| y l IH]; intros Hiff; [reflexivity |].
  rewrite !filter_cons.
  assert (Hy : Q y <-> P y) by (apply Hiff; apply elem_of_cons; left; reflexivity).
  assert (Htl : filter Q l = filter P l).
  { apply IH. intros i Hi. apply Hiff. apply elem_of_cons. right. exact Hi. }
  destruct (decide (Q y)) as [Hq | Hq]; destruct (decide (P y)) as [Hp | Hp];
    try tauto; rewrite Htl; reflexivity.
Qed.

Lemma filter_gains_one (P Q : nat -> Prop) `{!forall i, Decision (P i)} `{!forall i, Decision (Q i)}
  (l : list nat) (g : nat) :
  NoDup l -> g ∈ l ->
  (forall i, i ∈ l -> i <> g -> (Q i <-> P i)) ->
  Q g -> ~ P g ->
  length (filter Q l) = S (length (filter P l)).
Proof.
  induction l as [| x l IH]; intros Hnd Hin Hiff HQ HP.
  - apply elem_of_nil in Hin. contradiction.
  - apply NoDup_cons in Hnd as [Hx Hnd]. rewrite !filter_cons.
    destruct (decide (x = g)) as [-> | Hne].
    + rewrite decide_True by exact HQ. rewrite decide_False by exact HP.
      cbn [length]. f_equal. f_equal. apply filter_agrees.
      intros i Hi. apply Hiff; [apply elem_of_cons; right; exact Hi |].
      intros ->. apply Hx. exact Hi.
    + assert (Hxi : Q x <-> P x).
      { apply Hiff; [apply elem_of_cons; left; reflexivity | exact Hne]. }
      assert (Hrec : length (filter Q l) = S (length (filter P l))).
      { apply IH; try assumption.
        - apply elem_of_cons in Hin as [Hin | Hin]; [congruence | exact Hin].
        - intros i Hi. apply Hiff. apply elem_of_cons. right. exact Hi. }
      destruct (decide (Q x)) as [Hq | Hq]; destruct (decide (P x)) as [Hp | Hp];
        try tauto; cbn [length]; rewrite Hrec; reflexivity.
Qed.

Lemma testbit_lor_bit (b g i : Z) :
  0 <= g -> 0 <= i ->
  Z.testbit (Z.lor b (Z.shiftl 1 g)) i = Z.testbit b i || (g =? i).
Proof.
  intros Hg Hi. rewrite Z.lor_spec, Z.shiftl_1_l, Z.pow2_bits_eqb by lia. reflexivity.
Qed.

Lemma popcount_set_bit (w : nat) (b g : Z) :
  0 <= g < Z.of_nat w ->
  popcount w (Z.lor b (Z.shiftl 1 g))
  = popcount w b + (if Z.testbit b g then 0 else 1).
Proof.
  intros Hg. destruct (Z.testbit b g) eqn:Hb.
  - rewrite Z.add_0_r. apply popcount_ext. intros i Hi.
    rewrite testbit_lor_bit by lia. destruct (Z.eqb_spec g i) as [<- | Hne].
    + rewrite Hb. reflexivity.
    + apply orb_false_r.
  - unfold popcount.
    rewrite (filter_gains_one (fun i : nat => Z.testbit b (Z.of_nat i) = true)
               (fun i : nat => Z.testbit (Z.lor b (Z.shiftl 1 g)) (Z.of_nat i) = true)
               (seq 0 w) (Z.to_nat g)).
    + lia.
    + apply NoDup_seq.
    + apply elem_of_seq. lia.
    + intros i _ Hne. rewrite testbit_lor_bit by lia.
      destruct (Z.eqb_spec g (Z.of_nat i)) as [Heq | _]; [lia |].
      rewrite orb_false_r. reflexivity.
    + rewrite testbit_lor_bit by lia. rewrite Z2Nat.id by lia.
      rewrite Z.eqb_refl. apply orb_true_r.
    + rewrite Z2Nat.id by lia. rewrite Hb. discriminate.
Qed.

Lemma within_mask_bits (b k : Z) :
  within_mask b -> 0 <= k -> Z.testbit b k = true -> k < 56.
Proof.
  intros Hw Hk Hb. unfold within_mask in Hw. rewrite <- Hw in Hb.
  change bitmap_mask with (Z.ones 56) in Hb.
  rewrite Z.land_spec, Z.testbit_ones in Hb by lia.
  destruct (Z.ltb_spec k 56); [assumption |].
  rewrite !andb_false_r in Hb. discriminate Hb.
Qed.

Lemma within_mask_popcount (b : Z) : within_mask b -> popcount 64 b <= 56.
Proof.
  intros Hw. change 64%nat with (56 + 8)%nat. rewrite popcount_split.
  assert (Hhi : popcount 8 (Z.shiftr b (Z.of_nat 56)) = popcount 8 0).
  { apply popcount_ext. intros i Hi. rewrite Z.shiftr_spec, Z.bits_0 by lia.
    destruct (Z.testbit b (i + Z.of_nat 56)) eqn:Hb; [| reflexivity].
    apply within_mask_bits in Hb; [lia | exact Hw | lia]. }
  rewrite Hhi. pose proof (popcount_range 56 b).
  change (popcount 8 0) with 0. lia.
Qed.

Lemma popcount_uint64 (b : Z) : popcount 64 (uint64 b) = popcount 64 b.
Proof.
  apply popcount_ext. intros i Hi. unfold uint64. rewrite wrap_testbit by lia.
  destruct (Z.ltb_spec i 64); [reflexivity | lia].
Qed.

Lemma ingested_bitmap_popcount (b g : Z) :
  0 <= g < 64 ->
  popcount 64 (uint64 (Z.lor b (uint64 (Z.shiftl 1 g))))
  = popcount 64 b + (if Z.testbit b g then 0 else 1).
Proof.
  intros Hg. rewrite popcount_uint64, <- (popcount_set_bit 64 b g) by lia.
  apply popcount_ext. intros i Hi. unfold uint64.
  rewrite !Z.lor_spec, wrap_testbit by lia.
  destruct (Z.ltb_spec i 64); [reflexivity | lia].
Qed.

Lemma ingested_bitmap_within_mask (b g : Z) :
  within_mask b -> 0 <= g < 56 ->
  within_mask (uint64 (Z.lor b (uint64 (Z.shiftl 1 g)))).
Proof.
  intros Hw Hg. unfold within_mask. apply Z.bits_inj'. intros k Hk.
  change bitmap_mask with (Z.ones 56). unfold uint64.
  rewrite Z.land_spec, Z.testbit_ones, wrap_testbit, Z.lor_spec, wrap_testbit by lia.
  rewrite Z.shiftl_1_l, Z.pow2_bits_eqb by lia.
  destruct (Z.leb_spec 0 k); [| lia].
  destruct (Z.testbit b k) eqn:Hb.
  - apply within_mask_bits in Hb; [| assumption | lia].
    destruct (Z.ltb_spec k 56); [| lia]. destruct (Z.ltb_spec k 64); [| lia].
    destruct (g =? k); reflexivity.
  - destruct (Z.eqb_spec g k) as [<- | Hne].
    + destruct (Z.ltb_spec g 56); [| lia]. destruct (Z.ltb_spec g 64); [| lia]. reflexivity.
    + destruct (k <? 64); destruct (k <? 56); reflexivity.
Qed.

(** X14. Setting one bit below 64 raises [bitcount64] by one when the bit was
    clear and leaves it as it is when the bit was set; a bitmap with no bit
    outside the full mask counts at most 56. *)
Theorem bitcount64_after_setting_a_bit (b g : Z) :
  0 <= g < 64 ->
  bitcount64 (Z.lor b (Z.shiftl 1 g)) = bitcount64 b + (if Z.testbit b g then 0 else 1)
  /\ (within_mask b -> bitcount64 b <= 56).
Proof.
  intros Hg. rewrite !bitcount64_is_popcount. split.
  - apply popcount_set_bit. lia.
  - apply within_mask_popcount.
Qed.

Lemma get_statistics_exact (tbl : list grid_cache) :
  56 * Z.of_nat (length tbl) < 2 ^ 16 ->
  Forall (fun c => within_mask (bitmap (grid c))) tbl ->
  get_statistics tbl = (sum_Z (fst ∘ contribution <$> tbl), sum_Z (snd ∘ contribution <$> tbl))
  /\ 0 <= sum_Z (fst ∘ contribution <$> tbl)
  /\ 0 <= sum_Z (snd ∘ contribution <$> tbl).
Proof.
  intros Hlen Hall. rewrite get_statistics_wraps.
  destruct (contribution_bounds tbl) as [Hp Hl].
  { eapply Forall_impl; [exact Hall |]. intros c Hc. apply within_mask_popcount. exact Hc. }
  unfold uint16. rewrite !wrap_small by lia. split; [reflexivity | lia].
Qed.

Lemma contribution_total (tbl : list grid_cache) :
  sum_Z (fst ∘ contribution <$> tbl) + sum_Z (snd ∘ contribution <$> tbl) = 56 * tracked tbl.
Proof.
  unfold tracked. induction tbl as [| c tbl IH]; [reflexivity |].
  cbn [fmap list_fmap sum_Z foldr compose]. fold (sum_Z (fst ∘ contribution <$> tbl)).
  fold (sum_Z (snd ∘ contribution <$> tbl)). rewrite filter_cons.
  set (sp := sum_Z (fst ∘ contribution <$> tbl)) in *.
  set (sl := sum_Z (snd ∘ contribution <$> tbl)) in *.
  set (n := length (filter (fun c0 : grid_cache => state c0 <> GRID_CACHE_INVALID) tbl)) in *.
  unfold contribution. destruct (state c); simpl; lia.
Qed.

(** X12. As long as the counters cannot overflow (at most 1170 entries, no
    bitmap with a bit outside the full mask), the pending and loaded counts
    of [get_statistics] add up to 56 times the number of entries that are
    not Invalid, and each of them is between 0 and that total. *)
Theorem statistics_account_for_every_chunk (tbl : list grid_cache) :
  56 * Z.of_nat (length tbl) < 2 ^ 16 ->
  Forall (fun c => within_mask (bitmap (grid c))) tbl ->
  fst (get_statistics tbl) + snd (get_statistics tbl) = 56 * tracked tbl
  /\ 0 <= fst (get_statistics tbl) <= 56 * tracked tbl
  /\ 0 <= snd (get_statistics tbl) <= 56 * tracked tbl.
Proof.
  intros Hlen Hall. destruct (get_statistics_exact tbl Hlen Hall) as (-> & Hp & Hl).
  cbn [fst snd]. pose proof (contribution_total tbl). lia.
Qed.

Lemma sum_Z_fmap_alter (f : grid_cache -> Z) (g : grid_cache -> grid_cache)
  (i : nat) (l : list grid_cache) (c : grid_cache) :
  l !! i = Some c ->
  sum_Z (f <$> alter g i l) = sum_Z (f <$> l) - f c + f (g c).
Proof.
  revert i. induction l as [| x l IH]; intros i Hc; [destruct i; discriminate Hc |].
  destruct i as [| i].
  - injection Hc as ->. cbn [alter list_alter fmap list_fmap sum_Z foldr].
    fold (sum_Z (f <$> l)). lia.
  - cbn [alter list_alter fmap list_fmap sum_Z foldr] in *.
    fold (sum_Z (f <$> l)). fold (sum_Z (f <$> alter g i l)).
    rewrite (IH i Hc). lia.
Qed.

Section StatisticsAfterIngestion.
Context `{C : Collaborators}.

Lemma ingested_within_mask (p : mavlink_terrain_data_t) (t : AP_Terrain Other) (c : grid_cache) :
  cache t !! scan_cache p (cache t) = Some c ->
  0 <= td_gridbit p ->
  Forall (fun c0 => within_mask (bitmap (grid c0))) (cache t) ->
  Forall (fun c0 => within_mask (bitmap (grid c0))) (cache (ingested p t)).
Proof.
  intros Hc Hg Hall.
  assert (Hbit : td_gridbit p < 56).
  { apply scan_cache_found in Hc. apply packet_matches_spec in Hc. lia. }
  unfold ingested. cbn [cache set_cache].
  apply Forall_lookup. intros j cj Hj.
  rewrite Forall_lookup in Hall.
  rewrite list_lookup_alter in Hj. destruct (decide (scan_cache p (cache t) = j)) as [<- | Hne].
  - rewrite Hc in Hj. injection Hj as <-.
    unfold apply_terrain_data, ASSERT_RANGE. cbn [grid bitmap].
    apply ingested_bitmap_within_mask; [| lia]. apply (Hall _ _ Hc).
  - apply (Hall _ _ Hj).
Qed.

(** X11. While the counters cannot overflow, applying a payload to an entry
    that is Valid or Dirty moves one chunk from pending to loaded in the
    statistics when the chunk was missing, and leaves the statistics as they
    were when the chunk was already there. *)
Theorem ingestion_moves_one_chunk_to_loaded
  (packet : mavlink_terrain_data_t) (t : AP_Terrain Other) (c : grid_cache) :
  cache t !! scan_cache packet (cache t) = Some c ->
  0 <= td_gridbit packet ->
  state c = GRID_CACHE_VALID \/ state c = GRID_CACHE_DIRTY ->
  56 * Z.of_nat (length (cache t)) < 2 ^ 16 ->
  Forall (fun c0 => within_mask (bitmap (grid c0))) (cache t) ->
  get_statistics (cache (ingested packet t))
  = if Z.testbit (bitmap (grid c)) (td_gridbit packet)
    then get_statistics (cache t)
    else (fst (get_statistics (cache t)) - 1, snd (get_statistics (cache t)) + 1).
Proof.
  intros Hc Hg Hst Hlen Hall.
  assert (Hbit : td_gridbit packet < 56).
  { apply scan_cache_found in Hc. apply packet_matches_spec in Hc. lia. }
  pose proof (ingested_within_mask packet t c Hc Hg Hall) as Hall'.
  destruct (get_statistics_exact (cache t) Hlen Hall) as (Hold & _ & _).
  destruct (get_statistics_exact (cache (ingested packet t))) as (Hnew & _ & _);
    [unfold ingested; cbn [cache set_cache]; rewrite length_alter; exact Hlen | exact Hall' |].
  rewrite Hnew, Hold. cbn [fst snd]. unfold ingested. cbn [cache set_cache].
  rewrite !(sum_Z_fmap_alter _ _ _ _ c Hc).
  assert (Hcon : contribution (apply_terrain_data packet c)
                 = (56 - (popcount 64 (bitmap (grid c))
                          + (if Z.testbit (bitmap (grid c)) (td_gridbit packet) then 0 else 1)),
                    popcount 64 (bitmap (grid c))
                    + (if Z.testbit (bitmap (grid c)) (td_gridbit packet) then 0 else 1))).
  { unfold contribution, apply_terrain_data, ASSERT_RANGE. cbn [state grid bitmap].
    rewrite ingested_bitmap_popcount by lia. reflexivity. }
  assert (Hcold : contribution c
                  = (56 - popcount 64 (bitmap (grid c)), popcount 64 (bitmap (grid c)))).
  { unfold contribution. destruct Hst as [-> | ->]; reflexivity. }
  unfold compose. rewrite Hcon, Hcold. cbn [fst snd].
  destruct (Z.testbit (bitmap (grid c)) (td_gridbit packet)); f_equal; lia.
Qed.

End StatisticsAfterIngestion.

(** * Further properties of the ingestion *)

Lemma scan_cache_no_address (p : mavlink_terrain_data_t) (tbl : list grid_cache) :
  Forall (fun c => address c <> packet_address p) tbl -> scan_cache p tbl = length tbl.
Proof.
  induction 1 as [| c tbl Hc _ IH]; [reflexivity |].
  cbn [scan_cache length]. destruct (packet_matches p c) eqn:Hm.
  - apply packet_matches_spec in Hm as [Ha _]. contradiction.
  - rewrite IH. reflexivity.
Qed.

Lemma scan_cache_first_match (p : mavlink_terrain_data_t) (tbl : list grid_cache)
  (i : nat) (c : grid_cache) :
  tbl !! i = Some c ->
  address c = packet_address p -> td_gridbit p < 56 ->
  (forall j c', (j < i)%nat -> tbl !! j = Some c' -> address c' <> packet_address p) ->
  scan_cache p tbl = i.
Proof.
  revert i. induction tbl as [| x tbl IH]; intros i Hc Ha Hb Hbefore;
    [destruct i; discriminate Hc |].
  cbn [scan_cache]. destruct i as [| i].
  - injection Hc as ->. rewrite (proj2 (packet_matches_spec p c)) by (split; assumption).
    reflexivity.
  - destruct (packet_matches p x) eqn:Hm.
    + apply packet_matches_spec in Hm as [Hax _].
      exfalso. apply (Hbefore 0%nat x); [lia | reflexivity | exact Hax].
    + f_equal. apply IH; try assumption.
      intros j c' Hj Hc'. apply (Hbefore (S j) c'); [lia | exact Hc'].
Qed.

Section IngestionProperties.
Context `{C : Collaborators}.

(** X6. A payload is applied to the first entry of the table, in table
    order, whose address equals the address of the payload, and only to it,
    even when a later entry has the same address; a payload whose address no
    entry has is dropped with the object left as it was and nothing sent. *)
Theorem payload_goes_to_first_entry_with_its_address
  (packet : mavlink_terrain_data_t) (t : AP_Terrain Other) :
  (Forall (fun c => address c <> packet_address packet) (cache t) ->
   handle_terrain_data packet t = (tt, t, []))
  /\ (forall i c,
        cache t !! i = Some c ->
        address c = packet_address packet -> td_gridbit packet < 56 ->
        (forall j c', (j < i)%nat -> cache t !! j = Some c' -> address c' <> packet_address packet) ->
        handle_terrain_data packet t = (tt, update (ingested packet t), [])
        /\ cache (ingested packet t) !! i = Some (apply_terrain_data packet c)
        /\ (forall j, j <> i -> cache (ingested packet t) !! j = cache t !! j)).
Proof.
  split.
  - intros Hno. apply handle_terrain_data_discard. apply scan_cache_no_address. exact Hno.
  - intros i c Hc Ha Hb Hbefore.
    pose proof (scan_cache_first_match packet (cache t) i c Hc Ha Hb Hbefore) as Hscan.
    rewrite <- Hscan in Hc. rewrite <- Hscan.
    apply handle_terrain_data_found. exact Hc.
Qed.

(** X8. Ingestion only adds to a bitmap: every bit that was set in the
    bitmap of the entry is still set afterwards, the bitmap stays a 64-bit
    value, and a bitmap with no bit outside the full mask stays so. *)
Theorem ingestion_only_adds_bits
  (packet : mavlink_terrain_data_t) (t : AP_Terrain Other) (c : grid_cache) :
  cache t !! scan_cache packet (cache t) = Some c ->
  0 <= td_gridbit packet ->
  exists c',
    cache (ingested packet t) !! scan_cache packet (cache t) = Some c'
    /\ (forall k, 0 <= k < 64 -> Z.testbit (bitmap (grid c)) k = true ->
          Z.testbit (bitmap (grid c')) k = true)
    /\ 0 <= bitmap (grid c') < 2 ^ 64
    /\ (within_mask (bitmap (grid c)) -> within_mask (bitmap (grid c'))).
Proof.
  intros Hc Hg.
  assert (Hbit : td_gridbit packet < 56).
  { apply scan_cache_found in Hc. apply packet_matches_spec in Hc. lia. }
  destruct (handle_terrain_data_found packet t c Hc) as (_ & Hi & _).
  exists (apply_terrain_data packet c). split; [exact Hi |].
  unfold apply_terrain_data, ASSERT_RANGE. cbn [grid bitmap]. split; [| split].
  - intros k Hk Hset. unfold uint64. rewrite wrap_testbit, Z.lor_spec, Hset by lia.
    destruct (Z.ltb_spec k 64); [reflexivity | lia].
  - apply wrap_range. lia.
  - intros Hw. apply ingested_bitmap_within_mask; [exact Hw | lia].
Qed.

End IngestionProperties.

Lemma union_bits_covers (ps : list mavlink_terrain_data_t) (p : mavlink_terrain_data_t) :
  Forall (fun q => 0 <= td_gridbit q) ps -> p ∈ ps ->
  Z.testbit (union_bits ps) (td_gridbit p) = true.
Proof.
  induction 1 as [| q ps Hq _ IH]; intros Hin.
  - apply elem_of_nil in Hin. contradiction.
  - cbn [union_bits foldr]. fold (union_bits ps). rewrite Z.lor_spec.
    apply elem_of_cons in Hin as [-> | Hin].
    + unfold chunk_bit. rewrite Z.shiftl_1_l, Z.pow2_bits_eqb, Z.eqb_refl by lia. reflexivity.
    + rewrite (IH Hin). apply orb_true_r.
Qed.

Section Completion.
Context `{C : Collaborators}.
Hypothesis update_keeps_grids : keeps_grids update.

(** X9. Once a payload has been delivered for a chunk, no later request for
    the tile asks for that chunk again; and once payloads have been delivered
    for all 56 chunks, [request_missing] finds nothing to do for the tile. *)
Theorem delivered_chunks_are_not_requested_again
  (t : AP_Terrain Other) (i : nat) (c0 : grid_cache) (ps : list mavlink_terrain_data_t) :
  cache t !! i = Some c0 ->
  0 <= bitmap (grid c0) < 2 ^ 64 ->
  Forall (fun p => scan_cache p (cache t) = i /\ 0 <= td_gridbit p) ps ->
  exists c',
    cache (deliver ps t) !! i = Some c'
    /\ (forall p, p ∈ ps ->
          Z.testbit (Z.land bitmap_mask (not64 (bitmap (grid c')))) (td_gridbit p) = false)
    /\ ((forall k, 0 <= k < 56 -> exists p, p ∈ ps /\ td_gridbit p = k) ->
        forall now chan t', request_missing now chan c' t' = (false, t', [])).
Proof.
  intros Hc Hb Hall.
  pose proof (deliver_bitmap update_keeps_grids ps t i c0 Hc Hb Hall) as Hbm.
  unfold bitmap_at in Hbm.
  destruct (cache (deliver ps t) !! i) as [c' |] eqn:Hc'; [| discriminate Hbm].
  cbn in Hbm. injection Hbm as Hbm.
  assert (Hpos : Forall (fun q => 0 <= td_gridbit q) ps).
  { eapply Forall_impl; [exact Hall |]. intros q [_ Hq]. exact Hq. }
  exists c'. split; [reflexivity |]. split.
  - intros p Hp. rewrite Forall_forall in Hpos.
    rewrite missing_mask_bits by (apply Hpos; exact Hp).
    rewrite Hbm, Z.lor_spec, (union_bits_covers ps p) by (try apply Forall_forall; assumption).
    rewrite orb_true_r. apply andb_false_r.
  - intros Hcover now chan t'. rewrite request_missing_eq.
    destruct (decide _); [reflexivity |]. rewrite decide_True; [reflexivity |].
    apply Z.bits_inj'. intros k Hk. change bitmap_mask with (Z.ones 56).
    rewrite Z.land_spec, Z.testbit_ones by lia.
    destruct (Z.leb_spec 0 k); [| lia]. destruct (Z.ltb_spec k 56) as [Hlt | Hge].
    + destruct (Hcover k) as (p & Hp & Hpk); [lia |].
      rewrite Hbm, Z.lor_spec. rewrite <- Hpk, (union_bits_covers ps p Hpos Hp).
      rewrite orb_true_r. reflexivity.
    + apply andb_false_r.
Qed.

End Completion.

Lemma write_chunk_disjoint (h : list (list Z)) (p q : mavlink_terrain_data_t) :
  0 <= td_gridbit p < 56 -> 0 <= td_gridbit q < 56 -> td_gridbit p <> td_gridbit q ->
  write_chunk (write_chunk h (idx_x_of q) (idx_y_of q) (td_data q))
    (idx_x_of p) (idx_y_of p) (td_data p)
  = write_chunk (write_chunk h (idx_x_of p) (idx_y_of p) (td_data p))
      (idx_x_of q) (idx_y_of q) (td_data q).
Proof.
  intros Hp Hq Hne.
  destruct (idx_bounds p Hp) as (Hpx & Hpy & Hpxr & Hpyr).
  destruct (idx_bounds q Hq) as (Hqx & Hqy & Hqxr & Hqyr).
  rewrite !write_chunk_writes. apply matrix_ext.
  - rewrite !length_apply_writes. reflexivity.
  - intros i j. rewrite !cell_apply_writes. rewrite !last_write_chunk by lia.
    destruct (decide (idx_x_of p <= Z.of_nat i < idx_x_of p + 4
                      /\ idx_y_of p <= Z.of_nat j < idx_y_of p + 4)) as [Hinp | Hinp];
      destruct (decide (idx_x_of q <= Z.of_nat i < idx_x_of q + 4
                        /\ idx_y_of q <= Z.of_nat j < idx_y_of q + 4)) as [Hinq | Hinq];
      try (destruct (cell h i j); reflexivity).
    exfalso. apply Hne. rewrite Hpx, Hpy in Hinp. rewrite Hqx, Hqy in Hinq.
    clear - Hinp Hinq Hp Hq. Z.div_mod_to_equations. lia.
Qed.

Lemma grid_after_comm (p q : mavlink_terrain_data_t) (g : grid_block) :
  0 <= td_gridbit p < 56 -> 0 <= td_gridbit q < 56 -> td_gridbit p <> td_gridbit q ->
  grid_after p (grid_after q g) = grid_after q (grid_after p g).
Proof.
  intros Hp Hq Hne. unfold grid_after, apply_terrain_data, ASSERT_RANGE.
  cbn [grid lat lon spacing bitmap height].
  rewrite (write_chunk_disjoint (height g) p q Hp Hq Hne). f_equal.
  apply Z.bits_inj'. intros k Hk. unfold uint64.
  rewrite !wrap_testbit, !Z.lor_spec, !wrap_testbit, !Z.lor_spec, !wrap_testbit by lia.
  destruct (k <? 64); destruct (Z.testbit (bitmap g) k);
    destruct (Z.testbit (Z.shiftl 1 (td_gridbit p)) k);
    destruct (Z.testbit (Z.shiftl 1 (td_gridbit q)) k); reflexivity.
Qed.

Lemma grid_after_all_perm (ps ps' : list mavlink_terrain_data_t) :
  ps ≡ₚ ps' ->
  NoDup (td_gridbit <$> ps) ->
  Forall (fun p => 0 <= td_gridbit p < 56) ps ->
  forall g, grid_after_all ps g = grid_after_all ps' g.
Proof.
  unfold grid_after_all.
  induction 1 as [| x l l' Hl IH | x y l | l1 l2 l3 H12 IH1 H23 IH2]; intros Hnd Hall g.
  - reflexivity.
  - cbn [foldl]. cbn [fmap list_fmap] in Hnd. apply NoDup_cons in Hnd as [_ Hnd].
    apply Forall_cons in Hall as [_ Hall]. apply IH; assumption.
  - cbn [foldl]. cbn [fmap list_fmap] in Hnd.
    apply NoDup_cons in Hnd as [Hy _]. apply Forall_cons in Hall as [Hry Hall].
    apply Forall_cons in Hall as [Hrx _].
    rewrite (grid_after_comm x y g Hrx Hry); [reflexivity |].
    intros Heq. apply Hy. rewrite <- Heq. apply elem_of_cons. left. reflexivity.
  - rewrite IH1 by assumption. apply IH2.
    + rewrite <- H12. exact Hnd.
    + rewrite <- H12. exact Hall.
Qed.

Section TileContents.
Context `{C : Collaborators}.
Hypothesis update_keeps_grids : keeps_grids update.

Lemma deliver_addresses (ps : list mavlink_terrain_data_t) (t : AP_Terrain Other) :
  address <$> cache (deliver ps t) = address <$> cache t.
Proof.
  revert t. induction ps as [| p ps IH]; intros t; [reflexivity |].
  unfold deliver. cbn [foldl]. fold (deliver ps (obj_after (handle_terrain_data p t))).
  rewrite IH. apply addresses_after_packet. exact update_keeps_grids.
Qed.

Lemma deliver_grids (ps : list mavlink_terrain_data_t) (t : AP_Terrain Other) (i : nat) :
  (i < length (cache t))%nat ->
  Forall (fun p => scan_cache p (cache t) = i) ps ->
  grid <$> cache (deliver ps t) = alter (grid_after_all ps) i (grid <$> cache t).
Proof.
  revert t. induction ps as [| p ps IH]; intros t Hi Hall.
  - unfold deliver. cbn [foldl]. symmetry. apply list_alter_id. reflexivity.
  - apply Forall_cons in Hall as [Hp Hall].
    unfold deliver. cbn [foldl]. fold (deliver ps (obj_after (handle_terrain_data p t))).
    pose proof (addresses_after_packet update_keeps_grids p t) as Haddr.
    rewrite IH.
    + rewrite (grids_after_packet update_keeps_grids p t), Hp.
      rewrite decide_False by lia. rewrite list_alter_alter_eq.
      apply list_alter_ext; [| reflexivity]. intros g _. reflexivity.
    + rewrite <- (length_fmap address), Haddr, length_fmap. exact Hi.
    + eapply Forall_impl; [exact Hall |]. intros q Hq. rewrite <- Hq.
      apply scan_cache_address. exact Haddr.
Qed.

(** X7. Ingestion never adds, removes or re-addresses a tracked tile: after
    any sequence of payloads the table has the same size and the same
    addresses in the same places, so a payload is dropped after the sequence
    exactly when it would have been dropped before it; and none of it sends
    a message. *)
Theorem ingestion_keeps_the_tracked_tiles
  (ps : list mavlink_terrain_data_t) (t : AP_Terrain Other) (q : mavlink_terrain_data_t) :
  address <$> cache (deliver ps t) = address <$> cache t
  /\ length (cache (deliver ps t)) = length (cache t)
  /\ scan_cache q (cache (deliver ps t)) = scan_cache q (cache t)
  /\ (sent (handle_terrain_data q (deliver ps t)) = []
      /\ (scan_cache q (cache (deliver ps t)) = length (cache (deliver ps t))
          <-> scan_cache q (cache t) = length (cache t))).
Proof.
  pose proof (deliver_addresses ps t) as Haddr.
  assert (Hlen : length (cache (deliver ps t)) = length (cache t)).
  { rewrite <- (length_fmap address), Haddr, length_fmap. reflexivity. }
  pose proof (scan_cache_address q _ _ Haddr) as Hscan.
  split; [exact Haddr |]. split; [exact Hlen |]. split; [exact Hscan |]. split.
  - rewrite handle_terrain_data_eq. destruct (decide _); reflexivity.
  - rewrite Hscan, Hlen. reflexivity.
Qed.

(** X10. Payloads for different chunks of one tile write disjoint cells: when
    the payloads of a sequence all find the same entry and no two of them
    name the same chunk, every order of delivery leaves the same matrix and
    the same bitmap in every tile of the table. *)
Theorem distinct_chunks_commute
  (t : AP_Terrain Other) (i : nat) (c0 : grid_cache) (ps ps' : list mavlink_terrain_data_t) :
  cache t !! i = Some c0 ->
  Forall (fun p => scan_cache p (cache t) = i /\ 0 <= td_gridbit p) ps ->
  NoDup (td_gridbit <$> ps) ->
  ps' ≡ₚ ps ->
  grid <$> cache (deliver ps' t) = grid <$> cache (deliver ps t).
Proof.
  intros Hc Hall Hnd Hperm.
  apply lookup_lt_Some in Hc as Hi.
  assert (Hscan : Forall (fun p => scan_cache p (cache t) = i) ps).
  { eapply Forall_impl; [exact Hall |]. intros p [Hp _]. exact Hp. }
  assert (Hrange : Forall (fun p => 0 <= td_gridbit p < 56) ps).
  { eapply Forall_impl; [exact Hall |]. intros p [Hp Hg]. split; [exact Hg |].
    rewrite <- Hp in Hc. apply scan_cache_found in Hc. apply packet_matches_spec in Hc. lia. }
  rewrite (deliver_grids ps t i Hi Hscan).
  rewrite (deliver_grids ps' t i Hi) by (rewrite Hperm; exact Hscan).
  apply list_alter_ext; [| reflexivity]. intros g _.
  symmetry. apply grid_after_all_perm; [symmetry; exact Hperm | exact Hnd | exact Hrange].
Qed.

End TileContents.

(** * Further properties of the reports *)

Section Reports.
Context `{C : Collaborators}.

Lemma send_terrain_report_eq (env : Env) (chan : Z) (loc : Location) (t t1 : AP_Terrain Other)
  (ok : bool) (h : F) :
  height_amsl loc (F_of_int 0) t = (ok, h, t1) ->
  send_terrain_report env chan loc t
  = (tt, t1,
     if decide (TERRAIN_REPORT_TXSPACE <= comm_get_txspace env chan)
     then [TERRAIN_REPORT chan (loc_lat loc) (loc_lng loc)
             (if ok then uint16 (grid_spacing t1) else 0) h
             (fst (get_statistics (cache t1))) (snd (get_statistics (cache t1)))]
     else []).
Proof.
  intros Hh. unfold send_terrain_report, bind, call, gets, send, ret, get_statistics_of.
  rewrite Hh. cbn [fst snd app]. destruct (decide _); reflexivity.
Qed.

(** *** Nothing left to request *)

Variable Inv : AP_Terrain Other -> Prop.
Hypothesis Inv_find : forall info t, Inv t -> Inv (snd (find_grid info t)).
Hypothesis Inv_nothing : forall info t, Inv t -> nothing_to_request (fst (find_grid info t)).
Hypothesis Inv_cache :
  forall t, Inv t ->
    Forall (fun c => state c = GRID_CACHE_INVALID \/ nothing_to_request c) (cache t).

Lemma quiet_ret_false : quiet_under Inv (ret false).
Proof. intros t Ht. repeat split. exact Ht. Qed.

Lemma quiet_bind_gets {A : Type} (f : AP_Terrain Other -> A) (k : A -> M bool) :
  (forall a, quiet_under Inv (k a)) -> quiet_under Inv (bind (gets f) k).
Proof.
  intros Hk t Ht. rewrite run_bind. cbn [gets result obj_after sent fst snd app].
  apply Hk. exact Ht.
Qed.

Lemma quiet_for_until {A : Type} (xs : list A) (body : A -> M bool) :
  (forall x, quiet_under Inv (body x)) -> quiet_under Inv (for_until xs body).
Proof.
  intros Hb. induction xs as [| x xs IH]; [apply quiet_ret_false |].
  intros t Ht. rewrite for_until_cons. destruct (Hb x t Ht) as (Hr & Hs & Hi).
  rewrite Hr, Hs. cbn [result obj_after sent fst snd app]. apply IH. exact Hi.
Qed.

Lemma quiet_request_missing_nothing (now chan : Z) (c : grid_cache) (t : AP_Terrain Other) :
  nothing_to_request c -> request_missing now chan c t = (false, t, []).
Proof.
  intros Hn. rewrite request_missing_eq.
  destruct (decide _); [reflexivity |]. destruct (decide _); [reflexivity |].
  destruct Hn; contradiction.
Qed.

Lemma quiet_request_missing_info (now chan : Z) (info : grid_info) :
  quiet_under Inv (request_missing_info now chan info).
Proof.
  intros t Ht. unfold request_missing_info. rewrite run_bind. unfold call.
  pose proof (Inv_find info t Ht) as Hi. pose proof (Inv_nothing info t Ht) as Hn.
  destruct (find_grid info t) as [c t1]. cbn [fst snd] in Hi, Hn.
  cbn [result obj_after sent fst snd app].
  rewrite (quiet_request_missing_nothing now chan c t1 Hn). repeat split. exact Hi.
Qed.

Lemma quiet_request_larger_set (env : Env) (chan : Z) (loc : Location) :
  quiet_under Inv (request_larger_set env chan loc).
Proof.
  apply quiet_for_until. intros x. apply quiet_for_until. intros y.
  apply quiet_bind_gets. intros gs. apply quiet_bind_gets. intros info.
  apply quiet_request_missing_info.
Qed.

Lemma quiet_request_cache_blocks (env : Env) (chan : Z) :
  quiet_under Inv (request_cache_blocks env chan).
Proof.
  intros t Ht.
  assert (Hbody : forall i, quiet_under (fun t0 => t0 = t)
            (bind (gets (fun t0 : AP_Terrain Other => cache t0 !! i))
               (fun oc => match oc with
                          | Some c0 =>
                              if decide (state_ord GRID_CACHE_VALID <= state_ord (state c0))
                              then request_missing (millis_issue env) chan c0
                              else ret false
                          | None => ret false
                          end))).
  { intros i t0 ->. rewrite run_bind. cbn [gets result obj_after sent fst snd app].
    destruct (cache t !! i) as [c |] eqn:Hc; [| repeat split].
    destruct (decide _) as [Ho | Ho]; [| repeat split].
    pose proof (Inv_cache t Ht) as Hall. rewrite Forall_lookup in Hall.
    destruct (Hall i c Hc) as [Hinv | Hn].
    - rewrite Hinv in Ho. simpl in Ho. lia.
    - rewrite (quiet_request_missing_nothing _ _ c t Hn). repeat split. }
  unfold request_cache_blocks. rewrite run_bind.
  cbn [gets result obj_after sent fst snd app].
  assert (Hloop : forall xs, quiet_under (fun t0 => t0 = t)
            (for_until xs (fun i =>
               bind (gets (fun t0 : AP_Terrain Other => cache t0 !! i))
                 (fun oc => match oc with
                            | Some c0 =>
                                if decide (state_ord GRID_CACHE_VALID <= state_ord (state c0))
                                then request_missing (millis_issue env) chan c0
                                else ret false
                            | None => ret false
                            end)))).
  { induction xs as [| x xs IH]; intros t0 ->; [repeat split |].
    rewrite for_until_cons. destruct (Hbody x t eq_refl) as (Hr & Hs & Hi).
    rewrite Hr, Hs, Hi. cbn [result obj_after sent fst snd app]. apply IH. reflexivity. }
  destruct (Hloop (seq 0 (length (cache t))) t eq_refl) as (Hr & Hs & Hi).
  rewrite Hr, Hs, Hi. repeat split. exact Ht.
Qed.

(** X15. When nothing is left to request, that is when every tile the lookup
    returns is in DiskWait or complete and every entry of the table is
    Invalid, in DiskWait or complete, an enabled call of [send_request] past
    the pacing delay and with the position known sends no request: it sends
    the report for the current position if the transport has room, and
    nothing otherwise. *)
Theorem nothing_to_request_gives_report
  (env : Env) (chan : Z) (loc : Location) (t : AP_Terrain Other) :
  enable t <> 0 ->
  2000 <= uint32 (millis_entry env - last_request_time_ms (schedule_disk_io t)) ->
  get_position env = Some loc ->
  Inv (schedule_disk_io t) ->
  requests (sent (send_request env chan t)) = 0%nat
  /\ (TERRAIN_REPORT_TXSPACE <= comm_get_txspace env chan ->
      exists sp h pending loaded,
        sent (send_request env chan t)
        = [TERRAIN_REPORT chan (loc_lat loc) (loc_lng loc) sp h pending loaded])
  /\ (~ TERRAIN_REPORT_TXSPACE <= comm_get_txspace env chan ->
      sent (send_request env chan t) = []).
Proof.
  intros Hen Hpace Hpos Hinv.
  rewrite send_request_eq. rewrite decide_False by exact Hen.
  rewrite decide_False by lia. rewrite Hpos.
  unfold send_request_at. rewrite run_bind. cbn [gets result obj_after sent fst snd app].
  set (info := calculate_grid_info (schedule_disk_io t) loc).
  rewrite run_bind.
  destruct (quiet_request_missing_info (millis_issue env) chan info _ Hinv) as (Hr1 & Hs1 & Hi1).
  rewrite Hr1, Hs1. cbn [result obj_after sent fst snd app].
  set (t1 := obj_after (request_missing_info (millis_issue env) chan info (schedule_disk_io t))) in *.
  rewrite run_bind.
  destruct (quiet_request_larger_set env chan loc t1 Hi1) as (Hr2 & Hs2 & Hi2).
  rewrite Hr2, Hs2. cbn [result obj_after sent fst snd app].
  set (t2 := obj_after (request_larger_set env chan loc t1)) in *.
  rewrite run_bind.
  destruct (quiet_request_cache_blocks env chan t2 Hi2) as (Hr3 & Hs3 & Hi3).
  rewrite Hr3, Hs3. cbn [result obj_after sent fst snd app].
  set (t3 := obj_after (request_cache_blocks env chan t2)) in *.
  rewrite run_bind.
  destruct (quiet_request_missing_info (millis_issue env) chan info t3 Hi3) as (Hr4 & Hs4 & Hi4).
  rewrite Hr4, Hs4. cbn [result obj_after sent fst snd app].
  set (t4 := obj_after (request_missing_info (millis_issue env) chan info t3)) in *.
  destruct (height_amsl loc (F_of_int 0) t4) as [[ok h] t5] eqn:Hh.
  rewrite (send_terrain_report_eq env chan loc t4 t5 ok h Hh). cbn [sent snd].
  destruct (decide _) as [Hroom | Hroom].
  - split; [reflexivity |]. split; [| tauto]. intros _. do 4 eexists. reflexivity.
  - split; [reflexivity |]. split; [tauto | reflexivity].
Qed.

End Reports.

(** * The matrix over a sequence of payloads *)

Lemma matrix_wf_height_set (h : list (list Z)) (i j v : Z) :
  matrix_wf h -> matrix_wf (height_set h i j v).
Proof.
  intros [Hlen Hrows]. split.
  - rewrite length_height_set. exact Hlen.
  - unfold height_set. apply Forall_alter; [exact Hrows |].
    intros row _ Hrow. rewrite length_insert. exact Hrow.
Qed.

Lemma matrix_wf_apply_writes (ws : list (Z * Z * Z)) (h : list (list Z)) :
  matrix_wf h -> matrix_wf (apply_writes h ws).
Proof.
  revert h. induction ws as [| w ws IH]; intros h Hwf; [exact Hwf |].
  unfold apply_writes in *. cbn [foldl]. apply IH. apply matrix_wf_height_set. exact Hwf.
Qed.

Lemma matrix_wf_grid_after (p : mavlink_terrain_data_t) (g : grid_block) :
  matrix_wf (height g) -> matrix_wf (height (grid_after p g)).
Proof.
  intros Hwf. unfold grid_after, apply_terrain_data, ASSERT_RANGE. cbn [grid height].
  rewrite write_chunk_writes. apply matrix_wf_apply_writes. exact Hwf.
Qed.

Section MatrixOverTime.
Context `{C : Collaborators}.
Hypothesis update_keeps_grids : keeps_grids update.

Lemma matrices_after_packet (p : mavlink_terrain_data_t) (t : AP_Terrain Other) :
  Forall (fun g => matrix_wf (height g)) (grid <$> cache t) ->
  Forall (fun g => matrix_wf (height g)) (grid <$> cache (obj_after (handle_terrain_data p t))).
Proof.
  intros Hall. rewrite (grids_after_packet update_keeps_grids p t).
  destruct (decide _); [exact Hall |].
  apply Forall_alter; [exact Hall |]. intros g _ Hg. apply matrix_wf_grid_after. exact Hg.
Qed.

Lemma matrices_after_deliver (ps : list mavlink_terrain_data_t) (t : AP_Terrain Other) :
  Forall (fun g => matrix_wf (height g)) (grid <$> cache t) ->
  Forall (fun g => matrix_wf (height g)) (grid <$> cache (deliver ps t)).
Proof.
  revert t. induction ps as [| p ps IH]; intros t Hall; [exact Hall |].
  unfold deliver. cbn [foldl]. fold (deliver ps (obj_after (handle_terrain_data p t))).
  apply IH. apply matrices_after_packet. exact Hall.
Qed.

(** X16. The matrices keep their 28 x 32 shape through any sequence of
    payloads, so that whatever was delivered before, each of the sixteen
    writes of the next accepted payload lands on an existing cell of the
    matrix of its tile. *)
Theorem writes_stay_in_bounds_after_any_sequence
  (ps : list mavlink_terrain_data_t) (t : AP_Terrain Other)
  (q : mavlink_terrain_data_t) (c : grid_cache) (w : Z * Z * Z) :
  Forall (fun c0 => matrix_wf (height (grid c0))) (cache t) ->
  cache (deliver ps t) !! scan_cache q (cache (deliver ps t)) = Some c ->
  0 <= td_gridbit q ->
  w ∈ chunk_writes (idx_x_of q) (idx_y_of q) (td_data q) ->
  matrix_wf (height (grid c))
  /\ is_Some (cell (height (grid c)) (Z.to_nat (fst (fst w))) (Z.to_nat (snd (fst w)))).
Proof.
  intros Hall Hc Hg Hw.
  assert (Hwf : matrix_wf (height (grid c))).
  { pose proof (matrices_after_deliver ps t) as Hd.
    rewrite !Forall_fmap in Hd. specialize (Hd Hall).
    rewrite Forall_lookup in Hd. apply (Hd _ _ Hc). }
  split; [exact Hwf |].
  assert (Hbit : 0 <= td_gridbit q < 56).
  { apply scan_cache_found in Hc. apply packet_matches_spec in Hc. lia. }
  destruct (idx_bounds q Hbit) as (_ & _ & Hx & Hy).
  destruct (chunk_writes_in_bounds _ _ _ w Hx Hy Hw) as [Hwx Hwy].
  apply cell_wf; [exact Hwf | |].
  - change TERRAIN_GRID_BLOCK_SIZE_X with 28 in *. lia.
  - change TERRAIN_GRID_BLOCK_SIZE_Y with 32 in *. lia.
Qed.

End MatrixOverTime.

(** * The further properties on concrete inputs *)

Lemma sample_find_grid_cache (info : Z * Z) (t : AP_Terrain (list (Z * Z))) :
  cache (snd (sample_find_grid info t)) = cache t
  /\ enable (snd (sample_find_grid info t)) = enable t
  /\ grid_spacing (snd (sample_find_grid info t)) = grid_spacing t
  /\ last_request_time_ms (snd (sample_find_grid info t)) = last_request_time_ms t.
Proof. unfold sample_find_grid. destruct (find _ (cache t)); repeat split. Defined.

Lemma send_request_sends_one_message_at_most_witness :
  sent (send_request (C := sample) (mk_Env 5000 5001 None (fun _ => 64)) 0
          (sample_obj 1 0 [sample_entry 1000 2000 100 0 GRID_CACHE_VALID])) = []
  /\ (length (sent (send_request (C := sample) (sample_env 5000 5001) 0
                      (sample_obj 1 0 [sample_entry 1000 2000 100 0 GRID_CACHE_VALID]))) <= 1)%nat.
Proof.
  split.
  - apply (proj2 (proj2 (proj2 (send_request_sends_one_message_at_most (C := sample)
             (mk_Env 5000 5001 None (fun _ => 64)) 0
             (sample_obj 1 0 [sample_entry 1000 2000 100 0 GRID_CACHE_VALID]))))).
    reflexivity.
  - apply (proj1 (send_request_sends_one_message_at_most (C := sample) (sample_env 5000 5001) 0
                    (sample_obj 1 0 [sample_entry 1000 2000 100 0 GRID_CACHE_VALID]))).
Defined.

Lemma send_request_writes_no_tile_witness :
  same_tiles (sample_obj 1 0 [sample_entry 1000 2000 100 0 GRID_CACHE_VALID])
    (obj_after (send_request (C := sample) (sample_env 5000 5001) 0
                  (sample_obj 1 0 [sample_entry 1000 2000 100 0 GRID_CACHE_VALID]))).
Proof.
  apply (send_request_writes_no_tile (C := sample)).
  - intros info t0. destruct (sample_find_grid_cache info t0) as (Hc & He & Hg & _).
    repeat split; assumption.
  - intros t0. repeat split.
  - intros loc h t0. repeat split.
Defined.

Lemma timestamp_moves_only_on_issue_witness :
  last_request_time_ms
    (obj_after (send_request (C := sample) (sample_env 5000 5001) 0
       (sample_obj 1 7 [sample_entry 1000 2000 100 72057594037927935 GRID_CACHE_VALID]))) = 7
  /\ last_request_time_ms
       (obj_after (handle_data (C := sample) (sample_env 5000 5001) 0
          (MAVLINK_MSG_ID_TERRAIN_DATA (sample_packet 9))
          (sample_obj 1 7 [sample_entry 1000 2000 100 0 GRID_CACHE_VALID]))) = 7.
Proof.
  split.
  - apply (proj1 (timestamp_moves_only_on_issue (C := sample) (sample_env 5000 5001) 0
                    (MAVLINK_MSG_ID_OTHER 0)
                    (sample_obj 1 7 [sample_entry 1000 2000 100 72057594037927935 GRID_CACHE_VALID])
                    (fun info t0 => proj2 (proj2 (proj2 (sample_find_grid_cache info t0))))
                    (fun t0 => eq_refl) (fun loc h t0 => eq_refl) (fun t0 => eq_refl))).
    vm_compute. reflexivity.
  - apply (proj2 (timestamp_moves_only_on_issue (C := sample) (sample_env 5000 5001) 0
                    (MAVLINK_MSG_ID_TERRAIN_DATA (sample_packet 9))
                    (sample_obj 1 7 [sample_entry 1000 2000 100 0 GRID_CACHE_VALID])
                    (fun info t0 => proj2 (proj2 (proj2 (sample_find_grid_cache info t0))))
                    (fun t0 => eq_refl) (fun loc h t0 => eq_refl) (fun t0 => eq_refl))).
Defined.

Lemma cache_scan_requests_first_incomplete_active_entry_witness :
  request_cache_blocks (C := sample) (sample_env 5000 5001) 0
    (sample_obj 1 0 [sample_entry 1 2 100 0 GRID_CACHE_INVALID;
                     sample_entry 3 4 100 5 GRID_CACHE_DISKWAIT;
                     sample_entry 5 6 100 72057594037927935 GRID_CACHE_DIRTY])
  = (false,
     sample_obj 1 0 [sample_entry 1 2 100 0 GRID_CACHE_INVALID;
                     sample_entry 3 4 100 5 GRID_CACHE_DISKWAIT;
                     sample_entry 5 6 100 72057594037927935 GRID_CACHE_DIRTY], []).
Proof.
  apply (proj2 (proj2 (cache_scan_requests_first_incomplete_active_entry (C := sample)
           (sample_env 5000 5001) 0 _))).
  constructor; [left; reflexivity |].
  constructor; [right; left; reflexivity |].
  constructor; [right; right; reflexivity |]. constructor.
Defined.

Lemma request_mask_is_exactly_the_missing_chunks_witness :
  exists mask,
    sent (request_missing (C := sample) 7000 0 (sample_entry 1000 2000 100 7 GRID_CACHE_VALID)
            (sample_obj 1 0 []))
    = [TERRAIN_REQUEST 0 1000 2000 100 mask]
    /\ mask <> 0 /\ Z.land mask 7 = 0.
Proof.
  destruct (request_mask_is_exactly_the_missing_chunks (C := sample) 7000 0
              (sample_entry 1000 2000 100 7 GRID_CACHE_VALID) (sample_obj 1 0 []))
    as (mask & Hs & Hnz & _ & Hd & _).
  - vm_compute. reflexivity.
  - exists mask. split; [exact Hs |]. split; [exact Hnz | exact Hd].
Defined.

Lemma payload_goes_to_first_entry_with_its_address_witness :
  handle_terrain_data (C := sample) (sample_packet 9)
    (sample_obj 1 0 [sample_entry 1000 2000 50 0 GRID_CACHE_VALID])
  = (tt, sample_obj 1 0 [sample_entry 1000 2000 50 0 GRID_CACHE_VALID], [])
  /\ bitmap_at (C := sample) 1
       (ingested (C := sample) (sample_packet 9)
          (sample_obj 1 0 [sample_entry 1000 2000 50 0 GRID_CACHE_VALID;
                           sample_entry 1000 2000 100 0 GRID_CACHE_VALID;
                           sample_entry 1000 2000 100 0 GRID_CACHE_VALID])) = Some 512
  /\ bitmap_at (C := sample) 2
       (ingested (C := sample) (sample_packet 9)
          (sample_obj 1 0 [sample_entry 1000 2000 50 0 GRID_CACHE_VALID;
                           sample_entry 1000 2000 100 0 GRID_CACHE_VALID;
                           sample_entry 1000 2000 100 0 GRID_CACHE_VALID])) = Some 0.
Proof.
  split.
  - apply (proj1 (payload_goes_to_first_entry_with_its_address (C := sample) (sample_packet 9)
                    (sample_obj 1 0 [sample_entry 1000 2000 50 0 GRID_CACHE_VALID]))).
    repeat constructor. vm_compute. discriminate.
  - destruct (proj2 (payload_goes_to_first_entry_with_its_address (C := sample) (sample_packet 9)
                (sample_obj 1 0 [sample_entry 1000 2000 50 0 GRID_CACHE_VALID;
                                 sample_entry 1000 2000 100 0 GRID_CACHE_VALID;
                                 sample_entry 1000 2000 100 0 GRID_CACHE_VALID]))
                1%nat (sample_entry 1000 2000 100 0 GRID_CACHE_VALID))
      as (_ & Hi & Hother).
    + reflexivity.
    + reflexivity.
    + simpl. lia.
    + intros j c' Hj Hc'. destruct j as [| j]; [| lia].
      injection Hc' as <-. vm_compute. discriminate.
    + unfold bitmap_at. rewrite Hi, (Hother 2%nat) by lia. split; reflexivity.
Defined.

Lemma ingestion_keeps_the_tracked_tiles_witness :
  address <$> cache (deliver (C := sample) [sample_packet 3; corrupt_packet 9]
                       (sample_obj 1 0 [sample_entry 5 6 100 0 GRID_CACHE_VALID;
                                        sample_entry 1000 2000 100 1 GRID_CACHE_DISKWAIT]))
  = [(5, 6, 100); (1000, 2000, 100)].
Proof.
  apply (proj1 (ingestion_keeps_the_tracked_tiles (C := sample) sample_update_keeps_grids
                  [sample_packet 3; corrupt_packet 9]
                  (sample_obj 1 0 [sample_entry 5 6 100 0 GRID_CACHE_VALID;
                                   sample_entry 1000 2000 100 1 GRID_CACHE_DISKWAIT])
                  (sample_packet 0))).
Defined.

Lemma ingestion_only_adds_bits_witness :
  exists c',
    cache (ingested (C := sample) (sample_packet 9)
             (sample_obj 1 0 [sample_entry 1000 2000 100 5 GRID_CACHE_VALID])) !! 0%nat = Some c'
    /\ Z.testbit (bitmap (grid c')) 2 = true
    /\ within_mask (bitmap (grid c')).
Proof.
  destruct (ingestion_only_adds_bits (C := sample) (sample_packet 9)
              (sample_obj 1 0 [sample_entry 1000 2000 100 5 GRID_CACHE_VALID])
              (sample_entry 1000 2000 100 5 GRID_CACHE_VALID))
    as (c' & Hc' & Hkeep & _ & Hw).
  - reflexivity.
  - simpl. lia.
  - exists c'. split; [exact Hc' |]. split.
    + apply Hkeep; [lia | reflexivity].
    + apply Hw. reflexivity.
Defined.

Lemma delivered_chunks_are_not_requested_again_witness :
  exists c',
    cache (deliver (C := sample) [sample_packet 3; corrupt_packet 9]
             (sample_obj 1 0 [sample_entry 1000 2000 100 0 GRID_CACHE_VALID])) !! 0%nat = Some c'
    /\ Z.testbit (Z.land bitmap_mask (not64 (bitmap (grid c')))) 3 = false.
Proof.
  destruct (delivered_chunks_are_not_requested_again (C := sample) sample_update_keeps_grids
              (sample_obj 1 0 [sample_entry 1000 2000 100 0 GRID_CACHE_VALID]) 0
              (sample_entry 1000 2000 100 0 GRID_CACHE_VALID)
              [sample_packet 3; corrupt_packet 9])
    as (c' & Hc' & Hnot & _).
  - reflexivity.
  - simpl. lia.
  - repeat (constructor; [split; [reflexivity | simpl; lia] |]). constructor.
  - exists c'. split; [exact Hc' |].
    apply (Hnot (sample_packet 3)). apply elem_of_cons. left. reflexivity.
Defined.

Lemma distinct_chunks_commute_witness :
  grid <$> cache (deliver (C := sample) [corrupt_packet 9; sample_packet 3]
                    (sample_obj 1 0 [sample_entry 1000 2000 100 0 GRID_CACHE_VALID]))
  = grid <$> cache (deliver (C := sample) [sample_packet 3; corrupt_packet 9]
                      (sample_obj 1 0 [sample_entry 1000 2000 100 0 GRID_CACHE_VALID])).
Proof.
  apply (distinct_chunks_commute (C := sample) sample_update_keeps_grids
           (sample_obj 1 0 [sample_entry 1000 2000 100 0 GRID_CACHE_VALID]) 0
           (sample_entry 1000 2000 100 0 GRID_CACHE_VALID)).
  - reflexivity.
  - repeat (constructor; [split; [reflexivity | simpl; lia] |]). constructor.
  - apply NoDup_cons. split; [| apply NoDup_singleton].
    intros Hin. apply elem_of_cons in Hin as [Hin | Hin]; [discriminate Hin |].
    apply elem_of_nil in Hin. exact Hin.
  - apply perm_swap.
Defined.

Lemma sample_table_within_mask (la lo sp : Z) (st : GridCacheState) :
  within_mask (bitmap (grid (sample_entry la lo sp 5 st))).
Proof. reflexivity. Defined.

Lemma ingestion_moves_one_chunk_to_loaded_witness :
  get_statistics (cache (ingested (C := sample) (sample_packet 9)
                           (sample_obj 1 0 [sample_entry 1000 2000 100 5 GRID_CACHE_VALID])))
  = (if Z.testbit 5 9 then (54, 2) else (54 - 1, 2 + 1)).
Proof.
  apply (ingestion_moves_one_chunk_to_loaded (C := sample) (sample_packet 9)
           (sample_obj 1 0 [sample_entry 1000 2000 100 5 GRID_CACHE_VALID])
           (sample_entry 1000 2000 100 5 GRID_CACHE_VALID)).
  - reflexivity.
  - simpl. lia.
  - left. reflexivity.
  - simpl. lia.
  - constructor; [apply sample_table_within_mask | constructor].
Defined.

Lemma statistics_account_for_every_chunk_witness :
  fst (get_statistics [sample_entry 1 2 100 5 GRID_CACHE_INVALID;
                       sample_entry 3 4 100 5 GRID_CACHE_DISKWAIT;
                       sample_entry 5 6 100 5 GRID_CACHE_DIRTY])
  + snd (get_statistics [sample_entry 1 2 100 5 GRID_CACHE_INVALID;
                         sample_entry 3 4 100 5 GRID_CACHE_DISKWAIT;
                         sample_entry 5 6 100 5 GRID_CACHE_DIRTY])
  = 56 * 2.
Proof.
  destruct (statistics_account_for_every_chunk
              [sample_entry 1 2 100 5 GRID_CACHE_INVALID;
               sample_entry 3 4 100 5 GRID_CACHE_DISKWAIT;
               sample_entry 5 6 100 5 GRID_CACHE_DIRTY]) as [Hsum _].
  - simpl. lia.
  - repeat (constructor; [apply sample_table_within_mask |]). constructor.
  - exact Hsum.
Defined.

Lemma inbound_handling_sends_no_request_witness :
  sent (handle_data (C := sample) (mk_Env 5000 5001 (Some (mk_Location 1000 2000)) (fun _ => 0)) 0
          (MAVLINK_MSG_ID_TERRAIN_CHECK (mk_terrain_check 1000 2000))
          (sample_obj 1 0 [sample_entry 1000 2000 100 5 GRID_CACHE_VALID])) = [].
Proof.
  apply (proj2 (proj2 (proj2 (proj2 (inbound_handling_sends_no_request (C := sample)
           (mk_Env 5000 5001 (Some (mk_Location 1000 2000)) (fun _ => 0)) 0
           (MAVLINK_MSG_ID_TERRAIN_CHECK (mk_terrain_check 1000 2000))
           (sample_obj 1 0 [sample_entry 1000 2000 100 5 GRID_CACHE_VALID])))))
           (mk_terrain_check 1000 2000) eq_refl).
  simpl. lia.
Defined.

Lemma bitcount64_after_setting_a_bit_witness :
  bitcount64 (Z.lor 5 (Z.shiftl 1 1)) = bitcount64 5 + 1 /\ bitcount64 5 <= 56.
Proof.
  destruct (bitcount64_after_setting_a_bit 5 1) as [Hadd Hle]; [lia |].
  split; [exact Hadd | apply Hle; reflexivity].
Defined.

Lemma sample_all_complete (info : Z * Z) (t0 : AP_Terrain (list (Z * Z))) :
  cache t0 = [sample_entry 1000 2000 100 72057594037927935 GRID_CACHE_VALID] ->
  nothing_to_request (fst (sample_find_grid info t0)).
Proof.
  intros Hc. unfold sample_find_grid. rewrite Hc. cbn [find].
  destruct (bool_decide _); cbn [fst].
  - right. reflexivity.
  - left. reflexivity.
Defined.

Lemma sample_complete_cache (t0 : AP_Terrain (list (Z * Z))) :
  cache t0 = [sample_entry 1000 2000 100 72057594037927935 GRID_CACHE_VALID] ->
  Forall (fun c => state c = GRID_CACHE_INVALID \/ nothing_to_request c) (cache t0).
Proof.
  intros ->. constructor; [| constructor]. right. right. reflexivity.
Defined.

Lemma nothing_to_request_gives_report_witness :
  exists sp h pending loaded,
    sent (send_request (C := sample) (sample_env 5000 5001) 0
            (sample_obj 1 0 [sample_entry 1000 2000 100 72057594037927935 GRID_CACHE_VALID]))
    = [TERRAIN_REPORT 0 1000 2000 sp h pending loaded].
Proof.
  destruct (nothing_to_request_gives_report (C := sample)
              (fun t0 => cache t0
                         = [sample_entry 1000 2000 100 72057594037927935 GRID_CACHE_VALID])
              (fun info t0 Ht0 => eq_trans (proj1 (sample_find_grid_cache info t0)) Ht0)
              sample_all_complete
              sample_complete_cache
              (sample_env 5000 5001) 0 (mk_Location 1000 2000)
              (sample_obj 1 0 [sample_entry 1000 2000 100 72057594037927935 GRID_CACHE_VALID]))
    as (_ & Hroom & _).
  - simpl. lia.
  - vm_compute. discriminate.
  - reflexivity.
  - reflexivity.
  - apply Hroom. simpl. lia.
Defined.

Lemma writes_stay_in_bounds_after_any_sequence_witness :
  exists c,
    cache (deliver (C := sample) [sample_packet 3; corrupt_packet 9]
             (sample_obj 1 0 [sample_entry 1000 2000 100 0 GRID_CACHE_VALID])) !! 0%nat = Some c
    /\ is_Some (cell (height (grid c)) 27 31).
Proof.
  destruct (cache (deliver (C := sample) [sample_packet 3; corrupt_packet 9]
              (sample_obj 1 0 [sample_entry 1000 2000 100 0 GRID_CACHE_VALID])) !! 0%nat)
    as [c |] eqn:Hc; [| vm_compute in Hc; discriminate Hc].
  exists c. split; [reflexivity |].
  apply (proj2 (writes_stay_in_bounds_after_any_sequence (C := sample) sample_update_keeps_grids
                  [sample_packet 3; corrupt_packet 9]
                  (sample_obj 1 0 [sample_entry 1000 2000 100 0 GRID_CACHE_VALID])
                  (sample_packet 55) c (27, 31, 116)
                  ltac:(constructor; [exact blank_height_wf | constructor]) Hc
                  ltac:(simpl; lia) ltac:(vm_compute; repeat constructor))).
Defined.
